(** * Liquid flow of server/block (tickLiquid and its helpers)

    A shallow embedding of the liquid tick of the block package: the
    classifier ([source], [sourceAround]), the vertical and horizontal flow of
    [tickLiquid], the executor [flowInto], the path search
    [calculateLiquidPaths] with its node queue and the queue pool.  The model
    of the fences, [model.Fence], which shares the source file, is embedded
    in the module [model].

    Go's [int] is taken as a 64-bit two's complement integer and [int8] as an
    8-bit one; every arithmetic operation of the source is followed by the
    wrap-around of its type. *)

From Stdlib Require Import ZArith String QArith List Bool Lia.
Import ListNotations.
Open Scope Z_scope.

(** ** Machine integers *)

Definition wrap (w : Z) (z : Z) : Z := (z + 2 ^ (w - 1)) mod 2 ^ w - 2 ^ (w - 1).

(** Go's [int] on the 64-bit targets the server is built for. *)
Definition int (z : Z) : Z := wrap 64 z.

(** Go's [int8]; [int8 z] is also the conversion [int8(z)]. *)
Definition int8 (z : Z) : Z := wrap 8 z.

(** math.MaxInt8 *)
Definition MaxInt8 : Z := 127.

(** ** Positions (cube.Pos is [3]int) *)

Definition Pos : Type := (Z * Z * Z)%type.

Definition px (p : Pos) : Z := fst (fst p).
Definition py (p : Pos) : Z := snd (fst p).
Definition pz (p : Pos) : Z := snd p.

Definition Pos_eqb (p q : Pos) : bool :=
  (px p =? px q) && (py p =? py q) && (pz p =? pz q).

(** Modelled from the spec: cube.Pos.Side for cube.FaceDown, the cell directly
    below a position (the cube package is not part of the sources). *)
Definition SideDown (p : Pos) : Pos := (px p, int (py p - 1), pz p).

(** Modelled from the spec: cube.Pos.Neighbours, the iteration over the six
    axis-aligned neighbours of a position, bounded by the vertical extent
    [r = (min, max)] of the grid; nothing is visited from a position outside
    of the extent.  The order is x+1, x-1, y+1, y-1, z+1, z-1. *)
Definition Neighbours (p : Pos) (r : Z * Z) : list Pos :=
  if (py p <? fst r) || (py p >? snd r) then []
  else
    [(int (px p + 1), py p, pz p); (int (px p - 1), py p, pz p)]
      ++ (if int (py p + 1) <=? snd r then [(px p, int (py p + 1), pz p)] else [])
      ++ (if int (py p - 1) >=? fst r then [(px p, int (py p - 1), pz p)] else [])
      ++ [(px p, py p, int (pz p + 1)); (px p, py p, int (pz p - 1))].

(** ** Liquids (world.Liquid)

    Modelled from the spec: the liquid value of section 3, a value type with
    its type, depth, falling flag and spread decay; [WithDepth] produces the
    liquid of the same type with another depth and falling flag. *)
Record Liquid : Type := mkLiquid {
  LiquidType : string;
  LiquidDepth : Z;
  LiquidFalling : bool;
  SpreadDecay : Z
}.

Definition WithDepth (b : Liquid) (depth : Z) (falling : bool) : Liquid :=
  {| LiquidType := LiquidType b; LiquidDepth := depth;
     LiquidFalling := falling; SpreadDecay := SpreadDecay b |}.

Definition Liquid_eqb (a b : Liquid) : bool :=
  String.eqb (LiquidType a) (LiquidType b) && (LiquidDepth a =? LiquidDepth b)
    && Bool.eqb (LiquidFalling a) (LiquidFalling b) && (SpreadDecay a =? SpreadDecay b).

(** ** Blocks and their capabilities

    The source inspects a block through type assertions: to the concrete type
    Air and to the interfaces world.Liquid, world.LiquidDisplacer,
    LiquidRemovable and Breakable.  A block is the record of what each
    assertion yields. *)

Definition Item : Type := string.

(** world.LiquidDisplacer.  Modelled from the spec: [side-closed(from, to)]
    takes the two positions of the interface. *)
Record LiquidDisplacer : Type := mkDisplacer {
  CanDisplace : Liquid -> bool;
  SideClosed : Pos -> Pos -> bool
}.

Record Block : Type := mkBlock {
  is_Air : bool;                                (* existing.(Air) *)
  as_Liquid : option Liquid;                    (* existing.(world.Liquid) *)
  as_LiquidDisplacer : option LiquidDisplacer;  (* existing.(world.LiquidDisplacer) *)
  as_LiquidRemovable : option bool;             (* existing.(LiquidRemovable), HasLiquidDrops() *)
  as_Breakable : option (list Item)             (* existing.(Breakable), BreakInfo().Drops(ToolNone, nil) *)
}.

(** Air is removable by liquid and drops nothing. *)
Definition Air : Block :=
  {| is_Air := true; as_Liquid := None; as_LiquidDisplacer := None;
     as_LiquidRemovable := Some false; as_Breakable := None |}.

(** The block a liquid is when it occupies a cell: the liquids of the block
    package are removable by liquid and drop nothing. *)
Definition liquidBlock (l : Liquid) : Block :=
  {| is_Air := false; as_Liquid := Some l; as_LiquidDisplacer := None;
     as_LiquidRemovable := Some false; as_Breakable := None |}.

(** sourceWaterDisplacer.CanDisplace and flowingWaterDisplacer.CanDisplace:
    the assertion [b.(Water)] succeeds on the liquids of type water. *)
Definition sourceWaterDisplacer_CanDisplace (b : Liquid) : bool :=
  String.eqb (LiquidType b) "water" && negb (LiquidFalling b) && (LiquidDepth b =? 8).

Definition flowingWaterDisplacer_CanDisplace (b : Liquid) : bool :=
  String.eqb (LiquidType b) "water".

(** ** The grid (world.Tx)

    Modelled from the spec: the voxel grid of section 6 with [block-at],
    [liquid-at], [set-block] and [set-liquid].  A cell holds one occupant
    block; liquids and ordinary blocks exclude each other, except that a
    displacer may contain a liquid next to itself. *)
Record Cell : Type := mkCell {
  occupant : Block;
  contained : option Liquid
}.

Definition Grid : Type := Pos -> Cell.

Definition blockAt (g : Grid) (p : Pos) : Block := occupant (g p).

Definition liquidAt (g : Grid) (p : Pos) : option Liquid :=
  match as_Liquid (occupant (g p)) with
  | Some l => Some l
  | None => contained (g p)
  end.

Definition updateCell (g : Grid) (p : Pos) (c : Cell) : Grid :=
  fun q => if Pos_eqb q p then c else g q.

Definition isSome {A : Type} (o : option A) : bool :=
  match o with Some _ => true | None => false end.

Definition gridSetLiquid (g : Grid) (p : Pos) (l : option Liquid) : Grid :=
  let c := g p in
  match l with
  | None =>
      updateCell g p
        {| occupant := if isSome (as_Liquid (occupant c)) then Air else occupant c;
           contained := None |}
  | Some v =>
      if is_Air (occupant c) || isSome (as_Liquid (occupant c)) then
        updateCell g p {| occupant := liquidBlock v; contained := None |}
      else
        match as_LiquidDisplacer (occupant c) with
        | Some d =>
            if CanDisplace d v then
              updateCell g p {| occupant := occupant c; contained := Some v |}
            else g
        | None => g
        end
  end.

Definition gridSetBlock (g : Grid) (p : Pos) (b : option Block) : Grid :=
  let c := g p in
  let nb := match b with Some nb => nb | None => Air end in
  updateCell g p
    {| occupant := nb;
       contained :=
         match contained c, as_LiquidDisplacer nb with
         | Some l, Some d => if CanDisplace d l then Some l else None
         | _, _ => None
         end |}.

(** ** Path nodes and the node queue *)

(** liquidNode: [previous] points to a copy of the node it was expanded
    from; the copy is made by the value receiver of [neighbours] and is never
    written afterwards. *)
#[local] Set Warnings "-register-all".
Inductive liquidNode : Type :=
  mkNode (x z : Z) (depth : Z) (previous : option liquidNode).

Definition node_x (n : liquidNode) : Z := let (x, _, _, _) := n in x.
Definition node_z (n : liquidNode) : Z := let (_, z, _, _) := n in z.
Definition node_depth (n : liquidNode) : Z := let (_, _, d, _) := n in d.
Definition node_previous (n : liquidNode) : option liquidNode :=
  let (_, _, _, p) := n in p.

Definition liquidPath : Type := list Pos.

(** liquidQueue.  [nodes] is the slice up to its length; [cap] is the
    capacity of its backing array, which [Reset] keeps. *)
Record liquidQueue : Type := mkQueue {
  nodes : list liquidNode;
  cap : nat;
  qi : Z;
  shortestPath : Z
}.

(** ** State, effects and outcomes *)

(** The mutations a tick performs on the grid, in the order of the calls. *)
Inductive Effect : Type :=
| ESetLiquid (pos : Pos) (l : option Liquid)
| ESetBlock (pos : Pos) (b : option Block)
| EHarden (l : Liquid) (pos src : Pos)
| EDropItem (d : Item) (pos : Pos).

Record State : Type := mkState {
  grid : Grid;
  log : list Effect;
  pool : list liquidQueue
}.

Inductive Fatal : Type :=
| LiquidDropsNotBreakable   (* panic("liquid drops should always implement breakable") *)
| IndexOutOfRange.          (* run-time panic of an index expression *)

Inductive Outcome (A : Type) : Type :=
| Ok (a : A) (st : State)
| Panic (f : Fatal) (st : State)
| OutOfFuel.

Arguments Ok {A} a st.
Arguments Panic {A} f st.
Arguments OutOfFuel {A}.

Definition M (A : Type) : Type := State -> Outcome A.

Definition ret {A : Type} (a : A) : M A := fun st => Ok a st.

Definition bind {A B : Type} (c : M A) (k : A -> M B) : M B :=
  fun st =>
    match c st with
    | Ok a st' => k a st'
    | Panic f st' => Panic f st'
    | OutOfFuel => OutOfFuel
    end.

Definition panic {A : Type} (f : Fatal) : M A := fun st => Panic f st.

Notation "x <- c ;; k" := (bind c (fun x => k))
  (at level 61, c at next level, right associativity).
Notation "c ;;; k" := (bind c (fun _ => k))
  (at level 61, right associativity).

Definition getGrid : M Grid := fun st => Ok (grid st) st.

Fixpoint forEach {A : Type} (f : A -> M unit) (l : list A) : M unit :=
  match l with
  | [] => ret tt
  | a :: rest => f a ;;; forEach f rest
  end.

(** ** Methods of liquidNode *)

(** neighbours: the four horizontal neighbours of the node with decreased
    depth, each pointing back to the node. *)
Definition neighbours (node : liquidNode) (decay : Z)
  : liquidNode * liquidNode * liquidNode * liquidNode :=
  (mkNode (int (node_x node - 1)) (node_z node) (int8 (node_depth node - decay)) (Some node),
   mkNode (int (node_x node + 1)) (node_z node) (int8 (node_depth node - decay)) (Some node),
   mkNode (node_x node) (int (node_z node - 1)) (int8 (node_depth node - decay)) (Some node),
   mkNode (node_x node) (int (node_z node + 1)) (int8 (node_depth node - decay)) (Some node)).

(** The loop of Len, from the counter [i]. *)
Fixpoint Len_loop (node : liquidNode) (i : Z) : Z :=
  match node with
  | mkNode _ _ _ None => int (i - 1)
  | mkNode _ _ _ (Some p) => Len_loop p (int (i + 1))
  end.

Definition Len (node : liquidNode) : Z := Len_loop node 1.

(** [path[i] = v]: None is the run-time panic of an index out of range. *)
Fixpoint setIndex {A : Type} (l : list A) (i : nat) (v : A) : option (list A) :=
  match l, i with
  | [], _ => None
  | _ :: t, O => Some (v :: t)
  | h :: t, S i' =>
      match setIndex t i' v with
      | Some t' => Some (h :: t')
      | None => None
      end
  end.

Definition storeAt {A : Type} (l : list A) (i : Z) (v : A) : option (list A) :=
  if i <? 0 then None else setIndex l (Z.to_nat i) v.

(** The loop of Path: the positions are stored from the last index down. *)
Fixpoint Path_loop (node : liquidNode) (src : Pos) (path : liquidPath) (i : Z)
  : option liquidPath :=
  match node with
  | mkNode _ _ _ None => Some path
  | mkNode x z _ (Some p) =>
      match storeAt path i (x, py src, z) with
      | Some path' => Path_loop p src path' (int (i - 1))
      | None => None
      end
  end.

Definition Path (node : liquidNode) (src : Pos) : option liquidPath :=
  let l := Len node in
  Path_loop node src (repeat (0, 0, 0) (Z.to_nat l)) (int (l - 1)).

(** ** The environment of a tick

    Modelled from the spec: the collaborators of section 6 that are not part
    of the sources: the vertical extent of the grid, the two cancellable
    interaction hooks (true when the handler cancels), the hardening reaction
    of a liquid as a transformation of the grid, and the growth policy of
    append, which belongs to the Go runtime. *)
Record Env : Type := mkEnv {
  Range : Z * Z;
  HandleLiquidDecay : Pos -> Liquid -> option Liquid -> bool;
  HandleLiquidFlow : Pos -> Pos -> Liquid -> Block -> bool;
  Harden : Liquid -> Pos -> Pos -> Grid -> Grid;
  growslice : nat -> nat -> nat
}.

Section Engine.

Variable env : Env.

(** *** liquidQueue and liquidQueuePool *)

Definition newQueue : liquidQueue :=
  {| nodes := []; cap := 64; qi := 0; shortestPath := MaxInt8 |}.

Definition PushBack (q : liquidQueue) (node : liquidNode) : liquidQueue :=
  {| nodes := nodes q ++ [node];
     cap := if (length (nodes q) <? cap q)%nat then cap q
            else growslice env (cap q) (S (length (nodes q)));
     qi := qi q;
     shortestPath := shortestPath q |}.

(** Front: None is the run-time panic of [q.nodes[q.i]] out of range.  The
    cursor is incremented after the index expression succeeded, so it stays
    below the length of the slice, which is an [int]: the increment does not
    wrap. *)
Definition Front (q : liquidQueue) : option (liquidNode * liquidQueue) :=
  if qi q <? 0 then None
  else
    match nth_error (nodes q) (Z.to_nat (qi q)) with
    | Some v =>
        Some (v, {| nodes := nodes q; cap := cap q; qi := qi q + 1;
                    shortestPath := shortestPath q |})
    | None => None
    end.

(** Len: the length of the slice minus the cursor, both between 0 and the
    length of the slice. *)
Definition QLen (q : liquidQueue) : Z := Z.of_nat (length (nodes q)) - qi q.

Definition Reset (q : liquidQueue) : liquidQueue :=
  {| nodes := []; cap := cap q; qi := 0; shortestPath := MaxInt8 |}.

Definition setShortestPath (q : liquidQueue) (l : Z) : liquidQueue :=
  {| nodes := nodes q; cap := cap q; qi := qi q; shortestPath := l |}.

(** sync.Pool: Get takes a pooled queue when there is one and makes a new one
    otherwise. *)
Definition poolGet (p : list liquidQueue) : liquidQueue * list liquidQueue :=
  match p with
  | [] => (newQueue, [])
  | q :: rest => (q, rest)
  end.

Definition poolPut (q : liquidQueue) (p : list liquidQueue) : list liquidQueue := q :: p.

(** *** Grid operations of the transaction *)

Definition SetLiquid (pos : Pos) (l : option Liquid) : M unit :=
  fun st =>
    Ok tt {| grid := gridSetLiquid (grid st) pos l;
             log := log st ++ [ESetLiquid pos l];
             pool := pool st |}.

Definition SetBlock (pos : Pos) (b : option Block) : M unit :=
  fun st =>
    Ok tt {| grid := gridSetBlock (grid st) pos b;
             log := log st ++ [ESetBlock pos b];
             pool := pool st |}.

Definition doHarden (l : Liquid) (pos src : Pos) : M unit :=
  fun st =>
    Ok tt {| grid := Harden env l pos src (grid st);
             log := log st ++ [EHarden l pos src];
             pool := pool st |}.

Definition dropItem (d : Item) (pos : Pos) : M unit :=
  fun st =>
    Ok tt {| grid := grid st; log := log st ++ [EDropItem d pos]; pool := pool st |}.

(** [displacer == nil || !displacer.SideClosed(from, to, tx)] *)
Definition sideOpen (displacer : option LiquidDisplacer) (from to : Pos) : bool :=
  match displacer with
  | None => true
  | Some d => negb (SideClosed d from to)
  end.

(** *** source *)
Definition source (b : Liquid) : bool :=
  (LiquidDepth b =? 8) && negb (LiquidFalling b).

(** *** canFlowInto *)
Definition canFlowInto (b : Liquid) (g : Grid) (pos : Pos) (sideways : bool) : bool :=
  let bl := blockAt g pos in
  if is_Air bl then true
  else
    match as_LiquidRemovable bl with
    | Some _ =>
        match as_Liquid bl with
        | Some liq =>
            if sideways
               && (((LiquidDepth liq =? 8) && negb (LiquidFalling liq))
                   || negb (String.eqb (LiquidType liq) (LiquidType b)))
            then false
            else true
        | None => true
        end
    | None =>
        match as_LiquidDisplacer bl with
        | Some dis =>
            let res := WithDepth b (int (LiquidDepth b - SpreadDecay b)) (negb sideways) in
            if CanDisplace dis res then true else false
        | None => false
        end
    end.

(** *** sourceAround *)

(** The body of the closure passed to Neighbours: true when it sets
    sourcePresent. *)
Definition feeds (b : Liquid) (pos : Pos) (g : Grid) (neighbour : Pos) : bool :=
  if py neighbour =? int (py pos - 1) then false
  else
    match liquidAt g neighbour with
    | None => false
    | Some side =>
        if negb (String.eqb (LiquidType side) (LiquidType b)) then false
        else
          if match as_LiquidDisplacer (blockAt g neighbour) with
             | Some displacer => SideClosed displacer neighbour pos
             | None => false
             end
          then false
          else (py neighbour =? int (py pos + 1)) || source side
               || (LiquidDepth side >? LiquidDepth b)
    end.

Definition sourceAround (b : Liquid) (pos : Pos) (g : Grid) : bool :=
  fold_left (fun sourcePresent neighbour =>
               if feeds b pos g neighbour then true else sourcePresent)
            (Neighbours pos (Range env)) false.

(** *** flowInto *)
Definition flowInto (b : Liquid) (src pos : Pos) (falling : bool) : M bool :=
  let newDepth := if falling then LiquidDepth b else int (LiquidDepth b - SpreadDecay b) in
  if (newDepth <=? 0) && negb falling then ret false
  else
    g <- getGrid ;;
    let existing := blockAt g pos in
    match as_Liquid existing with
    | Some existingLiquid =>
        if String.eqb (LiquidType existingLiquid) (LiquidType b) then
          if (LiquidDepth existingLiquid >=? newDepth) || LiquidFalling existingLiquid
          then ret true
          else if HandleLiquidFlow env src pos (WithDepth b newDepth falling) existing
          then ret false
          else SetLiquid pos (Some (WithDepth b newDepth falling)) ;;; ret true
        else doHarden existingLiquid pos src ;;; ret false
    | None =>
        let displacer := as_LiquidDisplacer existing in
        if isSome displacer && isSome (liquidAt g pos) then ret false
        else
          let removable := as_LiquidRemovable existing in
          if negb (isSome removable)
             && match displacer with
                | Some d => negb (CanDisplace d (WithDepth b newDepth falling))
                | None => true
                end
          then ret false
          else if HandleLiquidFlow env src pos (WithDepth b newDepth falling) existing
          then ret false
          else
            match removable with
            | Some hasLiquidDrops =>
                (if negb (is_Air existing) then SetBlock pos None else ret tt) ;;;
                (if hasLiquidDrops then
                   match as_Breakable existing with
                   | Some drops => forEach (fun d => dropItem d pos) drops
                   | None => panic LiquidDropsNotBreakable
                   end
                 else ret tt)
            | None => ret tt
            end ;;;
            SetLiquid pos (Some (WithDepth b newDepth falling)) ;;;
            ret true
    end.

(** *** spreadNeighbour

    Returns the result of the call with the queue as the call leaves it. *)
Definition spreadNeighbour (b : Liquid) (src : Pos) (g : Grid) (node : liquidNode)
    (queue : liquidQueue) : bool * liquidQueue :=
  if int8 (node_depth node + 3) <=? 0 then (false, queue)
  else if Len node >? shortestPath queue then (false, queue)
  else
    let pos : Pos := (node_x node, py src, node_z node) in
    if negb (canFlowInto b g pos true) then (false, queue)
    else
      let pos : Pos := (px pos, int (py pos - 1), pz pos) in
      if canFlowInto b g pos false then (true, queue)
      else (false, PushBack queue node).

(** *** calculateLiquidPaths *)

(** What one step of the search leaves: the queue and the paths, or the
    run-time panic it stopped with. *)
Inductive Search : Type :=
| Going (queue : liquidQueue) (paths : list liquidPath)
| Crashed (f : Fatal) (queue : liquidQueue).

(** One of the four blocks of the loop body, for the neighbour [neigh]. *)
Definition visit (b : Liquid) (pos : Pos) (g : Grid) (displacer : option LiquidDisplacer)
    (first : bool) (neigh : liquidNode) (s : Search) : Search :=
  match s with
  | Crashed f queue => Crashed f queue
  | Going queue paths =>
      if negb first || sideOpen displacer pos (node_x neigh, py pos, node_z neigh) then
        let (found, queue) := spreadNeighbour b pos g neigh queue in
        if found then
          let queue := setShortestPath queue (Len neigh) in
          match Path neigh pos with
          | Some path => Going queue (paths ++ [path])
          | None => Crashed IndexOutOfRange queue
          end
        else Going queue paths
      else Going queue paths
  end.

(** The body of the loop for the node taken from the front. *)
Definition expand (b : Liquid) (pos : Pos) (g : Grid) (displacer : option LiquidDisplacer)
    (decay : Z) (first : bool) (node : liquidNode) (s : Search) : Search :=
  let '(neighA, neighB, neighC, neighD) := neighbours node (int8 (decay * 2)) in
  visit b pos g displacer first neighD
    (visit b pos g displacer first neighC
       (visit b pos g displacer first neighB
          (visit b pos g displacer first neighA s))).

(** The [for] loop; one unit of fuel is one node expansion, and None is the
    loop still running when the fuel is used up. *)
Fixpoint searchLoop (fuel : nat) (b : Liquid) (pos : Pos) (g : Grid)
    (displacer : option LiquidDisplacer) (decay : Z) (first : bool)
    (queue : liquidQueue) (paths : list liquidPath) : option Search :=
  if QLen queue =? 0 then Some (Going queue paths)
  else
    match fuel with
    | O => None
    | S fuel' =>
        match Front queue with
        | None => Some (Crashed IndexOutOfRange queue)
        | Some (node, queue) =>
            match expand b pos g displacer decay first node (Going queue paths) with
            | Going queue paths =>
                searchLoop fuel' b pos g displacer decay false queue paths
            | Crashed f queue => Some (Crashed f queue)
            end
        end
    end.

(** The search on the queue [queue] taken from the pool. *)
Definition searchFrom (fuel : nat) (b : Liquid) (pos : Pos) (g : Grid)
    (displacer : option LiquidDisplacer) (queue : liquidQueue) : option Search :=
  let queue := PushBack queue (mkNode (px pos) (pz pos) (int8 (LiquidDepth b)) None) in
  let decay := int8 (SpreadDecay b) in
  searchLoop fuel b pos g displacer decay true queue [].

(** calculateLiquidPaths: the queue is taken from the pool, and the deferred
    function resets it and puts it back, also when the search panics. *)
Definition calculateLiquidPaths (fuel : nat) (b : Liquid) (pos : Pos)
    (displacer : option LiquidDisplacer) : M (list liquidPath) :=
  fun st =>
    let (queue, rest) := poolGet (pool st) in
    match searchFrom fuel b pos (grid st) displacer queue with
    | None => OutOfFuel
    | Some (Going queue paths) =>
        Ok paths {| grid := grid st; log := log st; pool := poolPut (Reset queue) rest |}
    | Some (Crashed f queue) =>
        Panic f {| grid := grid st; log := log st; pool := poolPut (Reset queue) rest |}
    end.

(** *** spreadOutwards *)
Definition spreadOutwards (b : Liquid) (pos : Pos) (displacer : option LiquidDisplacer)
  : M unit :=
  forEach (fun neighbour =>
             if py neighbour =? py pos then
               if sideOpen displacer pos neighbour then
                 flowInto b pos neighbour false ;;; ret tt
               else ret tt
             else ret tt)
          (Neighbours pos (Range env)).

(** *** tickLiquid *)

(** The branch of a liquid that is neither a source nor fed by one. *)
Definition decay (b : Liquid) (pos : Pos) : M unit :=
  let res :=
    if int (LiquidDepth b - 4) >? 0
    then Some (WithDepth b (int (LiquidDepth b - int (2 * SpreadDecay b))) false)
    else None in
  if HandleLiquidDecay env pos b res then ret tt
  else SetLiquid pos res.

(** The vertical flow; returns the liquid [b] as the rest of the tick sees
    it. *)
Definition flowDown (b : Liquid) (pos : Pos) (displacer : option LiquidDisplacer)
    (canFlowBelow : bool) : M Liquid :=
  if LiquidFalling b && negb canFlowBelow then ret (WithDepth b 8 true)
  else if canFlowBelow then
    let below := SideDown pos in
    if sideOpen displacer pos below then
      flowInto (WithDepth b 8 true) pos below true ;;; ret b
    else ret b
  else ret b.

(** The loop over the paths found: [smallestLen] is the length of the first
    path. *)
Definition flowPaths (b : Liquid) (pos : Pos) (smallestLen : nat) (paths : list liquidPath)
  : M unit :=
  forEach (fun path : liquidPath =>
             if (length path <=? smallestLen)%nat then
               match path with
               | first :: _ => flowInto b pos first false ;;; ret tt
               | [] => panic IndexOutOfRange
               end
             else ret tt)
          paths.

(** The horizontal spread of the liquid [b]. *)
Definition spread (fuel : nat) (b : Liquid) (pos : Pos) (displacer : option LiquidDisplacer)
    (canFlowBelow : bool) : M unit :=
  let depth := LiquidDepth b in
  let decay := SpreadDecay b in
  if depth <=? decay then ret tt
  else if source b || negb canFlowBelow then
    paths <- calculateLiquidPaths fuel b pos displacer ;;
    match paths with
    | [] => spreadOutwards b pos displacer
    | path0 :: _ => flowPaths b pos (length path0) paths
    end
  else ret tt.

Definition tickLiquid (fuel : nat) (b : Liquid) (pos : Pos) : M unit :=
  fun st =>
    if negb (source b) && negb (sourceAround b pos (grid st)) then decay b pos st
    else
      let displacer := as_LiquidDisplacer (blockAt (grid st) pos) in
      let canFlowBelow := canFlowInto b (grid st) (SideDown pos) false in
      (b' <- flowDown b pos displacer canFlowBelow ;;
       spread fuel b' pos displacer canFlowBelow) st.

End Engine.

(** ** Sample liquids, blocks and grids *)

Definition water (depth : Z) (falling : bool) : Liquid :=
  {| LiquidType := "water"; LiquidDepth := depth; LiquidFalling := falling; SpreadDecay := 1 |}.

Definition lava (depth : Z) (falling : bool) : Liquid :=
  {| LiquidType := "lava"; LiquidDepth := depth; LiquidFalling := falling; SpreadDecay := 2 |}.

(** A block with none of the capabilities. *)
Definition stone : Block :=
  {| is_Air := false; as_Liquid := None; as_LiquidDisplacer := None;
     as_LiquidRemovable := None; as_Breakable := None |}.

(** A displacer of flowing water with every side closed. *)
Definition sealedDisplacer : Block :=
  {| is_Air := false; as_Liquid := None;
     as_LiquidDisplacer :=
       Some {| CanDisplace := flowingWaterDisplacer_CanDisplace;
               SideClosed := fun _ _ => true |};
     as_LiquidRemovable := None; as_Breakable := None |}.

(** A block that declares liquid drops and is not breakable. *)
Definition misconfigured : Block :=
  {| is_Air := false; as_Liquid := None; as_LiquidDisplacer := None;
     as_LiquidRemovable := Some true; as_Breakable := None |}.

(** A block that is washed away and drops itself. *)
Definition flower : Block :=
  {| is_Air := false; as_Liquid := None; as_LiquidDisplacer := None;
     as_LiquidRemovable := Some true; as_Breakable := Some ["flower"%string] |}.

Definition cellOf (b : Block) : Cell := {| occupant := b; contained := None |}.

(** The environment of the samples: no handler cancels, hardening turns the
    cell into stone, append doubles the capacity. *)
Definition sampleEnv : Env :=
  {| Range := (-64, 319);
     HandleLiquidDecay := fun _ _ _ => false;
     HandleLiquidFlow := fun _ _ _ _ => false;
     Harden := fun _ pos _ g => updateCell g pos (cellOf stone);
     growslice := fun old need => Nat.max (2 * old) need |}.

(** The same environment with a handler that cancels every interaction. *)
Definition cancellingEnv : Env :=
  {| Range := (-64, 319);
     HandleLiquidDecay := fun _ _ _ => true;
     HandleLiquidFlow := fun _ _ _ _ => true;
     Harden := fun _ pos _ g => updateCell g pos (cellOf stone);
     growslice := fun old need => Nat.max (2 * old) need |}.

(** A flat plane: stone below y = 0 and air from y = 0 upwards. *)
Definition flatGrid : Grid :=
  fun p => if py p <? 0 then cellOf stone else cellOf Air.

(** The flat plane with the liquid [l] at the origin. *)
Definition planeWith (l : Liquid) : Grid :=
  updateCell flatGrid (0, 0, 0) (cellOf (liquidBlock l)).

(** The flat plane with [l] at the origin and the floor open right below
    it. *)
Definition dropGrid (l : Liquid) : Grid :=
  updateCell (planeWith l) (0, -1, 0) (cellOf Air).

Definition stateOf (g : Grid) : State := {| grid := g; log := []; pool := [] |}.

(** ** Observations used by the statements *)

(** The effects an outcome adds to the log of the state it started from. *)
Definition written {A : Type} (st : State) (o : Outcome A) : list Effect :=
  match o with
  | Ok _ st' => skipn (length (log st)) (log st')
  | Panic _ st' => skipn (length (log st)) (log st')
  | OutOfFuel => []
  end.

(** The candidate depth of a flow step, as flowInto computes it. *)
Definition newDepthOf (b : Liquid) (falling : bool) : Z :=
  if falling then LiquidDepth b else int (LiquidDepth b - SpreadDecay b).

(** What flowInto may add to the log as a liquid write: the candidate liquid,
    at the target, after the check of the candidate depth. *)
Definition flowWrite (b : Liquid) (pos : Pos) (falling : bool) (e : Effect) : Prop :=
  match e with
  | ESetLiquid p l =>
      p = pos /\ l = Some (WithDepth b (newDepthOf b falling) falling)
      /\ (falling = true \/ 0 < newDepthOf b falling)
  | _ => True
  end.

(** The plane with the liquid [l] at the origin and the liquid [other] on its
    east side. *)
Definition planeWithNeighbour (l other : Liquid) : Grid :=
  updateCell (planeWith l) (1, 0, 0) (cellOf (liquidBlock other)).

(** The plane with [l] at the origin and the block [bl] on its east side. *)
Definition planeWithBlock (l : Liquid) (bl : Block) : Grid :=
  updateCell (planeWith l) (1, 0, 0) (cellOf bl).

(** ** Measures and invariants of the path search *)

(** The number of [previous] links behind a node. *)
Fixpoint links (n : liquidNode) : nat :=
  match n with
  | mkNode _ _ _ None => O
  | mkNode _ _ _ (Some p) => S (links p)
  end.

(** The nodes of the queue that were not taken from the front yet. *)
Definition pending (q : liquidQueue) : list liquidNode :=
  skipn (Z.to_nat (qi q)) (nodes q).

(** A bound on the expansions below a node that may still grow by [k]
    links: 1 + 4 + ... + 4^k. *)
Fixpoint budget (k : nat) : nat :=
  match k with
  | O => 1
  | S k' => 4 * budget k' + 1
  end.

Definition weight (n : liquidNode) : nat := budget (127 - links n).

Definition measure (q : liquidQueue) : nat :=
  fold_right (fun n acc => weight n + acc)%nat O (pending q).

(** The weight a node at level [lvl] may add to the queue with one of its
    neighbours. *)
Definition childWeight (lvl : nat) : nat :=
  if (lvl <? 127)%nat then budget (126 - lvl) else O.

(** A queue as Reset leaves it and as the pool makes it: the capacity is
    free. *)
Definition isReset (q : liquidQueue) : Prop :=
  nodes q = [] /\ qi q = 0 /\ shortestPath q = MaxInt8.

(** The invariant of the loop of calculateLiquidPaths while it expands the
    nodes with [lvl] links: the cursor is inside the slice, the bound is at
    most MaxInt8, the pending nodes have [lvl] links and, behind them,
    [lvl + 1] links, none of them more than the bound, and the paths found
    all have the length of the bound, which is then between 1 and
    [lvl + 1]. *)
Record SearchInv (lvl : nat) (q : liquidQueue) (paths : list liquidPath) : Prop :=
  mkSearchInv {
    inv_cursor : 0 <= qi q <= Z.of_nat (length (nodes q));
    inv_bound : shortestPath q <= MaxInt8;
    inv_levels : exists front back,
        pending q = front ++ back
        /\ Forall (fun n => links n = lvl) front
        /\ Forall (fun n => links n = S lvl) back;
    inv_pending : Forall (fun n => Z.of_nat (links n) <= shortestPath q) (pending q);
    inv_paths : paths <> [] ->
        Forall (fun p : liquidPath => Z.of_nat (length p) = shortestPath q) paths
        /\ 1 <= shortestPath q <= Z.of_nat (S lvl)
  }.

(** Every queue of the pool is as Reset leaves it. *)
Definition poolReset (st : State) : Prop := Forall isReset (pool st).

(** ** The tie-break of section 4.4, in the words of the spec *)

(** The smallest length among the paths. *)
Definition minLength (paths : list liquidPath) : nat :=
  match paths with
  | [] => O
  | p :: rest => fold_right (fun q m => Nat.min (length q) m) (length p) rest
  end.

(** The paths of minimal length, in the order they were found. *)
Definition minimalPaths (paths : list liquidPath) : list liquidPath :=
  filter (fun p => (length p =? minLength paths)%nat) paths.

(** The first step of each of the paths. *)
Definition firstSteps (paths : list liquidPath) : list Pos :=
  flat_map (fun p : liquidPath => match p with s :: _ => [s] | [] => [] end) paths.

(** One horizontal flow step from [pos] into each of the targets, in
    order. *)
Definition flowSteps (env : Env) (b : Liquid) (pos : Pos) (targets : list Pos) : M unit :=
  forEach (fun t => flowInto env b pos t false ;;; ret tt) targets.

(** The computation [c] leaves the pool alone and only adds effects that
    satisfy [P] to the log, also when it panics. *)
Definition produces {A : Type} (P : Effect -> Prop) (c : M A) : Prop :=
  forall st,
    match c st with
    | Ok _ st' | Panic _ st' =>
        pool st' = pool st /\ exists es, log st' = log st ++ es /\ Forall P es
    | OutOfFuel => True
    end.

(** The computation [c] panics with nothing but a fatal condition of [P]. *)
Definition panicsOnly {A : Type} (P : Fatal -> Prop) (c : M A) : Prop :=
  forall st f st', c st = Panic f st' -> P f.

(** The four horizontal neighbours, in the order of cube.Pos.Neighbours. *)
Definition horizontalNeighbours (p : Pos) : list Pos :=
  [(int (px p + 1), py p, pz p); (int (px p - 1), py p, pz p);
   (px p, py p, int (pz p + 1)); (px p, py p, int (pz p - 1))].

(** ** Queues up to capacity

    Two queues that differ in nothing but the capacity of their backing
    array, and the search states and results over them. *)
Definition sameQueue (q q' : liquidQueue) : Prop :=
  nodes q = nodes q' /\ qi q = qi q' /\ shortestPath q = shortestPath q'.

Definition sameSearch (s s' : Search) : Prop :=
  match s, s' with
  | Going q paths, Going q' paths' => sameQueue q q' /\ paths = paths'
  | Crashed f q, Crashed f' q' => f = f' /\ sameQueue q q'
  | _, _ => False
  end.

Definition sameResult (r r' : option Search) : Prop :=
  match r, r' with
  | Some s, Some s' => sameSearch s s'
  | None, None => True
  | _, _ => False
  end.

(** ** The feeding rule of section 4.1, in the words of the spec *)

(** The interface between [pos] and [neighbour] is reported closed by a
    displacer on either side of it. *)
Definition closedEitherSide (g : Grid) (pos neighbour : Pos) : bool :=
  match as_LiquidDisplacer (blockAt g neighbour) with
  | Some d => SideClosed d neighbour pos
  | None => false
  end
  || match as_LiquidDisplacer (blockAt g pos) with
     | Some d => SideClosed d pos neighbour
     | None => false
     end.

Definition feedsSpec (b : Liquid) (pos : Pos) (g : Grid) (neighbour : Pos) : bool :=
  match liquidAt g neighbour with
  | Some side =>
      String.eqb (LiquidType side) (LiquidType b)
      && ((py neighbour =? py pos + 1) || source side
          || (LiquidDepth side >? LiquidDepth b))
      && negb (closedEitherSide g pos neighbour)
  | None => false
  end.

(** The four horizontal neighbours and the cell directly above. *)
Definition isFedBySourceSpec (b : Liquid) (pos : Pos) (g : Grid) : bool :=
  existsb (feedsSpec b pos g)
          (horizontalNeighbours pos ++ [(px pos, py pos + 1, pz pos)]).

(** ** Further sample grids *)

(** Water of depth 4 inside a displacer with every side closed, at the
    origin of the plane, and a water source on its east side. *)
Definition sealedGrid : Grid :=
  updateCell
    (updateCell flatGrid (0, 0, 0)
       {| occupant := sealedDisplacer; contained := Some (water 4 false) |})
    (1, 0, 0) (cellOf (liquidBlock (water 8 false))).

(** Water of depth 7 at the origin over an open drop, fed by a source on its
    east side. *)
Definition fedDropGrid : Grid :=
  updateCell (dropGrid (water 7 false)) (1, 0, 0) (cellOf (liquidBlock (water 8 false))).

(** A water source at the origin of the plane; the floor is open two cells
    to the east, two cells to the west and three cells to the south. *)
Definition twoHolesGrid : Grid :=
  updateCell
    (updateCell
       (updateCell (planeWith (water 8 false)) (2, -1, 0) (cellOf Air))
       (-2, -1, 0) (cellOf Air))
    (0, -1, 3) (cellOf Air).

(** ** Further observations *)

(** The cells of the chain behind a node, from the node next to the root up
    to the node itself, at the height of [src]. *)
Fixpoint chainPositions (n : liquidNode) (src : Pos) : list Pos :=
  match n with
  | mkNode _ _ _ None => []
  | mkNode x z _ (Some p) => chainPositions p src ++ [(x, py src, z)]
  end.

(** The four results of neighbours, in order. *)
Definition neighbourList (node : liquidNode) (decay : Z) : list liquidNode :=
  let '(a, b, c, d) := neighbours node decay in [a; b; c; d].

(** [k] calls of Front in a row: the nodes they return and the queue they
    leave, or None when one of them panics. *)
Fixpoint drain (k : nat) (q : liquidQueue) : option (list liquidNode * liquidQueue) :=
  match k with
  | O => Some ([], q)
  | S k' =>
      match Front q with
      | None => None
      | Some (n, q') =>
          match drain k' q' with
          | None => None
          | Some (l, q'') => Some (n :: l, q'')
          end
      end
  end.

(** Two outcomes of calculateLiquidPaths that a caller cannot tell apart:
    the same paths, grid and log, or the same panic, or both out of fuel; the
    first one put its queue, reset, on top of [rest], the second one into an
    empty pool. *)
Definition sameOutcome (rest : list liquidQueue) (o1 o2 : Outcome (list liquidPath))
  : Prop :=
  match o1, o2 with
  | Ok paths1 st1, Ok paths2 st2 =>
      paths1 = paths2 /\ grid st1 = grid st2 /\ log st1 = log st2
      /\ (exists q, pool st1 = Reset q :: rest) /\ (exists q, pool st2 = [Reset q])
  | Panic f1 _, Panic f2 _ => f1 = f2
  | OutOfFuel, OutOfFuel => True
  | _, _ => False
  end.

(** A chain of nodes as the search builds it from the cell [pos] of the
    liquid [b]: the root is the cell of the liquid with its depth; every
    other node is a horizontal neighbour of the node before it, has the depth
    of that node less twice the spread decay, in int8, passed the depth test
    of spreadNeighbour, lies on a cell that can be flowed into sideways and,
    when it is next to the root, on a side the displacer leaves open. *)
Fixpoint chainOK (b : Liquid) (pos : Pos) (g : Grid) (displacer : option LiquidDisplacer)
    (n : liquidNode) : Prop :=
  match n with
  | mkNode x z d None => x = px pos /\ z = pz pos /\ d = int8 (LiquidDepth b)
  | mkNode x z d (Some p) =>
      chainOK b pos g displacer p
      /\ In (x, py pos, z) (horizontalNeighbours (node_x p, py pos, node_z p))
      /\ d = int8 (node_depth p - int8 (int8 (SpreadDecay b) * 2))
      /\ 0 < int8 (d + 3)
      /\ canFlowInto b g (x, py pos, z) true = true
      /\ (links p = O -> sideOpen displacer pos (x, py pos, z) = true)
  end.

(** A path that is the path of such a chain, of one link at least, whose
    last cell has a cell below that can be flowed into. *)
Definition terminalOK (b : Liquid) (pos : Pos) (g : Grid)
    (displacer : option LiquidDisplacer) (path : liquidPath) : Prop :=
  exists n,
    chainOK b pos g displacer n
    /\ (1 <= links n)%nat /\ Z.of_nat (links n) <= 128
    /\ Path n pos = Some path
    /\ canFlowInto b g (node_x n, int (py pos - 1), node_z n) false = true.

(** Every cell of the path is a horizontal neighbour of the cell before it,
    the first one of [prev]. *)
Fixpoint linkedFrom (prev : Pos) (path : list Pos) : Prop :=
  match path with
  | [] => True
  | c :: rest => In c (horizontalNeighbours prev) /\ linkedFrom c rest
  end.

(** The position an effect acts on. *)
Definition effectPos (e : Effect) : Pos :=
  match e with
  | ESetLiquid p _ => p
  | ESetBlock p _ => p
  | EHarden _ p _ => p
  | EDropItem _ p => p
  end.

(** The outcome [o] of a run from [st]: what the run added to the log
    satisfies [P], a panic satisfies [F], and [T] holds when the fuel ran
    out. *)
Definition runsWith {A : Type} (P : Effect -> Prop) (F : Fatal -> Prop) (T : Prop)
    (st : State) (o : Outcome A) : Prop :=
  match o with
  | Ok _ st' => exists es, log st' = log st ++ es /\ Forall P es
  | Panic f st' => F f /\ exists es, log st' = log st ++ es /\ Forall P es
  | OutOfFuel => T
  end.

(** The liquid that the horizontal spread of a tick works with: a falling
    liquid that cannot flow down is taken at depth 8. *)
Definition landed (b : Liquid) (canFlowBelow : bool) : Liquid :=
  if LiquidFalling b && negb canFlowBelow then WithDepth b 8 true else b.

(** Falling water of depth 3 at the origin of the plane, under a water
    source. *)
Definition landedGrid : Grid :=
  updateCell (planeWith (water 3 true)) (0, 1, 0) (cellOf (liquidBlock (water 8 false))).

(** A block that displaces source water only, with every side open. *)
Definition sourceOnlyDisplacer : Block :=
  {| is_Air := false; as_Liquid := None;
     as_LiquidDisplacer :=
       Some {| CanDisplace := sourceWaterDisplacer_CanDisplace;
               SideClosed := fun _ _ => false |};
     as_LiquidRemovable := None; as_Breakable := None |}.

(** A block that displaces flowing water, with every side open. *)
Definition openDisplacer : Block :=
  {| is_Air := false; as_Liquid := None;
     as_LiquidDisplacer :=
       Some {| CanDisplace := flowingWaterDisplacer_CanDisplace;
               SideClosed := fun _ _ => false |};
     as_LiquidRemovable := None; as_Breakable := None |}.

(** The four horizontal neighbours of [pos] in the order in which
    calculateLiquidPaths visits them: x - 1, x + 1, z - 1, z + 1. *)
Definition searchOrder (pos : Pos) : list Pos :=
  [(int (px pos - 1), py pos, pz pos); (int (px pos + 1), py pos, pz pos);
   (px pos, py pos, int (pz pos - 1)); (px pos, py pos, int (pz pos + 1))].

(** A cell next to the liquid at [pos] from which the liquid can fall: the
    side towards the cell is open, the cell can be flowed into sideways and
    the cell below it can be flowed into. *)
Definition isDrop (b : Liquid) (g : Grid) (displacer : option LiquidDisplacer)
    (pos cell : Pos) : bool :=
  sideOpen displacer pos cell && canFlowInto b g cell true
  && canFlowInto b g (SideDown cell) false.

(** A water source at the origin of the plane, with the floor open under
    its east neighbour. *)
Definition ledgeGrid : Grid :=
  updateCell (planeWith (water 8 false)) (1, -1, 0) (cellOf Air).

(** * The fence model (model.Fence)

    The model of the fences: the boxes of a fence and its connections to the
    blocks on its four sides. *)

Module model.

(** cube.Face and cube.Axis *)
Inductive Face : Type := FaceDown | FaceUp | FaceNorth | FaceSouth | FaceWest | FaceEast.

Inductive Axis : Type := AxisY | AxisZ | AxisX.

Definition Face_eqb (a b : Face) : bool :=
  match a, b with
  | FaceDown, FaceDown | FaceUp, FaceUp | FaceNorth, FaceNorth
  | FaceSouth, FaceSouth | FaceWest, FaceWest | FaceEast, FaceEast => true
  | _, _ => false
  end.

Record Fence : Type := mkFence {
  Wood : bool
}.

(** FaceSolid of the fence; the position and the block source are not
    looked at. *)
Definition FaceSolid {BlockSource : Type} (f : Fence) (pos : Pos) (face : Face)
    (s : BlockSource) : bool :=
  Face_eqb face FaceDown || Face_eqb face FaceUp.

Section FenceOf.

(** The models other than the fence are not part of the sources: [Other] is
    the type of their values. *)
Variable Other : Type.

(** A value of world.BlockModel by its dynamic type, as the type assertions
    of checkFenceConnection tell them apart. *)
Inductive BlockModel : Type :=
| ofFence (f : Fence)
| ofFenceGate
| ofOther (o : Other).

(** world.BlockSource, as far as the fence reads it: [s pos] is
    [s.Block(pos).Model()]. *)
Definition BlockSource : Type := Pos -> BlockModel.

(** FaceSolid of the fence gate and of the other models, and cube.Pos.Side;
    none of them is part of the sources. *)
Variable FenceGate_FaceSolid : Pos -> Face -> BlockSource -> bool.
Variable Other_FaceSolid : Other -> Pos -> Face -> BlockSource -> bool.
Variable Side : Pos -> Face -> Pos.

(** cube.BBox with cube.Box, Stretch and ExtendTowards; not part of the
    sources. *)
Variable BBoxT : Type.
Variable Box : Q -> Q -> Q -> Q -> Q -> Q -> BBoxT.
Variable Stretch : BBoxT -> Axis -> Q -> BBoxT.
Variable ExtendTowards : BBoxT -> Face -> Q -> BBoxT.

(** The call [m.FaceSolid(pos, face, s)] on a value of the interface. *)
Definition Model_FaceSolid (m : BlockModel) (pos : Pos) (face : Face) (s : BlockSource)
  : bool :=
  match m with
  | ofFence f => FaceSolid f pos face s
  | ofFenceGate => FenceGate_FaceSolid pos face s
  | ofOther o => Other_FaceSolid o pos face s
  end.

Definition checkFenceConnection (f : Fence) (pos : Pos) (face : Face) (s : BlockSource)
  : bool :=
  let pos := Side pos face in
  let sideBlock := s pos in
  if match sideBlock with
     | ofFence fence => Bool.eqb (Wood fence) (Wood f)
     | _ => false
     end
     || Model_FaceSolid sideBlock pos face s
  then true
  else
    match sideBlock with
    | ofFenceGate => true
    | _ => false
    end.

Definition inset : Q := 0.375%Q.

Definition BBox (f : Fence) (pos : Pos) (s : BlockSource) : list BBoxT :=
  let boxes : list BBoxT := [] in
  let connectWest := checkFenceConnection f pos FaceWest s in
  let connectEast := checkFenceConnection f pos FaceEast s in
  let connectNorth := checkFenceConnection f pos FaceNorth s in
  let connectSouth := checkFenceConnection f pos FaceSouth s in
  let boxes :=
    if connectWest || connectEast then
      let sideBox := Stretch (Box 0 0 0 1 1.5 1) AxisZ (- inset)%Q in
      let sideBox :=
        if connectWest then ExtendTowards sideBox FaceEast (- inset)%Q else sideBox in
      let sideBox :=
        if connectEast then ExtendTowards sideBox FaceWest (- inset)%Q else sideBox in
      boxes ++ [sideBox]
    else boxes in
  let boxes :=
    if connectNorth || connectSouth then
      let sideBox := Stretch (Box 0 0 0 1 1.5 1) AxisX (- inset)%Q in
      let sideBox :=
        if connectNorth then ExtendTowards sideBox FaceSouth (- inset)%Q else sideBox in
      let sideBox :=
        if connectSouth then ExtendTowards sideBox FaceNorth (- inset)%Q else sideBox in
      boxes ++ [sideBox]
    else boxes in
  if (length boxes =? 0)%nat
  then boxes ++ [Box inset 0 inset (1 - inset)%Q 1.5 (1 - inset)%Q]
  else boxes.

End FenceOf.

Arguments ofFence {Other} f.
Arguments ofFenceGate {Other}.
Arguments ofOther {Other} o.

(** A sample of cube.Pos.Side: west and east along x, north and south along
    z, down and up along y. *)
Definition sampleSide (p : Pos) (face : Face) : Pos :=
  match face with
  | FaceDown => (px p, int (py p - 1), pz p)
  | FaceUp => (px p, int (py p + 1), pz p)
  | FaceNorth => (px p, py p, int (pz p - 1))
  | FaceSouth => (px p, py p, int (pz p + 1))
  | FaceWest => (int (px p - 1), py p, pz p)
  | FaceEast => (int (px p + 1), py p, pz p)
  end.

(** A row of fences along x at the height 0: wooden ones west of the
    origin and at the origin, one of another material at x = 1, a fence gate
    at x = 2; the other blocks have no solid face. *)
Definition sampleRow : BlockSource unit :=
  fun p =>
    if (py p =? 0) && (pz p =? 0) then
      if px p <=? 0 then ofFence (mkFence true)
      else if px p =? 1 then ofFence (mkFence false)
      else if px p =? 2 then ofFenceGate
      else ofOther tt
    else ofOther tt.

End model.

(** * Properties *)

(** ** Machine integers *)

Lemma wrap_small (w z : Z) :
  0 < w -> - 2 ^ (w - 1) <= z < 2 ^ (w - 1) -> wrap w z = z.
Proof.
  intros Hw Hz. unfold wrap.
  assert (E : 2 ^ w = 2 * 2 ^ (w - 1)).
  { replace w with (Z.succ (w - 1)) at 1 by lia. apply Z.pow_succ_r. lia. }
  rewrite Z.mod_small; lia.
Qed.

Lemma int_small (z : Z) : - 2 ^ 63 <= z < 2 ^ 63 -> int z = z.
Proof. intros H. unfold int. apply wrap_small; simpl (64 - 1); lia. Qed.

Lemma int8_small (z : Z) : -128 <= z < 128 -> int8 z = z.
Proof. intros H. unfold int8. apply wrap_small; simpl; lia. Qed.

(** ** The log *)

Lemma skipn_length_app {A : Type} (l es : list A) : skipn (length l) (l ++ es) = es.
Proof. induction l as [|a l IH]; simpl; auto. Qed.

(** ** First facts on flowInto *)

Section FlowIntoFacts.

Variable env : Env.

Lemma forEach_dropItem (pos : Pos) (drops : list Item) (st : State) :
  forEach (fun d => dropItem d pos) drops st
  = Ok tt {| grid := grid st;
             log := log st ++ map (fun d => EDropItem d pos) drops;
             pool := pool st |}.
Proof.
  revert st. induction drops as [|d drops IH]; intros st; simpl.
  - unfold ret. rewrite app_nil_r. destruct st; reflexivity.
  - unfold bind at 1. unfold dropItem at 1. rewrite IH. cbn [grid log pool].
    rewrite <- app_assoc. reflexivity.
Qed.

Lemma newDepthOf_check (b : Liquid) (falling : bool) :
  (newDepthOf b falling <=? 0) && negb falling = false ->
  falling = true \/ 0 < newDepthOf b falling.
Proof.
  intros H. destruct falling; [now left|right].
  rewrite andb_true_r in H. apply Z.leb_gt in H. lia.
Qed.

(** A non-falling step with a candidate depth of zero or less returns before
    it looks at the grid. *)
Lemma flowInto_rejected b src pos st :
  int (LiquidDepth b - SpreadDecay b) <= 0 ->
  flowInto env b src pos false st = Ok false st.
Proof.
  intros H. unfold flowInto.
  replace (int (LiquidDepth b - SpreadDecay b) <=? 0) with true
    by (symmetry; apply Z.leb_le; exact H).
  reflexivity.
Qed.

(** The branch of a target that is a liquid of another type. *)
Lemma flowInto_harden b src pos falling st target :
  as_Liquid (blockAt (grid st) pos) = Some target ->
  LiquidType target <> LiquidType b ->
  falling = true \/ 0 < int (LiquidDepth b - SpreadDecay b) ->
  flowInto env b src pos falling st
  = Ok false {| grid := Harden env target pos src (grid st);
                log := log st ++ [EHarden target pos src];
                pool := pool st |}.
Proof.
  intros HL Hty Hok. unfold flowInto.
  replace ((_ <=? 0) && negb falling) with false.
  2:{ symmetry. destruct Hok as [->|Hpos]; [apply andb_false_r|].
      destruct falling; [apply andb_false_r|].
      rewrite andb_true_r. apply Z.leb_gt. exact Hpos. }
  unfold bind at 1. unfold getGrid. rewrite HL.
  apply String.eqb_neq in Hty. rewrite Hty. reflexivity.
Qed.

End FlowIntoFacts.

(** ** Path nodes *)

Lemma liquidNode_induction (P : liquidNode -> Prop) :
  (forall x z d, P (mkNode x z d None)) ->
  (forall x z d p, P p -> P (mkNode x z d (Some p))) ->
  forall n, P n.
Proof.
  intros Hroot Hstep. fix IH 1. intros [x z d [p|]].
  - apply Hstep. apply IH.
  - apply Hroot.
Qed.

Lemma Len_loop_links (n : liquidNode) :
  forall i, 0 <= i -> i + Z.of_nat (links n) < 2 ^ 63 ->
  Len_loop n i = i - 1 + Z.of_nat (links n).
Proof.
  induction n as [x z d|x z d p IH] using liquidNode_induction; intros i Hi Hb.
  - cbn [Len_loop links]. rewrite int_small; lia.
  - cbn [Len_loop links] in *. rewrite int_small by lia.
    rewrite IH by lia. lia.
Qed.

Lemma Len_links (n : liquidNode) :
  Z.of_nat (links n) <= 128 -> Len n = Z.of_nat (links n).
Proof.
  intros H. unfold Len. rewrite Len_loop_links; lia.
Qed.

Lemma setIndex_length {A : Type} (l : list A) :
  forall i v, (i < length l)%nat ->
  exists l', setIndex l i v = Some l' /\ length l' = length l.
Proof.
  induction l as [|h t IH]; intros i v Hi; simpl in Hi; [lia|].
  destruct i as [|i]; simpl.
  - eexists; split; [reflexivity|reflexivity].
  - destruct (IH i v) as (t' & -> & Hlen); [lia|].
    eexists; split; [reflexivity|]. simpl. now rewrite Hlen.
Qed.

Lemma Path_loop_length (src : Pos) (n : liquidNode) :
  forall path i,
    Z.of_nat (links n) = i + 1 -> i < Z.of_nat (length path) -> i < 2 ^ 62 ->
    exists p, Path_loop n src path i = Some p /\ length p = length path.
Proof.
  induction n as [x z d|x z d p IH] using liquidNode_induction; intros path i Hl Hi Hb.
  - cbn [Path_loop]. eauto.
  - cbn [Path_loop links] in *. unfold storeAt.
    destruct (i <? 0) eqn:Hneg; [apply Z.ltb_lt in Hneg; lia|].
    destruct (setIndex_length path (Z.to_nat i) (x, py src, z)) as (path' & -> & Hlen); [lia|].
    assert (2 ^ 62 < 2 ^ 63) by (cbv; reflexivity).
    rewrite int_small by lia.
    destruct (IH path' (i - 1)) as (q & Hq & Hqlen); try lia.
    exists q. split; [exact Hq|]. now rewrite Hqlen.
Qed.

Lemma Path_links (src : Pos) (n : liquidNode) :
  Z.of_nat (links n) <= 128 ->
  exists p, Path n src = Some p /\ length p = links n.
Proof.
  intros H. unfold Path. rewrite Len_links by exact H.
  assert (129 < 2 ^ 62) by (cbv; reflexivity).
  assert (2 ^ 62 < 2 ^ 63) by (cbv; reflexivity).
  rewrite int_small by lia.
  destruct (Path_loop_length src n (repeat (0, 0, 0) (Z.to_nat (Z.of_nat (links n))))
              (Z.of_nat (links n) - 1)) as (p & Hp & Hlen).
  - lia.
  - rewrite repeat_length. lia.
  - lia.
  - exists p. split; [exact Hp|]. rewrite Hlen, repeat_length. lia.
Qed.

(** ** The node queue *)

Section Queue.

Variable env : Env.

Lemma pending_PushBack (q : liquidQueue) (n : liquidNode) :
  0 <= qi q <= Z.of_nat (length (nodes q)) ->
  pending (PushBack env q n) = pending q ++ [n].
Proof.
  intros H. unfold pending, PushBack. cbn [nodes qi].
  rewrite skipn_app.
  replace (Z.to_nat (qi q) - length (nodes q))%nat with O by lia.
  reflexivity.
Qed.

Lemma skipn_nth_error {A : Type} (l : list A) :
  forall k a, nth_error l k = Some a -> skipn k l = a :: skipn (S k) l.
Proof.
  induction l as [|h t IH]; intros [|k] a H; simpl in *; try discriminate.
  - now inversion H.
  - apply IH. exact H.
Qed.

Lemma Front_pending (q : liquidQueue) :
  0 <= qi q <= Z.of_nat (length (nodes q)) -> QLen q <> 0 ->
  exists n q',
    Front q = Some (n, q')
    /\ pending q = n :: pending q'
    /\ nodes q' = nodes q /\ qi q' = qi q + 1
    /\ shortestPath q' = shortestPath q.
Proof.
  intros Hc Hlen. unfold QLen in Hlen. unfold Front.
  destruct (qi q <? 0) eqn:Hneg; [apply Z.ltb_lt in Hneg; lia|].
  destruct (nth_error (nodes q) (Z.to_nat (qi q))) as [n|] eqn:Hnth.
  - eexists _, _. split; [reflexivity|]. cbn [nodes qi shortestPath].
    repeat split; auto.
    unfold pending. cbn [nodes qi].
    replace (Z.to_nat (qi q + 1)) with (S (Z.to_nat (qi q))) by lia.
    apply skipn_nth_error. exact Hnth.
  - apply nth_error_None in Hnth. lia.
Qed.

Lemma QLen_zero_pending (q : liquidQueue) :
  0 <= qi q <= Z.of_nat (length (nodes q)) -> QLen q = 0 -> pending q = [].
Proof.
  intros Hc H. unfold QLen in H. unfold pending.
  apply skipn_all2. lia.
Qed.

(** What a call of spreadNeighbour can leave. *)
Lemma spreadNeighbour_cases b src g node q :
  let r := spreadNeighbour env b src g node q in
  (r = (false, q))
  \/ (r = (true, q) /\ Len node <= shortestPath q /\ 0 < int8 (node_depth node + 3))
  \/ (r = (false, PushBack env q node) /\ Len node <= shortestPath q
      /\ 0 < int8 (node_depth node + 3)).
Proof.
  unfold spreadNeighbour.
  destruct (int8 (node_depth node + 3) <=? 0) eqn:Hd; [now left|].
  destruct (Len node >? shortestPath q) eqn:Hl; [now left|].
  apply Z.leb_gt in Hd. rewrite Z.gtb_ltb in Hl. apply Z.ltb_ge in Hl.
  destruct (negb (canFlowInto b g _ true)); [now left|].
  destruct (canFlowInto b g _ false); [right; left|right; right]; auto.
Qed.

Lemma budget_pos (k : nat) : (1 <= budget k)%nat.
Proof. destruct k; simpl; lia. Qed.

Lemma budget_succ (k : nat) : budget (S k) = (4 * budget k + 1)%nat.
Proof. reflexivity. Qed.

Lemma measure_PushBack (q : liquidQueue) (n : liquidNode) :
  0 <= qi q <= Z.of_nat (length (nodes q)) ->
  measure (PushBack env q n) = (measure q + weight n)%nat.
Proof.
  intros H. unfold measure. rewrite pending_PushBack by exact H.
  induction (pending q) as [|a l IH]; simpl; [lia|]. rewrite IH. lia.
Qed.

End Queue.

Arguments budget : simpl never.

(** ** The invariant of the search *)

Section SearchInvariant.

Variable env : Env.

Lemma SearchInv_pending_level lvl q paths n :
  SearchInv lvl q paths -> In n (pending q) -> (links n <= S lvl)%nat.
Proof.
  intros [_ _ (front & back & Hp & Hf & Hb) _ _] Hin.
  rewrite Hp in Hin. apply in_app_or in Hin. destruct Hin as [Hin|Hin].
  - rewrite Forall_forall in Hf. rewrite (Hf _ Hin). lia.
  - rewrite Forall_forall in Hb. rewrite (Hb _ Hin). lia.
Qed.

Lemma visit_inv b pos g displacer first neigh lvl q paths :
  SearchInv lvl q paths -> links neigh = S lvl -> (lvl <= 127)%nat ->
  exists q' paths',
    visit env b pos g displacer first neigh (Going q paths) = Going q' paths'
    /\ SearchInv lvl q' paths'
    /\ (measure q' <= measure q + childWeight lvl)%nat
    /\ (paths <> [] -> paths' <> []).
Proof.
  intros Hinv Hl Hlvl. unfold visit.
  destruct (negb first || sideOpen displacer pos _).
  2:{ exists q, paths. split; [reflexivity|]. split; [assumption|]. split; [lia|auto]. }
  assert (HLen : Len neigh = Z.of_nat (S lvl)) by (rewrite <- Hl; apply Len_links; lia).
  pose proof (spreadNeighbour_cases env b pos g neigh q) as Hc. cbv zeta in Hc.
  destruct Hc as [Hc|[(Hc & Hle & _)|(Hc & Hle & _)]]; rewrite Hc.
  - exists q, paths. split; [reflexivity|]. split; [assumption|]. split; [lia|auto].
  - destruct (Path_links pos neigh) as (p & -> & Hplen); [lia|].
    exists (setShortestPath q (Len neigh)), (paths ++ [p]).
    split; [reflexivity|]. split; [|split].
    + destruct Hinv as [Hcur Hbound Hlev Hpend Hpaths].
      constructor; cbn [setShortestPath nodes qi shortestPath]; auto.
      * unfold MaxInt8 in *. lia.
      * change (pending (setShortestPath q (Len neigh))) with (pending q).
        apply Forall_forall. intros n Hn.
        pose proof (SearchInv_pending_level lvl q paths n
                      (mkSearchInv lvl q paths Hcur Hbound Hlev Hpend Hpaths) Hn).
        lia.
      * intros _. split; [|lia].
        apply Forall_app. split.
        -- destruct paths as [|p0 ps]; [constructor|].
           destruct Hpaths as [Hall Hsp]; [discriminate|].
           eapply Forall_impl; [|exact Hall]. cbn beta. intros a Ha. lia.
        -- constructor; [|constructor]. lia.
    + change (measure (setShortestPath q (Len neigh))) with (measure q). lia.
    + intros _ H. apply app_eq_nil in H. destruct H; discriminate.
  - exists (PushBack env q neigh), paths.
    split; [reflexivity|]. split; [|split].
    + destruct Hinv as [Hcur Hbound Hlev Hpend Hpaths].
      constructor; cbn [PushBack nodes qi shortestPath]; auto.
      * rewrite length_app. simpl. lia.
      * destruct Hlev as (front & back & Hp & Hf & Hb).
        exists front, (back ++ [neigh]). rewrite pending_PushBack by exact Hcur.
        rewrite Hp, app_assoc. split; [reflexivity|]. split; [exact Hf|].
        apply Forall_app. split; [exact Hb|]. constructor; [exact Hl|constructor].
      * rewrite pending_PushBack by exact Hcur.
        apply Forall_app. split; [exact Hpend|].
        constructor; [|constructor]. lia.
    + rewrite measure_PushBack by (destruct Hinv; assumption).
      unfold childWeight, weight. rewrite Hl.
      destruct (Nat.ltb_spec lvl 127).
      * replace (127 - S lvl)%nat with (126 - lvl)%nat by lia. lia.
      * destruct Hinv as [_ Hbound _ _ _]. unfold MaxInt8 in Hbound. lia.
    + auto.
Qed.

End SearchInvariant.

(** ** The loop of the search *)

Section SearchLoop.

Variable env : Env.

Lemma expand_inv b pos g displacer decay first node lvl q paths :
  SearchInv lvl q paths -> links node = lvl -> (lvl <= 127)%nat ->
  exists q' paths',
    expand env b pos g displacer decay first node (Going q paths) = Going q' paths'
    /\ SearchInv lvl q' paths'
    /\ (measure q' <= measure q + 4 * childWeight lvl)%nat
    /\ (paths <> [] -> paths' <> []).
Proof.
  intros Hinv Hl Hlvl. unfold expand, neighbours.
  destruct (visit_inv env b pos g displacer first
              (mkNode (int (node_x node - 1)) (node_z node)
                 (int8 (node_depth node - int8 (decay * 2))) (Some node))
              lvl q paths Hinv) as (qa & pa & -> & Ha & Hma & Hna);
    [cbn; congruence|exact Hlvl|].
  destruct (visit_inv env b pos g displacer first
              (mkNode (int (node_x node + 1)) (node_z node)
                 (int8 (node_depth node - int8 (decay * 2))) (Some node))
              lvl qa pa Ha) as (qb & pb & -> & Hb & Hmb & Hnb);
    [cbn; congruence|exact Hlvl|].
  destruct (visit_inv env b pos g displacer first
              (mkNode (node_x node) (int (node_z node - 1))
                 (int8 (node_depth node - int8 (decay * 2))) (Some node))
              lvl qb pb Hb) as (qc & pc & -> & Hc & Hmc & Hnc);
    [cbn; congruence|exact Hlvl|].
  destruct (visit_inv env b pos g displacer first
              (mkNode (node_x node) (int (node_z node + 1))
                 (int8 (node_depth node - int8 (decay * 2))) (Some node))
              lvl qc pc Hc) as (qd & pd & -> & Hd & Hmd & Hnd);
    [cbn; congruence|exact Hlvl|].
  exists qd, pd. split; [reflexivity|]. split; [exact Hd|]. split; [lia|auto].
Qed.

(** Taking the front node keeps the invariant, at the level of that node. *)
Lemma Front_inv lvl q paths :
  SearchInv lvl q paths -> QLen q <> 0 ->
  exists n q1 lvl',
    Front q = Some (n, q1)
    /\ links n = lvl' /\ (lvl' <= 127)%nat
    /\ SearchInv lvl' q1 paths
    /\ measure q = (weight n + measure q1)%nat.
Proof.
  intros Hinv Hlen.
  destruct Hinv as [Hcur Hbound (front & back & Hp & Hf & Hb) Hpend Hpaths].
  destruct (Front_pending q Hcur Hlen) as (n & q1 & HF & Hpq & Hn & Hi & Hs).
  exists n, q1, (links n). split; [exact HF|]. split; [reflexivity|].
  rewrite Hpq in Hpend. inversion Hpend as [|? ? Hnle Hrest]; subst.
  split; [unfold MaxInt8 in Hbound; lia|].
  assert (Hlev : (links n = lvl \/ links n = S lvl)
                 /\ exists front1 back1,
                      pending q1 = front1 ++ back1
                      /\ Forall (fun m => links m = links n) front1
                      /\ Forall (fun m => links m = S (links n)) back1).
  { rewrite Hpq in Hp. destruct front as [|a front'].
    - simpl in Hp. subst back. inversion Hb as [|? ? Hc Hb']; subst.
      split; [now right|]. exists (pending q1), []. rewrite app_nil_r.
      split; [reflexivity|]. split; [|constructor].
      rewrite Hc. exact Hb'.
    - simpl in Hp. injection Hp as Ha Hrest'. subst a.
      inversion Hf as [|? ? Ha Hf']; subst.
      split; [now left|]. exists front', back. auto. }
  destruct Hlev as (Hor & Hlev). split.
  - constructor; rewrite ?Hn, ?Hi, ?Hs; auto.
    + unfold QLen in Hlen. lia.
    + intros Hne. destruct (Hpaths Hne) as [Hall Hsp]. split; [exact Hall|]. lia.
  - unfold measure. rewrite Hpq. reflexivity.
Qed.

Lemma weight_covers_children (n : liquidNode) :
  (links n <= 127)%nat -> (4 * childWeight (links n) + 1 <= weight n)%nat.
Proof.
  intros H. unfold childWeight, weight.
  destruct (Nat.ltb_spec (links n) 127).
  - replace (127 - links n)%nat with (S (126 - links n)) by lia.
    rewrite budget_succ. lia.
  - pose proof (budget_pos (127 - links n)). lia.
Qed.

(** The loop ends in a state of the invariant with nothing pending: it does
    not stop on a run-time panic. *)
Lemma searchLoop_inv b pos g displacer decay (fuel : nat) :
  forall first lvl q paths r,
    SearchInv lvl q paths ->
    searchLoop env fuel b pos g displacer decay first q paths = Some r ->
    exists lvl' q' paths',
      r = Going q' paths' /\ SearchInv lvl' q' paths' /\ pending q' = []
      /\ (paths <> [] -> paths' <> []).
Proof.
  induction fuel as [|fuel IH]; intros first lvl q paths r Hinv Hr.
  - cbn [searchLoop] in Hr. destruct (QLen q =? 0) eqn:Hq; [|discriminate].
    inversion Hr; subst. exists lvl, q, paths. split; [reflexivity|].
    split; [exact Hinv|]. split; [|auto].
    apply QLen_zero_pending; [apply Hinv|]. apply Z.eqb_eq. exact Hq.
  - cbn [searchLoop] in Hr. destruct (QLen q =? 0) eqn:Hq.
    + inversion Hr; subst. exists lvl, q, paths. split; [reflexivity|].
      split; [exact Hinv|]. split; [|auto].
      apply QLen_zero_pending; [apply Hinv|]. apply Z.eqb_eq. exact Hq.
    + apply Z.eqb_neq in Hq.
      destruct (Front_inv lvl q paths Hinv Hq) as (n & q1 & lvl' & HF & Hl & Hle & Hinv1 & _).
      rewrite HF in Hr.
      destruct (expand_inv b pos g displacer decay first n lvl' q1 paths Hinv1 Hl Hle)
        as (q2 & paths2 & He & Hinv2 & _ & Hne).
      rewrite He in Hr.
      destruct (IH false lvl' q2 paths2 r Hinv2 Hr) as (l3 & q3 & p3 & -> & H3 & Hp3 & Hne3).
      exists l3, q3, p3. split; [reflexivity|]. split; [exact H3|]. split; [exact Hp3|].
      intros Hx. apply Hne3, Hne, Hx.
Qed.

(** With as much fuel as the measure of the queue, the loop ends. *)
Lemma searchLoop_terminates b pos g displacer decay (fuel : nat) :
  forall first lvl q paths,
    SearchInv lvl q paths -> (measure q <= fuel)%nat ->
    exists r, searchLoop env fuel b pos g displacer decay first q paths = Some r.
Proof.
  induction fuel as [|fuel IH]; intros first lvl q paths Hinv Hm.
  - cbn [searchLoop]. destruct (QLen q =? 0) eqn:Hq; [eauto|].
    apply Z.eqb_neq in Hq.
    destruct (Front_inv lvl q paths Hinv Hq) as (n & q1 & lvl' & _ & _ & _ & _ & Hmq).
    pose proof (budget_pos (127 - links n)). unfold weight in Hmq. lia.
  - cbn [searchLoop]. destruct (QLen q =? 0) eqn:Hq; [eauto|].
    apply Z.eqb_neq in Hq.
    destruct (Front_inv lvl q paths Hinv Hq) as (n & q1 & lvl' & -> & Hl & Hle & Hinv1 & Hmq).
    destruct (expand_inv b pos g displacer decay first n lvl' q1 paths Hinv1 Hl Hle)
      as (q2 & paths2 & -> & Hinv2 & Hm2 & _).
    apply (IH false lvl' q2 paths2 Hinv2).
    subst lvl'. pose proof (weight_covers_children n Hle). lia.
Qed.

(** The queue a search starts from: a queue of the pool with the node of
    the source pushed. *)
Lemma SearchInv_start q (seed : liquidNode) :
  isReset q -> links seed = O ->
  SearchInv 0 (PushBack env q seed) [] /\ measure (PushBack env q seed) = budget 127.
Proof.
  intros (Hn & Hi & Hs) Hl. split.
  - constructor; cbn [PushBack nodes qi shortestPath]; rewrite ?Hn, ?Hi, ?Hs.
    + simpl. lia.
    + lia.
    + exists [seed], []. unfold pending. cbn [PushBack nodes qi]. rewrite Hn, Hi.
      split; [reflexivity|]. split; constructor; auto.
    + unfold pending. cbn [PushBack nodes qi]. rewrite Hn, Hi. simpl.
      constructor; [|constructor]. rewrite Hl. unfold MaxInt8. simpl. lia.
    + intros H. now contradiction H.
  - unfold measure, pending. cbn [PushBack nodes qi]. rewrite Hn, Hi.
    cbn [app Z.to_nat skipn fold_right]. unfold weight. rewrite Hl, Nat.sub_0_r.
    apply Nat.add_0_r.
Qed.

End SearchLoop.

(** ** Results of calculateLiquidPaths *)

Section SearchResults.

Variable env : Env.

Lemma newQueue_isReset : isReset newQueue.
Proof. repeat split. Qed.

Lemma Reset_isReset (q : liquidQueue) : isReset (Reset q).
Proof. repeat split. Qed.

Lemma poolGet_isReset (p : list liquidQueue) :
  Forall isReset p -> isReset (fst (poolGet p)) /\ Forall isReset (snd (poolGet p)).
Proof.
  intros H. destruct p as [|q rest]; simpl.
  - split; [apply newQueue_isReset|constructor].
  - inversion H; subst. split; assumption.
Qed.

(** A search from a queue of the pool ends, when it ends, with paths of one
    length, which is at least 1; it does not panic. *)
Lemma searchFrom_result fuel b pos g displacer q0 r :
  isReset q0 ->
  searchFrom env fuel b pos g displacer q0 = Some r ->
  exists q paths L,
    r = Going q paths /\ Forall (fun p : liquidPath => length p = S L) paths.
Proof.
  intros Hq Hr. unfold searchFrom in Hr.
  destruct (SearchInv_start env q0 (mkNode (px pos) (pz pos) (int8 (LiquidDepth b)) None) Hq)
    as [Hinv _]; [reflexivity|].
  destruct (searchLoop_inv env b pos g displacer _ fuel true 0%nat _ [] r Hinv Hr)
    as (lvl & q & paths & -> & Hinv' & _ & _).
  exists q, paths, (Z.to_nat (shortestPath q) - 1)%nat. split; [reflexivity|].
  destruct paths as [|p ps]; [constructor|].
  destruct (inv_paths _ _ _ Hinv') as [Hall Hsp]; [discriminate|].
  eapply Forall_impl; [|exact Hall]. cbn beta. intros a Ha. lia.
Qed.

Lemma searchFrom_terminates fuel b pos g displacer q0 :
  isReset q0 -> (budget 127 <= fuel)%nat ->
  exists r, searchFrom env fuel b pos g displacer q0 = Some r.
Proof.
  intros Hq Hfuel. unfold searchFrom.
  destruct (SearchInv_start env q0 (mkNode (px pos) (pz pos) (int8 (LiquidDepth b)) None) Hq)
    as [Hinv Hm]; [reflexivity|].
  eapply searchLoop_terminates; [exact Hinv|]. rewrite Hm. exact Hfuel.
Qed.

(** calculateLiquidPaths reads the grid and leaves it and the log as they
    are; the pool stays made of reset queues. *)
Lemma calculateLiquidPaths_ok fuel b pos displacer st :
  poolReset st ->
  match calculateLiquidPaths env fuel b pos displacer st with
  | Ok paths st' =>
      grid st' = grid st /\ log st' = log st /\ poolReset st'
      /\ exists L, Forall (fun p : liquidPath => length p = S L) paths
  | Panic _ _ => False
  | OutOfFuel => True
  end.
Proof.
  intros Hpool. unfold calculateLiquidPaths.
  destruct (poolGet_isReset (pool st) Hpool) as [Hq Hrest].
  destruct (poolGet (pool st)) as [q0 rest]. cbn [fst snd] in *.
  destruct (searchFrom env fuel b pos (grid st) displacer q0) as [r|] eqn:Hr; [|exact I].
  destruct (searchFrom_result fuel b pos (grid st) displacer q0 r Hq Hr)
    as (q & paths & L & -> & Hall).
  cbn [grid log pool]. repeat split.
  - unfold poolReset, poolPut. cbn [pool]. constructor; [apply Reset_isReset|exact Hrest].
  - exists L. exact Hall.
Qed.

Lemma calculateLiquidPaths_terminates fuel b pos displacer st :
  poolReset st -> (budget 127 <= fuel)%nat ->
  exists paths st', calculateLiquidPaths env fuel b pos displacer st = Ok paths st'.
Proof.
  intros Hpool Hfuel.
  pose proof (calculateLiquidPaths_ok fuel b pos displacer st Hpool) as Hok.
  unfold calculateLiquidPaths in *.
  destruct (poolGet_isReset (pool st) Hpool) as [Hq _].
  destruct (poolGet (pool st)) as [q0 rest]. cbn [fst] in Hq.
  destruct (searchFrom_terminates fuel b pos (grid st) displacer q0 Hq Hfuel) as (r & Hr).
  rewrite Hr in *. destruct r as [q paths|f q]; [eauto|contradiction].
Qed.

End SearchResults.

(** ** Effects of the computations *)

Section Effects.

Variable env : Env.

Lemma produces_ret {A : Type} (P : Effect -> Prop) (a : A) : produces P (ret a).
Proof.
  intros st. unfold ret. split; [reflexivity|].
  exists []. rewrite app_nil_r. split; [reflexivity|constructor].
Qed.

Lemma produces_panic {A : Type} (P : Effect -> Prop) (f : Fatal) :
  produces P (@panic A f).
Proof.
  intros st. unfold panic. split; [reflexivity|].
  exists []. rewrite app_nil_r. split; [reflexivity|constructor].
Qed.

Lemma produces_bind {A B : Type} (P : Effect -> Prop) (c : M A) (k : A -> M B) :
  produces P c -> (forall a, produces P (k a)) -> produces P (bind c k).
Proof.
  intros Hc Hk st. unfold bind. specialize (Hc st).
  destruct (c st) as [a st1|f st1|]; [|exact Hc|exact I].
  destruct Hc as (Hp1 & es1 & Hl1 & Hf1).
  specialize (Hk a st1). destruct (k a st1) as [r st2|f st2|]; [| |exact I].
  - destruct Hk as (Hp2 & es2 & Hl2 & Hf2). split; [congruence|].
    exists (es1 ++ es2). rewrite Hl2, Hl1, app_assoc. split; [reflexivity|].
    apply Forall_app; auto.
  - destruct Hk as (Hp2 & es2 & Hl2 & Hf2). split; [congruence|].
    exists (es1 ++ es2). rewrite Hl2, Hl1, app_assoc. split; [reflexivity|].
    apply Forall_app; auto.
Qed.

Lemma produces_forEach {A : Type} (P : Effect -> Prop) (f : A -> M unit) (l : list A) :
  (forall a, In a l -> produces P (f a)) -> produces P (forEach f l).
Proof.
  induction l as [|a l IH]; intros H; cbn [forEach].
  - apply produces_ret.
  - apply produces_bind.
    + apply H. now left.
    + intros _. apply IH. intros a' Ha'. apply H. now right.
Qed.

Lemma produces_weaken {A : Type} (P Q : Effect -> Prop) (c : M A) :
  (forall e, P e -> Q e) -> produces P c -> produces Q c.
Proof.
  intros HPQ Hc st. specialize (Hc st).
  destruct (c st) as [a st1|f st1|]; auto.
  - destruct Hc as (Hp & es & Hl & Hf). split; [exact Hp|].
    exists es. split; [exact Hl|]. eapply Forall_impl; eauto.
  - destruct Hc as (Hp & es & Hl & Hf). split; [exact Hp|].
    exists es. split; [exact Hl|]. eapply Forall_impl; eauto.
Qed.

Lemma produces_one (P : Effect -> Prop) (e : Effect) (c : M unit) :
  P e ->
  (forall st, exists g, c st = Ok tt {| grid := g; log := log st ++ [e]; pool := pool st |}) ->
  produces P c.
Proof.
  intros HP Hc st. destruct (Hc st) as (g & ->). cbn [pool log].
  split; [reflexivity|]. exists [e]. split; [reflexivity|]. constructor; [exact HP|constructor].
Qed.

Lemma produces_written {A : Type} (P : Effect -> Prop) (c : M A) (st : State) :
  produces P c -> Forall P (written st (c st)).
Proof.
  intros Hc. specialize (Hc st). unfold written.
  destruct (c st) as [a st1|f st1|]; [| |constructor].
  - destruct Hc as (_ & es & -> & Hf). now rewrite skipn_length_app.
  - destruct Hc as (_ & es & -> & Hf). now rewrite skipn_length_app.
Qed.

Lemma panicsOnly_ret {A : Type} (P : Fatal -> Prop) (a : A) : panicsOnly P (ret a).
Proof. intros st f st' H. discriminate. Qed.

Lemma panicsOnly_bind {A B : Type} (P : Fatal -> Prop) (c : M A) (k : A -> M B) :
  panicsOnly P c -> (forall a, panicsOnly P (k a)) -> panicsOnly P (bind c k).
Proof.
  intros Hc Hk st f st' H. unfold bind in H.
  destruct (c st) as [a st1|f1 st1|] eqn:E; [|inversion H; subst; eauto|discriminate].
  eapply Hk; eauto.
Qed.

Lemma panicsOnly_forEach {A : Type} (P : Fatal -> Prop) (f : A -> M unit) (l : list A) :
  (forall a, In a l -> panicsOnly P (f a)) -> panicsOnly P (forEach f l).
Proof.
  induction l as [|a l IH]; intros H; cbn [forEach].
  - apply panicsOnly_ret.
  - apply panicsOnly_bind.
    + apply H. now left.
    + intros _. apply IH. intros a' Ha'. apply H. now right.
Qed.

Lemma produces_dropItems (P : Effect -> Prop) (pos : Pos) (drops : list Item) :
  (forall d, P (EDropItem d pos)) ->
  produces P (forEach (fun d => dropItem d pos) drops).
Proof.
  intros HP. apply produces_forEach. intros d _.
  apply (produces_one P (EDropItem d pos)); [apply HP|].
  intros st. eexists. reflexivity.
Qed.

(** flowInto adds to the log only what [flowWrite] allows and leaves the
    pool alone. *)
Lemma flowInto_produces b src pos falling :
  produces (flowWrite b pos falling) (flowInto env b src pos falling).
Proof.
  unfold flowInto. fold (newDepthOf b falling).
  destruct ((newDepthOf b falling <=? 0) && negb falling) eqn:Hrej.
  { apply produces_ret. }
  pose proof (newDepthOf_check _ _ Hrej) as Hok.
  assert (HW : flowWrite b pos falling
                 (ESetLiquid pos (Some (WithDepth b (newDepthOf b falling) falling))))
    by (cbn; auto).
  assert (HS : produces (flowWrite b pos falling)
                 (SetLiquid pos (Some (WithDepth b (newDepthOf b falling) falling)))).
  { apply (produces_one _ _ _ HW). intros st. eexists. reflexivity. }
  apply produces_bind.
  { intros st. unfold getGrid. split; [reflexivity|].
    exists []. rewrite app_nil_r. split; [reflexivity|constructor]. }
  intros g.
  destruct (as_Liquid (blockAt g pos)) as [existingLiquid|].
  - destruct (String.eqb _ _).
    + destruct (_ || _); [apply produces_ret|].
      destruct (HandleLiquidFlow _ _ _ _ _); [apply produces_ret|].
      apply produces_bind; [exact HS|]. intros _. apply produces_ret.
    + apply produces_bind; [|intros _; apply produces_ret].
      apply (produces_one _ (EHarden existingLiquid pos src)); [exact I|].
      intros st. eexists. reflexivity.
  - destruct (isSome (as_LiquidDisplacer (blockAt g pos)) && isSome (liquidAt g pos));
      [apply produces_ret|].
    destruct (negb (isSome (as_LiquidRemovable (blockAt g pos))) && _);
      [apply produces_ret|].
    destruct (HandleLiquidFlow _ _ _ _ _); [apply produces_ret|].
    apply produces_bind; [|intros _; apply produces_bind; [exact HS|intros _; apply produces_ret]].
    destruct (as_LiquidRemovable (blockAt g pos)) as [hasDrops|]; [|apply produces_ret].
    apply produces_bind.
    + destruct (negb (is_Air (blockAt g pos))); [|apply produces_ret].
      apply (produces_one _ (ESetBlock pos None)); [exact I|].
      intros st. eexists. reflexivity.
    + intros _. destruct hasDrops; [|apply produces_ret].
      destruct (as_Breakable (blockAt g pos)); [|apply produces_panic].
      apply produces_dropItems. intros d. exact I.
Qed.

(** flowInto panics with nothing but the panic of its source. *)
Lemma flowInto_panicsOnly b src pos falling :
  panicsOnly (fun f => f = LiquidDropsNotBreakable) (flowInto env b src pos falling).
Proof.
  unfold flowInto.
  destruct (_ && negb falling); [apply panicsOnly_ret|].
  apply panicsOnly_bind; [intros st f st' H; discriminate|]. intros g.
  assert (HS : forall l, panicsOnly (fun f => f = LiquidDropsNotBreakable) (SetLiquid pos l))
    by (intros l st f st' H; discriminate).
  destruct (as_Liquid (blockAt g pos)) as [existingLiquid|].
  - destruct (String.eqb _ _).
    + destruct (_ || _); [apply panicsOnly_ret|].
      destruct (HandleLiquidFlow _ _ _ _ _); [apply panicsOnly_ret|].
      apply panicsOnly_bind; [apply HS|]. intros _. apply panicsOnly_ret.
    + apply panicsOnly_bind; [intros st f st' H; discriminate|].
      intros _. apply panicsOnly_ret.
  - destruct (isSome (as_LiquidDisplacer (blockAt g pos)) && isSome (liquidAt g pos));
      [apply panicsOnly_ret|].
    destruct (negb (isSome (as_LiquidRemovable (blockAt g pos))) && _);
      [apply panicsOnly_ret|].
    destruct (HandleLiquidFlow _ _ _ _ _); [apply panicsOnly_ret|].
    apply panicsOnly_bind;
      [|intros _; apply panicsOnly_bind; [apply HS|intros _; apply panicsOnly_ret]].
    destruct (as_LiquidRemovable (blockAt g pos)) as [hasDrops|]; [|apply panicsOnly_ret].
    apply panicsOnly_bind.
    + destruct (negb (is_Air (blockAt g pos))); [|apply panicsOnly_ret].
      intros st f st' H; discriminate.
    + intros _. destruct hasDrops; [|apply panicsOnly_ret].
      destruct (as_Breakable (blockAt g pos)).
      * apply panicsOnly_forEach. intros d _ st f st' H. discriminate.
      * intros st f st' H. unfold panic in H. now inversion H.
Qed.

End Effects.

(** ** The loops of the tick *)

Section TickLoops.

Variable env : Env.

Lemma int_succ_neq (y : Z) : int (y + 1) <> y.
Proof.
  unfold int, wrap. change (2 ^ (64 - 1)) with 9223372036854775808.
  change (2 ^ 64) with 18446744073709551616.
  pose proof (Z.div_mod (y + 1 + 9223372036854775808) 18446744073709551616).
  pose proof (Z.mod_pos_bound (y + 1 + 9223372036854775808) 18446744073709551616).
  lia.
Qed.

Lemma int_pred_neq (y : Z) : int (y - 1) <> y.
Proof.
  unfold int, wrap. change (2 ^ (64 - 1)) with 9223372036854775808.
  change (2 ^ 64) with 18446744073709551616.
  pose proof (Z.div_mod (y - 1 + 9223372036854775808) 18446744073709551616).
  pose proof (Z.mod_pos_bound (y - 1 + 9223372036854775808) 18446744073709551616).
  lia.
Qed.

Lemma forEach_filter {A : Type} (f g : A -> M unit) (keep : A -> bool) (l : list A) :
  (forall a st, f a st = if keep a then g a st else Ok tt st) ->
  forall st, forEach f l st = forEach g (filter keep l) st.
Proof.
  intros Hf. induction l as [|a l IH]; intros st; cbn [forEach filter]; [reflexivity|].
  unfold bind at 1. rewrite Hf. destruct (keep a).
  - cbn [forEach]. unfold bind at 1. destruct (g a st); auto.
  - apply IH.
Qed.

(** Inside the vertical extent, spreadOutwards is one flow step into each of
    the four horizontal neighbours whose side the displacer leaves open. *)
Lemma spreadOutwards_steps b pos displacer st :
  fst (Range env) <= py pos <= snd (Range env) ->
  spreadOutwards env b pos displacer st
  = flowSteps env b pos (filter (sideOpen displacer pos) (horizontalNeighbours pos)) st.
Proof.
  intros Hr. unfold spreadOutwards, flowSteps.
  rewrite (forEach_filter _ (fun t => flowInto env b pos t false;;; ret tt)
             (fun n => (py n =? py pos) && sideOpen displacer pos n)).
  2:{ intros a st'. destruct (py a =? py pos); [|reflexivity].
      destruct (sideOpen displacer pos a); reflexivity. }
  f_equal. unfold Neighbours, horizontalNeighbours.
  replace ((py pos <? fst (Range env)) || (py pos >? snd (Range env))) with false.
  2:{ symmetry. apply orb_false_iff. split; [apply Z.ltb_ge; lia|].
      rewrite Z.gtb_ltb. apply Z.ltb_ge. lia. }
  assert (Hup : (int (py pos + 1) =? py pos) = false)
    by (apply Z.eqb_neq, int_succ_neq).
  assert (Hdown : (int (py pos - 1) =? py pos) = false)
    by (apply Z.eqb_neq, int_pred_neq).
  destruct (int (py pos + 1) <=? snd (Range env)), (int (py pos - 1) >=? fst (Range env));
    cbn [app filter py px pz fst snd]; rewrite ?Hup, ?Hdown, ?Z.eqb_refl;
    cbn [andb]; reflexivity.
Qed.

(** The lengths of the paths of a search and the tie-break. *)
Lemma minLength_same (L : nat) (paths : list liquidPath) :
  Forall (fun p : liquidPath => length p = S L) paths -> paths <> [] ->
  minLength paths = S L.
Proof.
  intros H Hne. destruct paths as [|p rest]; [contradiction|].
  inversion H as [|? ? Hp Hrest]; subst. cbn [minLength]. rewrite Hp.
  clear -Hrest. induction rest as [|q rest IH]; cbn [fold_right]; [reflexivity|].
  inversion Hrest as [|? ? Hq Hrest']; subst. rewrite IH by assumption. rewrite Hq. lia.
Qed.

Lemma minimalPaths_same (L : nat) (paths : list liquidPath) :
  Forall (fun p : liquidPath => length p = S L) paths -> minimalPaths paths = paths.
Proof.
  intros H. destruct paths as [|p0 rest]; [reflexivity|].
  unfold minimalPaths. rewrite (minLength_same L) by (auto; discriminate).
  induction H as [|p l Hp Hl IH]; cbn [filter]; [reflexivity|].
  rewrite Hp, Nat.eqb_refl. f_equal. exact IH.
Qed.

Lemma flowPaths_same (L : nat) b pos (paths : list liquidPath) st :
  Forall (fun p : liquidPath => length p = S L) paths ->
  flowPaths env b pos (S L) paths st = flowSteps env b pos (firstSteps paths) st.
Proof.
  intros H. revert st. unfold flowPaths, flowSteps.
  induction H as [|p l Hp Hl IH]; intros st; [reflexivity|].
  destruct p as [|s p']; [discriminate|].
  cbn [forEach firstSteps flat_map app]. rewrite Hp, Nat.leb_refl.
  unfold bind at 1. unfold bind at 3. destruct ((flowInto env b pos s false;;; ret tt) st); auto.
Qed.

Lemma flowPaths_panicsOnly (L : nat) b pos (paths : list liquidPath) :
  Forall (fun p : liquidPath => length p = S L) paths ->
  panicsOnly (fun f => f = LiquidDropsNotBreakable) (flowPaths env b pos (S L) paths).
Proof.
  intros H st. rewrite (flowPaths_same L b pos paths st H). revert st.
  apply panicsOnly_forEach. intros t _.
  apply panicsOnly_bind; [apply flowInto_panicsOnly|]. intros _. apply panicsOnly_ret.
Qed.

End TickLoops.

(** ** The branches of tickLiquid *)

Section TickBranches.

Variable env : Env.

Lemma tickLiquid_decay fuel b pos st :
  source b = false -> sourceAround env b pos (grid st) = false ->
  tickLiquid env fuel b pos st = decay env b pos st.
Proof. intros Hs Ha. unfold tickLiquid. rewrite Hs, Ha. reflexivity. Qed.

Lemma tickLiquid_sustained fuel b pos st :
  source b || sourceAround env b pos (grid st) = true ->
  tickLiquid env fuel b pos st
  = (b' <- flowDown env b pos (as_LiquidDisplacer (blockAt (grid st) pos))
             (canFlowInto b (grid st) (SideDown pos) false) ;;
     spread env fuel b' pos (as_LiquidDisplacer (blockAt (grid st) pos))
       (canFlowInto b (grid st) (SideDown pos) false)) st.
Proof.
  intros H. unfold tickLiquid.
  replace (negb (source b) && negb (sourceAround env b pos (grid st))) with false;
    [reflexivity|].
  destruct (source b), (sourceAround env b pos (grid st)); simpl in *; congruence.
Qed.

(** The horizontal spread when the search found paths. *)
Lemma spread_paths fuel b pos displacer canFlowBelow st paths st1 :
  poolReset st ->
  SpreadDecay b < LiquidDepth b ->
  source b || negb canFlowBelow = true ->
  calculateLiquidPaths env fuel b pos displacer st = Ok paths st1 ->
  paths <> [] ->
  spread env fuel b pos displacer canFlowBelow st
  = flowSteps env b pos (firstSteps (minimalPaths paths)) st1.
Proof.
  intros Hpool Hd Hg Hc Hne. unfold spread.
  replace (LiquidDepth b <=? SpreadDecay b) with false by (symmetry; apply Z.leb_gt; lia).
  rewrite Hg. unfold bind. rewrite Hc.
  pose proof (calculateLiquidPaths_ok env fuel b pos displacer st Hpool) as Hok.
  rewrite Hc in Hok. destruct Hok as (_ & _ & _ & L & Hall).
  destruct paths as [|path0 rest]; [contradiction|].
  rewrite (minimalPaths_same L) by exact Hall.
  inversion Hall as [|? ? H0 _]; subst. rewrite H0.
  apply flowPaths_same. exact Hall.
Qed.

(** The horizontal spread when the search found no path. *)
Lemma spread_no_paths fuel b pos displacer canFlowBelow st st1 :
  fst (Range env) <= py pos <= snd (Range env) ->
  SpreadDecay b < LiquidDepth b ->
  source b || negb canFlowBelow = true ->
  calculateLiquidPaths env fuel b pos displacer st = Ok [] st1 ->
  spread env fuel b pos displacer canFlowBelow st
  = flowSteps env b pos (filter (sideOpen displacer pos) (horizontalNeighbours pos)) st1.
Proof.
  intros Hr Hd Hg Hc. unfold spread.
  replace (LiquidDepth b <=? SpreadDecay b) with false by (symmetry; apply Z.leb_gt; lia).
  rewrite Hg. unfold bind. rewrite Hc.
  apply spreadOutwards_steps. exact Hr.
Qed.

(** What the horizontal flow steps into [targets] may write. *)
Lemma flowSteps_produces b pos (targets : list Pos) :
  produces (fun e => match e with
                     | ESetLiquid p l =>
                         In p targets
                         /\ l = Some (WithDepth b (int (LiquidDepth b - SpreadDecay b)) false)
                         /\ 0 < int (LiquidDepth b - SpreadDecay b)
                     | _ => True
                     end)
           (flowSteps env b pos targets).
Proof.
  unfold flowSteps. apply produces_forEach. intros t Ht.
  apply produces_bind; [|intros _; apply produces_ret].
  eapply produces_weaken; [|apply flowInto_produces].
  intros [p l| | |]; cbn; auto.
  intros (-> & -> & [Hf|Hpos]); [discriminate|]. auto.
Qed.

(** What the vertical flow may write: the full-depth falling liquid, into
    the cell below. *)
Lemma flowDown_produces b pos displacer canFlowBelow :
  produces (fun e => match e with
                     | ESetLiquid p l => p = SideDown pos /\ l = Some (WithDepth b 8 true)
                     | _ => True
                     end)
           (flowDown env b pos displacer canFlowBelow).
Proof.
  unfold flowDown.
  destruct (LiquidFalling b && negb canFlowBelow); [apply produces_ret|].
  destruct canFlowBelow; [|apply produces_ret].
  destruct (sideOpen displacer pos (SideDown pos)); [|apply produces_ret].
  apply produces_bind; [|intros _; apply produces_ret].
  eapply produces_weaken; [|apply flowInto_produces].
  intros [p l| | |]; cbn; auto.
  intros (-> & -> & _). auto.
Qed.

(** The tick panics with nothing but the panic of flowInto. *)
Lemma tickLiquid_panic fuel b pos st f st' :
  poolReset st ->
  tickLiquid env fuel b pos st = Panic f st' -> f = LiquidDropsNotBreakable.
Proof.
  intros Hpool H. unfold tickLiquid in H.
  destruct (negb (source b) && negb (sourceAround env b pos (grid st))).
  { unfold decay in H. destruct (HandleLiquidDecay _ _ _ _); discriminate. }
  unfold bind in H.
  pose proof (flowDown_produces b pos (as_LiquidDisplacer (blockAt (grid st) pos))
                (canFlowInto b (grid st) (SideDown pos) false) st) as Hprod.
  destruct (flowDown env b pos _ _ st) as [b' st0|f0 st0|] eqn:Hdown; [| |discriminate].
  2:{ inversion H; subst. revert Hdown. unfold flowDown.
      destruct (_ && _); [discriminate|].
      destruct (canFlowInto _ _ _ _); [|discriminate].
      destruct (sideOpen _ _ _); [|discriminate].
      unfold bind.
      destruct (flowInto env (WithDepth b 8 true) pos (SideDown pos) true st) eqn:E;
        try discriminate.
      intros Hx. inversion Hx; subst. eapply flowInto_panicsOnly. exact E. }
  destruct Hprod as (Hp0 & _).
  assert (Hpool0 : poolReset st0) by (unfold poolReset in *; congruence).
  unfold spread in H.
  destruct (LiquidDepth b' <=? SpreadDecay b'); [discriminate|].
  destruct (source b' || negb _); [|discriminate].
  unfold bind in H.
  pose proof (calculateLiquidPaths_ok env fuel b' pos
                (as_LiquidDisplacer (blockAt (grid st) pos)) st0 Hpool0) as Hok.
  destruct (calculateLiquidPaths env fuel b' pos _ st0) as [paths st1|f1 st1|];
    [|contradiction|discriminate].
  destruct Hok as (_ & _ & _ & L & Hall).
  destruct paths as [|path0 rest].
  - assert (Hpo : panicsOnly (fun f => f = LiquidDropsNotBreakable)
                    (spreadOutwards env b' pos (as_LiquidDisplacer (blockAt (grid st) pos)))).
    { unfold spreadOutwards. apply panicsOnly_forEach. intros n _.
      destruct (py n =? py pos); [|apply panicsOnly_ret].
      destruct (sideOpen _ pos n); [|apply panicsOnly_ret].
      apply panicsOnly_bind; [apply flowInto_panicsOnly|]. intros _. apply panicsOnly_ret. }
    exact (Hpo _ _ _ H).
  - inversion Hall as [|? ? H0 _]; subst. rewrite H0 in H.
    exact (flowPaths_panicsOnly env L b' pos _ Hall _ _ _ H).
Qed.

End TickBranches.

(** ** The search does not observe the capacity of its queue *)

Section Capacity.

Variable env : Env.

Lemma sameQueue_PushBack q q' n :
  sameQueue q q' -> sameQueue (PushBack env q n) (PushBack env q' n).
Proof.
  intros (Hn & Hi & Hs). unfold sameQueue, PushBack. cbn [nodes qi shortestPath].
  rewrite Hn. auto.
Qed.

Lemma spreadNeighbour_same b src g node q q' :
  sameQueue q q' ->
  fst (spreadNeighbour env b src g node q) = fst (spreadNeighbour env b src g node q')
  /\ sameQueue (snd (spreadNeighbour env b src g node q))
               (snd (spreadNeighbour env b src g node q')).
Proof.
  intros Hq. pose proof Hq as (Hn & Hi & Hs). unfold spreadNeighbour. rewrite Hs.
  destruct (int8 (node_depth node + 3) <=? 0); [auto|].
  destruct (Len node >? shortestPath q'); [auto|].
  destruct (negb (canFlowInto b g _ true)); [auto|].
  destruct (canFlowInto b g _ false); cbn [fst snd]; [auto|].
  split; [reflexivity|]. apply sameQueue_PushBack. exact Hq.
Qed.

Lemma visit_same b pos g displacer first neigh s s' :
  sameSearch s s' ->
  sameSearch (visit env b pos g displacer first neigh s)
             (visit env b pos g displacer first neigh s').
Proof.
  intros H. destruct s as [q paths|f q], s' as [q' paths'|f' q']; cbn [sameSearch] in H;
    try contradiction; [|exact H].
  destruct H as [Hq ->]. unfold visit.
  destruct (negb first || sideOpen displacer pos _); [|cbn; auto].
  destruct (spreadNeighbour_same b pos g neigh q q' Hq) as [Hf Hs].
  destruct (spreadNeighbour env b pos g neigh q) as [found q1].
  destruct (spreadNeighbour env b pos g neigh q') as [found' q1'].
  cbn [fst snd] in *. subst found'.
  destruct found; [|cbn; auto].
  assert (Hs' : sameQueue (setShortestPath q1 (Len neigh)) (setShortestPath q1' (Len neigh))).
  { destruct Hs as (Hn & Hi & _). unfold sameQueue. cbn. auto. }
  destruct (Path neigh pos); cbn; auto.
Qed.

Lemma expand_same b pos g displacer decay first node s s' :
  sameSearch s s' ->
  sameSearch (expand env b pos g displacer decay first node s)
             (expand env b pos g displacer decay first node s').
Proof.
  intros H. unfold expand, neighbours. repeat apply visit_same. exact H.
Qed.

Lemma Front_same q q' :
  sameQueue q q' ->
  match Front q, Front q' with
  | Some (n, q1), Some (n', q1') => n = n' /\ sameQueue q1 q1'
  | None, None => True
  | _, _ => False
  end.
Proof.
  intros (Hn & Hi & Hs). unfold Front. rewrite Hn, Hi.
  destruct (qi q' <? 0); [exact I|].
  destruct (nth_error (nodes q') (Z.to_nat (qi q'))); [|exact I].
  split; [reflexivity|]. unfold sameQueue. cbn. auto.
Qed.

Lemma searchLoop_same b pos g displacer decay (fuel : nat) :
  forall first q q' paths,
    sameQueue q q' ->
    sameResult (searchLoop env fuel b pos g displacer decay first q paths)
               (searchLoop env fuel b pos g displacer decay first q' paths).
Proof.
  induction fuel as [|fuel IH]; intros first q q' paths Hq.
  - cbn [searchLoop]. unfold QLen. destruct Hq as (Hn & Hi & Hs). rewrite Hn, Hi.
    destruct (_ =? 0); cbn; auto. repeat split; auto.
  - cbn [searchLoop].
    assert (HL : QLen q = QLen q').
    { unfold QLen. destruct Hq as (Hn & Hi & Hs). now rewrite Hn, Hi. }
    rewrite HL. destruct (QLen q' =? 0); [cbn; auto|].
    pose proof (Front_same q q' Hq) as HF.
    destruct (Front q) as [[n q1]|], (Front q') as [[n' q1']|]; try contradiction.
    + destruct HF as [-> Hq1].
      pose proof (expand_same b pos g displacer decay first n'
                    (Going q1 paths) (Going q1' paths)) as He.
      destruct (expand env b pos g displacer decay first n' (Going q1 paths)) as [q2 p2|f q2],
               (expand env b pos g displacer decay first n' (Going q1' paths)) as [q2' p2'|f' q2'];
        cbn [sameSearch] in He.
      * destruct He as [Hq2 ->]; [split; auto|]. apply IH. exact Hq2.
      * destruct He; split; auto.
      * destruct He; split; auto.
      * cbn. apply He. split; auto.
    + cbn. auto.
Qed.

Lemma searchFrom_same fuel b pos g displacer q q' :
  sameQueue q q' ->
  sameResult (searchFrom env fuel b pos g displacer q)
             (searchFrom env fuel b pos g displacer q').
Proof.
  intros H. unfold searchFrom. apply searchLoop_same. apply sameQueue_PushBack. exact H.
Qed.

End Capacity.

(** ** sourceAround *)

Section SourceAround.

Variable env : Env.

Lemma sourceAround_existsb b pos g :
  sourceAround env b pos g = existsb (feeds b pos g) (Neighbours pos (Range env)).
Proof.
  unfold sourceAround.
  assert (H : forall l acc,
             fold_left (fun sourcePresent neighbour =>
                          if feeds b pos g neighbour then true else sourcePresent) l acc
             = acc || existsb (feeds b pos g) l).
  { induction l as [|n l IH]; intros acc; cbn [fold_left existsb].
    - now rewrite orb_false_r.
    - rewrite IH. destruct (feeds b pos g n), acc; reflexivity. }
  rewrite H. reflexivity.
Qed.

Lemma feeds_true_iff b pos g neighbour :
  feeds b pos g neighbour = true <->
  py neighbour <> int (py pos - 1)
  /\ exists side,
       liquidAt g neighbour = Some side
       /\ LiquidType side = LiquidType b
       /\ (py neighbour = int (py pos + 1) \/ source side = true
           \/ LiquidDepth b < LiquidDepth side)
       /\ (forall d, as_LiquidDisplacer (blockAt g neighbour) = Some d ->
                     SideClosed d neighbour pos = false).
Proof.
  unfold feeds. destruct (Z.eqb_spec (py neighbour) (int (py pos - 1))) as [Hy|Hy].
  { split; [discriminate|]. intros [H _]. contradiction. }
  destruct (liquidAt g neighbour) as [side|].
  2:{ split; [discriminate|]. intros (_ & side & H & _). discriminate. }
  destruct (String.eqb_spec (LiquidType side) (LiquidType b)) as [Ht|Ht]; cbn [negb].
  2:{ split; [discriminate|]. intros (_ & side' & H & Ht' & _).
      inversion H; subst. contradiction. }
  destruct (as_LiquidDisplacer (blockAt g neighbour)) as [d|].
  - destruct (SideClosed d neighbour pos) eqn:Hc.
    + split; [discriminate|]. intros (_ & side' & _ & _ & _ & Hd).
      specialize (Hd d eq_refl). congruence.
    + rewrite !orb_true_iff, Z.eqb_eq, Z.gtb_ltb, Z.ltb_lt.
      split.
      * intros H. split; [exact Hy|]. exists side. repeat split; auto.
        -- tauto.
        -- intros d' Hd'. inversion Hd'; subst. exact Hc.
      * intros (_ & side' & H & _ & Hor & _). inversion H; subst. tauto.
  - rewrite !orb_true_iff, Z.eqb_eq, Z.gtb_ltb, Z.ltb_lt.
    split.
    + intros H. split; [exact Hy|]. exists side. repeat split; auto.
      * tauto.
      * intros d' Hd'. discriminate.
    + intros (_ & side' & H & _ & Hor & _). inversion H; subst. tauto.
Qed.

End SourceAround.

(** ** The outcomes of flowInto *)

Section FlowOutcomes.

Variable env : Env.

(** Every way a call of flowInto can end. *)
Lemma flowInto_cases b src pos falling st :
  let cand := WithDepth b (newDepthOf b falling) falling in
  let existing := blockAt (grid st) pos in
  let o := flowInto env b src pos falling st in
  o = Ok false st
  \/ (o = Ok true st /\ exists t, as_Liquid existing = Some t)
  \/ (exists t,
        as_Liquid existing = Some t /\ LiquidType t <> LiquidType b
        /\ o = Ok false {| grid := Harden env t pos src (grid st);
                           log := log st ++ [EHarden t pos src];
                           pool := pool st |})
  \/ (HandleLiquidFlow env src pos cand existing = false
      /\ exists st' es,
           o = Ok true st' /\ log st' = log st ++ es ++ [ESetLiquid pos (Some cand)])
  \/ (HandleLiquidFlow env src pos cand existing = false
      /\ as_LiquidRemovable existing = Some true /\ as_Breakable existing = None
      /\ exists st', o = Panic LiquidDropsNotBreakable st').
Proof.
  cbv zeta. set (o := flowInto env b src pos falling st).
  assert (Ho : o = flowInto env b src pos falling st) by reflexivity. clearbody o.
  unfold flowInto in Ho. fold (newDepthOf b falling) in Ho.
  destruct ((newDepthOf b falling <=? 0) && negb falling); [left; exact Ho|].
  unfold bind at 1 in Ho. unfold getGrid in Ho.
  destruct (as_Liquid (blockAt (grid st) pos)) as [t|] eqn:HL.
  - destruct (String.eqb_spec (LiquidType t) (LiquidType b)) as [Ht|Ht].
    + destruct (_ || _); [right; left; split; [exact Ho|eauto]|].
      destruct (HandleLiquidFlow env src pos _ _) eqn:Hh; [left; exact Ho|].
      right; right; right; left. split; [reflexivity|].
      eexists _, []. split; [exact Ho|]. reflexivity.
    + right; right; left. exists t. auto.
  - destruct (isSome (as_LiquidDisplacer (blockAt (grid st) pos))
              && isSome (liquidAt (grid st) pos)); [left; exact Ho|].
    destruct (negb (isSome (as_LiquidRemovable (blockAt (grid st) pos))) && _); [left; exact Ho|].
    destruct (HandleLiquidFlow env src pos _ _) eqn:Hh; [left; exact Ho|].
    destruct (as_LiquidRemovable (blockAt (grid st) pos)) as [[|]|] eqn:HR.
    + destruct (as_Breakable (blockAt (grid st) pos)) as [drops|] eqn:HB.
      * right; right; right; left. split; [reflexivity|].
        destruct (negb (is_Air (blockAt (grid st) pos)));
          unfold bind, ret, SetBlock, SetLiquid in Ho; rewrite forEach_dropItem in Ho;
          cbn [grid log pool] in Ho.
        -- eexists _, (ESetBlock pos None :: map (fun d => EDropItem d pos) drops).
           split; [exact Ho|]. cbn [log]. rewrite <- !app_assoc. reflexivity.
        -- eexists _, (map (fun d => EDropItem d pos) drops).
           split; [exact Ho|]. cbn [log]. rewrite <- !app_assoc. reflexivity.
      * right; right; right; right. repeat split; auto.
        destruct (negb (is_Air (blockAt (grid st) pos)));
          unfold bind, ret, SetBlock, panic in Ho; eexists; exact Ho.
    + right; right; right; left. split; [reflexivity|].
      destruct (negb (is_Air (blockAt (grid st) pos)));
        unfold bind, ret, SetBlock, SetLiquid in Ho; cbn [grid log pool] in Ho.
      * eexists _, [ESetBlock pos None]. split; [exact Ho|]. cbn [log].
        rewrite <- !app_assoc. reflexivity.
      * eexists _, []. split; [exact Ho|]. reflexivity.
    + right; right; right; left. split; [reflexivity|].
      unfold bind, ret, SetLiquid in Ho; cbn [grid log pool] in Ho.
      eexists _, []. split; [exact Ho|]. reflexivity.
Qed.

(** The panic of flowInto: the target is a block that declares liquid drops
    and is not breakable, and the flow was not cancelled. *)
Lemma flowInto_panics b src pos falling st :
  let cand := WithDepth b (newDepthOf b falling) falling in
  let existing := blockAt (grid st) pos in
  falling = true \/ 0 < newDepthOf b falling ->
  as_Liquid existing = None ->
  isSome (as_LiquidDisplacer existing) && isSome (liquidAt (grid st) pos) = false ->
  HandleLiquidFlow env src pos cand existing = false ->
  as_LiquidRemovable existing = Some true ->
  as_Breakable existing = None ->
  flowInto env b src pos falling st
  = Panic LiquidDropsNotBreakable
      (if negb (is_Air existing)
       then {| grid := gridSetBlock (grid st) pos None;
               log := log st ++ [ESetBlock pos None];
               pool := pool st |}
       else st).
Proof.
  cbv zeta. intros Hok HL HD Hh HR HB. unfold flowInto. fold (newDepthOf b falling).
  replace ((newDepthOf b falling <=? 0) && negb falling) with false.
  2:{ symmetry. destruct falling; [apply andb_false_r|].
      destruct Hok as [Hf|Hpos]; [discriminate|].
      rewrite andb_true_r. apply Z.leb_gt. exact Hpos. }
  unfold bind at 1. unfold getGrid. rewrite HL, HD, HR, Hh, HB. cbn [isSome negb andb].
  destruct (negb (is_Air (blockAt (grid st) pos))); reflexivity.
Qed.

End FlowOutcomes.

(** ** The vertical flow and the shortest length *)

Section VerticalFlow.

Variable env : Env.

(** The liquid the vertical flow hands to the rest of the tick. *)
Lemma flowDown_value b pos displacer canFlowBelow st b' st' :
  flowDown env b pos displacer canFlowBelow st = Ok b' st' ->
  b' = b \/ (LiquidFalling b = true /\ canFlowBelow = false /\ b' = WithDepth b 8 true).
Proof.
  unfold flowDown. destruct (LiquidFalling b), canFlowBelow; cbn [andb negb].
  - destruct (sideOpen displacer pos (SideDown pos)).
    + unfold bind, ret. destruct (flowInto env _ pos _ true st); intros H; inversion H; auto.
    + unfold ret. intros H; inversion H; auto.
  - unfold ret. intros H; inversion H; auto.
  - destruct (sideOpen displacer pos (SideDown pos)).
    + unfold bind, ret. destruct (flowInto env _ pos _ true st); intros H; inversion H; auto.
    + unfold ret. intros H; inversion H; auto.
  - unfold ret. intros H; inversion H; auto.
Qed.

Lemma flowDown_pool b pos displacer canFlowBelow st b' st' :
  flowDown env b pos displacer canFlowBelow st = Ok b' st' -> pool st' = pool st.
Proof.
  intros H. pose proof (flowDown_produces env b pos displacer canFlowBelow st) as Hp.
  rewrite H in Hp. apply Hp.
Qed.

Lemma minLength_le (paths : list liquidPath) (p : liquidPath) :
  In p paths -> (minLength paths <= length p)%nat.
Proof.
  destruct paths as [|p0 rest]; [contradiction|]. cbn [minLength].
  revert p. induction rest as [|q rest IH]; intros p Hin.
  - destruct Hin as [->|[]]. cbn. lia.
  - cbn [fold_right]. destruct Hin as [->|[->|Hin]].
    + specialize (IH p (or_introl eq_refl)). lia.
    + lia.
    + specialize (IH p (or_intror Hin)). lia.
Qed.

End VerticalFlow.

(** ** A source on the flat plane *)

Lemma flat_plane_floods_four_neighbours (l : Liquid) :
  l = water 8 false \/ l = lava 8 false ->
  exists st',
    tickLiquid sampleEnv 2000 l (0, 0, 0) (stateOf (planeWith l)) = Ok tt st'
    /\ log st'
       = [ESetLiquid (1, 0, 0) (Some (WithDepth l (8 - SpreadDecay l) false));
          ESetLiquid (-1, 0, 0) (Some (WithDepth l (8 - SpreadDecay l) false));
          ESetLiquid (0, 0, 1) (Some (WithDepth l (8 - SpreadDecay l) false));
          ESetLiquid (0, 0, -1) (Some (WithDepth l (8 - SpreadDecay l) false))]
    /\ (forall p, In p (horizontalNeighbours (0, 0, 0)) ->
                  liquidAt (grid st') p = Some (WithDepth l (8 - SpreadDecay l) false)).
Proof.
  intros Hl.
  assert (H : match tickLiquid sampleEnv 2000 l (0, 0, 0) (stateOf (planeWith l)) with
              | Ok _ s =>
                  log s
                  = [ESetLiquid (1, 0, 0) (Some (WithDepth l (8 - SpreadDecay l) false));
                     ESetLiquid (-1, 0, 0) (Some (WithDepth l (8 - SpreadDecay l) false));
                     ESetLiquid (0, 0, 1) (Some (WithDepth l (8 - SpreadDecay l) false));
                     ESetLiquid (0, 0, -1) (Some (WithDepth l (8 - SpreadDecay l) false))]
                  /\ forallb (fun p =>
                                match liquidAt (grid s) p with
                                | Some v => Liquid_eqb v (WithDepth l (8 - SpreadDecay l) false)
                                | None => false
                                end) (horizontalNeighbours (0, 0, 0)) = true
              | _ => False
              end).
  { destruct Hl as [->| ->]; vm_compute; split; reflexivity. }
  destruct (tickLiquid sampleEnv 2000 l (0, 0, 0) (stateOf (planeWith l))) as [[] st'|f st'|];
    try contradiction.
  destruct H as [Hlog Hall]. exists st'. split; [reflexivity|]. split; [exact Hlog|].
  intros p Hp. rewrite forallb_forall in Hall. specialize (Hall p Hp).
  destruct (liquidAt (grid st') p) as [v|]; [|discriminate].
  f_equal. unfold Liquid_eqb in Hall.
  rewrite !andb_true_iff in Hall. destruct Hall as [[[Ht Hd] Hf] Hs].
  apply String.eqb_eq in Ht. apply Z.eqb_eq in Hd. apply Bool.eqb_prop in Hf.
  apply Z.eqb_eq in Hs. destruct v; cbn in *. unfold WithDepth. cbn. congruence.
Qed.


(** ** The pool between ticks *)

Section PoolInvariant.

Variable env : Env.

Lemma flowInto_step_produces b pos t :
  produces (fun _ => True) (flowInto env b pos t false ;;; ret tt).
Proof.
  apply produces_bind; [|intros _; apply produces_ret].
  eapply produces_weaken; [|apply flowInto_produces]. auto.
Qed.

Lemma spreadOutwards_produces b pos displacer :
  produces (fun _ => True) (spreadOutwards env b pos displacer).
Proof.
  unfold spreadOutwards. apply produces_forEach. intros n _.
  destruct (py n =? py pos); [|apply produces_ret].
  destruct (sideOpen displacer pos n); [|apply produces_ret].
  apply flowInto_step_produces.
Qed.

Lemma flowPaths_produces b pos smallestLen paths :
  produces (fun _ => True) (flowPaths env b pos smallestLen paths).
Proof.
  unfold flowPaths. apply produces_forEach. intros p _.
  destruct (length p <=? smallestLen)%nat; [|apply produces_ret].
  destruct p as [|s p']; [apply produces_panic|]. apply flowInto_step_produces.
Qed.

(** The pool is made of reset queues before every tick: it is so after a
    tick when it was so before. *)
Lemma tickLiquid_poolReset fuel b pos st :
  poolReset st ->
  match tickLiquid env fuel b pos st with
  | Ok _ st' | Panic _ st' => poolReset st'
  | OutOfFuel => True
  end.
Proof.
  intros Hpool. unfold tickLiquid.
  destruct (negb (source b) && negb (sourceAround env b pos (grid st))).
  { unfold decay. destruct (HandleLiquidDecay env pos b _); exact Hpool. }
  unfold bind.
  pose proof (flowDown_produces env b pos (as_LiquidDisplacer (blockAt (grid st) pos))
                (canFlowInto b (grid st) (SideDown pos) false) st) as Hd.
  destruct (flowDown env b pos _ _ st) as [b' st0|f st0|]; [| |exact I].
  2:{ destruct Hd as [Hp _]. unfold poolReset in *. congruence. }
  assert (Hpool0 : poolReset st0) by (destruct Hd as [Hp _]; unfold poolReset in *; congruence).
  unfold spread.
  destruct (LiquidDepth b' <=? SpreadDecay b'); [exact Hpool0|].
  destruct (source b' || negb _); [|exact Hpool0].
  unfold bind.
  pose proof (calculateLiquidPaths_ok env fuel b' pos
                (as_LiquidDisplacer (blockAt (grid st) pos)) st0 Hpool0) as Hok.
  destruct (calculateLiquidPaths env fuel b' pos _ st0) as [paths st1|f1 st1|];
    [|contradiction|exact I].
  destruct Hok as (_ & _ & Hpool1 & _).
  destruct paths as [|path0 rest].
  - pose proof (spreadOutwards_produces b' pos
                  (as_LiquidDisplacer (blockAt (grid st) pos)) st1) as Hs.
    destruct (spreadOutwards env b' pos _ st1) as [u s2|f2 s2|]; [| |exact I];
      destruct Hs as [Hp _]; unfold poolReset in *; congruence.
  - pose proof (flowPaths_produces b' pos (length path0) (path0 :: rest) st1) as Hs.
    destruct (flowPaths env b' pos _ _ st1) as [u s2|f2 s2|]; [| |exact I];
      destruct Hs as [Hp _]; unfold poolReset in *; congruence.
Qed.

End PoolInvariant.

(** ** Worked examples *)

Example int8_wraps : int8 (127 + 3) = -126 /\ int8 (-128 - 2) = 126 /\ int8 (128 * 2) = 0.
Proof. repeat split. Qed.

Example Len_of_a_chain :
  Len (mkNode 2 0 4 (Some (mkNode 1 0 6 (Some (mkNode 0 0 8 None))))) = 2.
Proof. reflexivity. Qed.

Example Path_of_a_chain :
  Path (mkNode 2 0 4 (Some (mkNode 1 0 6 (Some (mkNode 0 0 8 None))))) (0, 5, 0)
  = Some [(1, 5, 0); (2, 5, 0)].
Proof. reflexivity. Qed.

Example source_water_displaces :
  sourceWaterDisplacer_CanDisplace (water 8 false) = true
  /\ sourceWaterDisplacer_CanDisplace (water 7 false) = false
  /\ sourceWaterDisplacer_CanDisplace (lava 8 false) = false
  /\ flowingWaterDisplacer_CanDisplace (water 7 false) = true.
Proof. repeat split. Qed.

Example water_washes_a_flower_away :
  written (stateOf (planeWithBlock (water 8 false) flower))
    (flowInto sampleEnv (water 8 false) (0, 0, 0) (1, 0, 0) false
       (stateOf (planeWithBlock (water 8 false) flower)))
  = [ESetBlock (1, 0, 0) None; EDropItem "flower"%string (1, 0, 0);
     ESetLiquid (1, 0, 0) (Some (water 7 false))].
Proof. reflexivity. Qed.

Example cancelled_flow_changes_nothing :
  flowInto cancellingEnv (water 8 false) (0, 0, 0) (1, 0, 0) false
    (stateOf (planeWith (water 8 false)))
  = Ok false (stateOf (planeWith (water 8 false))).
Proof. reflexivity. Qed.

Example source_finds_the_two_nearest_holes :
  written (stateOf twoHolesGrid)
    (tickLiquid sampleEnv 100 (water 8 false) (0, 0, 0) (stateOf twoHolesGrid))
  = [ESetLiquid (-1, 0, 0) (Some (water 7 false));
     ESetLiquid (1, 0, 0) (Some (water 7 false))].
Proof. vm_compute. reflexivity. Qed.

Example unsustained_lava_of_depth_5_decays_to_1 :
  written (stateOf (planeWith (lava 5 false)))
    (tickLiquid sampleEnv 0 (lava 5 false) (0, 0, 0) (stateOf (planeWith (lava 5 false))))
  = [ESetLiquid (0, 0, 0) (Some (lava 1 false))].
Proof. vm_compute. reflexivity. Qed.

Example pooled_queue_reused_at_another_position :
  match calculateLiquidPaths sampleEnv 2000 (water 8 false) (0, 0, 0) None
          (stateOf (planeWith (water 8 false))) with
  | Ok _ st1 =>
      match calculateLiquidPaths sampleEnv 100 (water 6 false) (1, 0, 1) None
              {| grid := twoHolesGrid; log := []; pool := pool st1 |},
            calculateLiquidPaths sampleEnv 100 (water 6 false) (1, 0, 1) None
              (stateOf twoHolesGrid) with
      | Ok paths1 _, Ok paths2 _ =>
          paths1 = paths2
          /\ paths1 = [[(2, 0, 1); (2, 0, 0)]; [(1, 0, 0); (2, 0, 0)]]
      | _, _ => False
      end
  | _ => False
  end.
Proof. vm_compute. split; reflexivity. Qed.

(** * The claims *)

(** C1 (the code departs from the claim): the tick of a liquid that is not
    sustained tests [depth - 4 > 0] and not [depth - 2*spreadDecay > 0].
    Water (spread decay 1) of depth 3 that nothing feeds has a decayed depth
    of 1, which is positive, and the tick removes it instead of leaving water
    of depth 1. *)
Theorem tick_removes_unsustained_water_of_depth_3 :
  let b := water 3 false in
  let st := stateOf (planeWith b) in
  source b = false
  /\ sourceAround sampleEnv b (0, 0, 0) (grid st) = false
  /\ LiquidDepth b - 2 * SpreadDecay b = 1
  /\ exists st',
       tickLiquid sampleEnv 0 b (0, 0, 0) st = Ok tt st'
       /\ log st' = [ESetLiquid (0, 0, 0) None]
       /\ liquidAt (grid st') (0, 0, 0) = None.
Proof.
  cbv zeta. split; [reflexivity|]. split; [vm_compute; reflexivity|].
  split; [reflexivity|].
  eexists. split; [reflexivity|]. split; reflexivity.
Qed.

(** C2, the claim as stated fails: a water source over an open drop, on an
    otherwise closed floor, flows down and spreads into its four horizontal
    neighbours in the same tick. *)
Lemma source_over_drop_spreads_sideways :
  let b := water 8 false in
  let st := stateOf (dropGrid b) in
  canFlowInto b (grid st) (SideDown (0, 0, 0)) false = true
  /\ liquidAt (grid st) (1, 0, 0) = None
  /\ exists st',
       tickLiquid sampleEnv 2000 b (0, 0, 0) st = Ok tt st'
       /\ liquidAt (grid st') (0, -1, 0) = Some (water 8 true)
       /\ liquidAt (grid st') (1, 0, 0) = Some (water 7 false)
       /\ log st' = [ESetLiquid (0, -1, 0) (Some (water 8 true));
                     ESetLiquid (1, 0, 0) (Some (water 7 false));
                     ESetLiquid (-1, 0, 0) (Some (water 7 false));
                     ESetLiquid (0, 0, 1) (Some (water 7 false));
                     ESetLiquid (0, 0, -1) (Some (water 7 false))].
Proof.
  cbv zeta. split; [reflexivity|]. split; [reflexivity|].
  destruct (tickLiquid sampleEnv 2000 (water 8 false) (0, 0, 0)
              (stateOf (dropGrid (water 8 false)))) as [[] st'|f st'|] eqn:E.
  - exists st'. split; [reflexivity|].
    assert (Hl : match tickLiquid sampleEnv 2000 (water 8 false) (0, 0, 0)
                         (stateOf (dropGrid (water 8 false))) with
                 | Ok _ s =>
                     liquidAt (grid s) (0, -1, 0) = Some (water 8 true)
                     /\ liquidAt (grid s) (1, 0, 0) = Some (water 7 false)
                     /\ log s = [ESetLiquid (0, -1, 0) (Some (water 8 true));
                                 ESetLiquid (1, 0, 0) (Some (water 7 false));
                                 ESetLiquid (-1, 0, 0) (Some (water 7 false));
                                 ESetLiquid (0, 0, 1) (Some (water 7 false));
                                 ESetLiquid (0, 0, -1) (Some (water 7 false))]
                 | _ => False
                 end) by (vm_compute; repeat split).
    rewrite E in Hl. exact Hl.
  - exfalso. revert E. vm_compute. discriminate.
  - exfalso. revert E. vm_compute. discriminate.
Qed.

(** C2, amended: a liquid that is sustained and whose cell below can receive
    flow runs the vertical flow of a full-depth falling liquid into the cell
    below, unless a displacer at its cell reports the side closed.  When the
    liquid is not a source, that is the whole tick; when it is a source, the
    horizontal spread (path search, then flow) follows in the same tick. *)
Theorem vertical_flow_then_only_sources_spread (env : Env) (fuel : nat) (b : Liquid)
    (pos : Pos) (st : State) :
  source b || sourceAround env b pos (grid st) = true ->
  canFlowInto b (grid st) (SideDown pos) false = true ->
  let displacer := as_LiquidDisplacer (blockAt (grid st) pos) in
  let vertical : M unit :=
    if sideOpen displacer pos (SideDown pos)
    then flowInto env (WithDepth b 8 true) pos (SideDown pos) true ;;; ret tt
    else ret tt in
  (source b = false -> tickLiquid env fuel b pos st = vertical st)
  /\ (source b = true -> SpreadDecay b < LiquidDepth b ->
      tickLiquid env fuel b pos st
      = (vertical ;;;
         paths <- calculateLiquidPaths env fuel b pos displacer ;;
         match paths with
         | [] => spreadOutwards env b pos displacer
         | path0 :: _ => flowPaths env b pos (length path0) paths
         end) st).
Proof.
  intros Hs Hc displacer vertical.
  rewrite (tickLiquid_sustained env fuel b pos st Hs). rewrite Hc.
  fold displacer. subst vertical. split.
  - intros Hsrc. unfold flowDown.
    destruct (LiquidFalling b); cbn [andb negb].
    + destruct (sideOpen displacer pos (SideDown pos)).
      * unfold bind, ret.
        destruct (flowInto env (WithDepth b 8 true) pos (SideDown pos) true st); auto.
        unfold spread. rewrite Hsrc. cbn [orb negb].
        destruct (LiquidDepth b <=? SpreadDecay b); reflexivity.
      * unfold bind, ret, spread. rewrite Hsrc. cbn [orb negb].
        destruct (LiquidDepth b <=? SpreadDecay b); reflexivity.
    + destruct (sideOpen displacer pos (SideDown pos)).
      * unfold bind, ret.
        destruct (flowInto env (WithDepth b 8 true) pos (SideDown pos) true st); auto.
        unfold spread. rewrite Hsrc. cbn [orb negb].
        destruct (LiquidDepth b <=? SpreadDecay b); reflexivity.
      * unfold bind, ret, spread. rewrite Hsrc. cbn [orb negb].
        destruct (LiquidDepth b <=? SpreadDecay b); reflexivity.
  - intros Hsrc Hd. unfold flowDown.
    assert (Hf : LiquidFalling b = false).
    { unfold source in Hsrc. destruct (LiquidFalling b); [|reflexivity].
      rewrite andb_false_r in Hsrc. discriminate. }
    rewrite Hf. cbn [andb].
    assert (Hsp : forall s, spread env fuel b pos displacer true s
                  = (paths <- calculateLiquidPaths env fuel b pos displacer ;;
                     match paths with
                     | [] => spreadOutwards env b pos displacer
                     | path0 :: _ => flowPaths env b pos (length path0) paths
                     end) s).
    { intros s. unfold spread.
      replace (LiquidDepth b <=? SpreadDecay b) with false by (symmetry; apply Z.leb_gt; lia).
      rewrite Hsrc. reflexivity. }
    destruct (sideOpen displacer pos (SideDown pos)).
    + unfold bind, ret.
      destruct (flowInto env (WithDepth b 8 true) pos (SideDown pos) true st); auto.
    + unfold bind, ret. rewrite Hsp. reflexivity.
Qed.

(** Water of depth 7 next to a source, over an open drop: the tick is the
    vertical flow. *)
Lemma fed_water_over_drop_only_flows_down :
  let b := water 7 false in
  let st := stateOf fedDropGrid in
  source b || sourceAround sampleEnv b (0, 0, 0) (grid st) = true
  /\ canFlowInto b (grid st) (SideDown (0, 0, 0)) false = true
  /\ source b = false
  /\ tickLiquid sampleEnv 100 b (0, 0, 0) st
     = (flowInto sampleEnv (WithDepth b 8 true) (0, 0, 0) (SideDown (0, 0, 0)) true ;;;
        ret tt) st.
Proof.
  cbv zeta.
  assert (H1 : source (water 7 false)
               || sourceAround sampleEnv (water 7 false) (0, 0, 0) (grid (stateOf fedDropGrid))
               = true) by (vm_compute; reflexivity).
  assert (H2 : canFlowInto (water 7 false) (grid (stateOf fedDropGrid)) (SideDown (0, 0, 0))
                 false = true) by (vm_compute; reflexivity).
  split; [exact H1|]. split; [exact H2|]. split; [reflexivity|].
  exact (proj1 (vertical_flow_then_only_sources_spread sampleEnv 100 (water 7 false)
                  (0, 0, 0) (stateOf fedDropGrid) H1 H2) eq_refl).
Defined.

(** C4, the claim as stated fails: water of depth 4 inside a displacer that
    reports every side closed counts as fed by the source next to it;
    sourceAround asks the displacer of the neighbour only. *)
Lemma sealed_water_is_fed_through_its_closed_side :
  closedEitherSide sealedGrid (0, 0, 0) (1, 0, 0) = true
  /\ isFedBySourceSpec (water 4 false) (0, 0, 0) sealedGrid = false
  /\ sourceAround sampleEnv (water 4 false) (0, 0, 0) sealedGrid = true.
Proof. repeat split; vm_compute; reflexivity. Qed.

(** C4, amended: a neighbour that Neighbours visits and that is not the cell
    below feeds the liquid if and only if it holds a liquid of the same type,
    and it is directly above, or is a source, or is deeper than the liquid,
    and the displacer at the neighbour, if there is one, does not report the
    side towards the liquid closed.  A displacer at the cell of the liquid
    itself is not asked. *)
Theorem sourceAround_asks_the_displacer_of_the_neighbour (env : Env) (b : Liquid)
    (pos : Pos) (g : Grid) :
  sourceAround env b pos g = true <->
  exists neighbour side,
    In neighbour (Neighbours pos (Range env))
    /\ py neighbour <> int (py pos - 1)
    /\ liquidAt g neighbour = Some side
    /\ LiquidType side = LiquidType b
    /\ (py neighbour = int (py pos + 1) \/ source side = true
        \/ LiquidDepth b < LiquidDepth side)
    /\ (forall d, as_LiquidDisplacer (blockAt g neighbour) = Some d ->
                  SideClosed d neighbour pos = false).
Proof.
  rewrite sourceAround_existsb, existsb_exists. split.
  - intros (n & Hin & Hf). apply feeds_true_iff in Hf.
    destruct Hf as (Hy & side & Hl & Ht & Hor & Hd).
    exists n, side. auto 10.
  - intros (n & side & Hin & Hy & Hl & Ht & Hor & Hd).
    exists n. split; [exact Hin|]. apply feeds_true_iff.
    split; [exact Hy|]. exists side. auto.
Qed.

(** C6, the claim as stated fails: water of depth 1 flows sideways at lava;
    the candidate depth is 0 and flowInto returns false before it looks at
    the target: no hardening takes place. *)
Lemma shallow_water_does_not_harden_lava :
  let st := stateOf (planeWithNeighbour (water 1 false) (lava 8 false)) in
  as_Liquid (blockAt (grid st) (1, 0, 0)) = Some (lava 8 false)
  /\ LiquidType (lava 8 false) <> LiquidType (water 1 false)
  /\ flowInto sampleEnv (water 1 false) (0, 0, 0) (1, 0, 0) false st = Ok false st
  /\ written st (flowInto sampleEnv (water 1 false) (0, 0, 0) (1, 0, 0) false st) = [].
Proof.
  cbv zeta. split; [reflexivity|]. split; [discriminate|]. split; reflexivity.
Qed.

(** C6, amended: a flow step that passes the check of the candidate depth (it
    is falling, or depth - spreadDecay is positive) and whose target block is
    a liquid of another type triggers the hardening of that liquid, writes no
    liquid and returns false. *)
Theorem flowInto_hardens_liquid_of_other_type (env : Env) (b : Liquid) (src pos : Pos)
    (falling : bool) (st : State) (target : Liquid) :
  as_Liquid (blockAt (grid st) pos) = Some target ->
  LiquidType target <> LiquidType b ->
  falling = true \/ 0 < int (LiquidDepth b - SpreadDecay b) ->
  flowInto env b src pos falling st
  = Ok false {| grid := Harden env target pos src (grid st);
                log := log st ++ [EHarden target pos src];
                pool := pool st |}
  /\ written st (flowInto env b src pos falling st) = [EHarden target pos src].
Proof.
  intros HL Hty Hok.
  rewrite (flowInto_harden env b src pos falling st target HL Hty Hok).
  split; [reflexivity|]. unfold written. cbn [log]. apply skipn_length_app.
Qed.

(** A water source flows sideways at lava and hardens it. *)
Lemma water_source_hardens_lava :
  let st := stateOf (planeWithNeighbour (water 8 false) (lava 8 false)) in
  as_Liquid (blockAt (grid st) (1, 0, 0)) = Some (lava 8 false)
  /\ LiquidType (lava 8 false) <> LiquidType (water 8 false)
  /\ (false = true \/ 0 < int (LiquidDepth (water 8 false) - SpreadDecay (water 8 false)))
  /\ written st (flowInto sampleEnv (water 8 false) (0, 0, 0) (1, 0, 0) false st)
     = [EHarden (lava 8 false) (1, 0, 0) (0, 0, 0)].
Proof.
  cbv zeta.
  assert (H1 : as_Liquid (blockAt (grid (stateOf (planeWithNeighbour (water 8 false)
                                                   (lava 8 false)))) (1, 0, 0))
               = Some (lava 8 false)) by reflexivity.
  assert (H2 : LiquidType (lava 8 false) <> LiquidType (water 8 false)) by discriminate.
  assert (H3 : false = true
               \/ 0 < int (LiquidDepth (water 8 false) - SpreadDecay (water 8 false)))
    by (right; reflexivity).
  split; [exact H1|]. split; [exact H2|]. split; [exact H3|].
  exact (proj2 (flowInto_hardens_liquid_of_other_type sampleEnv (water 8 false) (0, 0, 0)
                  (1, 0, 0) false _ (lava 8 false) H1 H2 H3)).
Defined.

(** C10: every liquid that flowInto writes has a depth of at least 1.  A step
    that is not falling writes depth - spreadDecay and only when that is
    positive: otherwise the call returns at once and the state is untouched.
    A falling step writes the depth of the flowing liquid as it is; the
    vertical flow of the tick passes a liquid of depth 8. *)
Theorem flowInto_writes_depth_of_at_least_1 (env : Env) (b : Liquid) (src pos : Pos)
    (falling : bool) (st : State) :
  1 <= LiquidDepth b ->
  (forall p l,
      In (ESetLiquid p l) (written st (flowInto env b src pos falling st)) ->
      p = pos
      /\ exists v,
           l = Some v /\ 1 <= LiquidDepth v /\ LiquidFalling v = falling
           /\ LiquidDepth v
              = if falling then LiquidDepth b else int (LiquidDepth b - SpreadDecay b))
  /\ (falling = false -> int (LiquidDepth b - SpreadDecay b) <= 0 ->
      flowInto env b src pos falling st = Ok false st)
  /\ (forall displacer canFlowBelow p l,
         In (ESetLiquid p l) (written st (flowDown env b src displacer canFlowBelow st)) ->
         p = SideDown src
         /\ exists v, l = Some v /\ LiquidDepth v = 8 /\ LiquidFalling v = true).
Proof.
  intros Hb. split; [|split].
  - intros p l Hin.
    pose proof (produces_written _ _ st (flowInto_produces env b src pos falling)) as Hw.
    rewrite Forall_forall in Hw. specialize (Hw _ Hin). cbn in Hw.
    destruct Hw as (-> & -> & Hok). split; [reflexivity|].
    eexists. split; [reflexivity|]. cbn [WithDepth LiquidDepth LiquidFalling].
    unfold newDepthOf in *. destruct falling.
    + auto.
    + destruct Hok as [Hf|Hpos]; [discriminate|]. split; [lia|auto].
  - intros -> Hle. apply flowInto_rejected. exact Hle.
  - intros displacer canFlowBelow p l Hin.
    pose proof (produces_written _ _ st (flowDown_produces env b src displacer canFlowBelow))
      as Hw.
    rewrite Forall_forall in Hw. specialize (Hw _ Hin). cbn beta iota in Hw.
    destruct Hw as (-> & ->). split; [reflexivity|].
    eexists. split; [reflexivity|]. split; reflexivity.
Qed.

(** A water source flows sideways into air and writes water of depth 7. *)
Lemma water_source_writes_depth_7 :
  let st := stateOf (planeWith (water 8 false)) in
  1 <= LiquidDepth (water 8 false)
  /\ written st (flowInto sampleEnv (water 8 false) (0, 0, 0) (1, 0, 0) false st)
     = [ESetLiquid (1, 0, 0) (Some (water 7 false))]
  /\ forall p l,
       In (ESetLiquid p l)
          (written st (flowInto sampleEnv (water 8 false) (0, 0, 0) (1, 0, 0) false st)) ->
       p = (1, 0, 0)
       /\ exists v,
            l = Some v /\ 1 <= LiquidDepth v /\ LiquidFalling v = false
            /\ LiquidDepth v
               = int (LiquidDepth (water 8 false) - SpreadDecay (water 8 false)).
Proof.
  cbv zeta.
  assert (H1 : 1 <= LiquidDepth (water 8 false)) by (cbn; lia).
  split; [exact H1|]. split; [reflexivity|].
  exact (proj1 (flowInto_writes_depth_of_at_least_1 sampleEnv (water 8 false) (0, 0, 0)
                  (1, 0, 0) false (stateOf (planeWith (water 8 false))) H1)).
Defined.

(** C3: when the search returns paths, the tick flows into exactly the first
    step of every returned path of minimal length, in the order the paths
    were found, and into nothing else: the paths of the same minimal length
    are all served in the tick, and a longer path is not. *)
Theorem tick_flows_into_first_step_of_every_minimal_path (env : Env) (fuel : nat)
    (b : Liquid) (pos : Pos) (st : State) (b' : Liquid) (st0 st1 : State)
    (paths : list liquidPath) :
  poolReset st ->
  source b || sourceAround env b pos (grid st) = true ->
  let displacer := as_LiquidDisplacer (blockAt (grid st) pos) in
  let canFlowBelow := canFlowInto b (grid st) (SideDown pos) false in
  flowDown env b pos displacer canFlowBelow st = Ok b' st0 ->
  SpreadDecay b' < LiquidDepth b' ->
  source b' || negb canFlowBelow = true ->
  calculateLiquidPaths env fuel b' pos displacer st0 = Ok paths st1 ->
  paths <> [] ->
  tickLiquid env fuel b pos st
  = flowSteps env b' pos (firstSteps (minimalPaths paths)) st1
  /\ (forall p, In p paths -> (minLength paths <= length p)%nat)
  /\ (forall p, In p (minimalPaths paths) <-> In p paths /\ length p = minLength paths)
  /\ length (firstSteps (minimalPaths paths)) = length (minimalPaths paths).
Proof.
  intros Hpool Hs displacer canFlowBelow Hdown Hd Hg Hc Hne.
  assert (Hpool0 : poolReset st0).
  { unfold poolReset. rewrite (flowDown_pool env _ _ _ _ _ _ _ Hdown). exact Hpool. }
  split; [|split; [|split]].
  - rewrite (tickLiquid_sustained env fuel b pos st Hs).
    fold displacer canFlowBelow. unfold bind at 1. rewrite Hdown.
    apply spread_paths; assumption.
  - intros p. apply minLength_le.
  - intros p. unfold minimalPaths. rewrite filter_In, Nat.eqb_eq. reflexivity.
  - pose proof (calculateLiquidPaths_ok env fuel b' pos displacer st0 Hpool0) as Hok.
    rewrite Hc in Hok. destruct Hok as (_ & _ & _ & L & Hall).
    rewrite (minimalPaths_same L) by exact Hall.
    clear -Hall. induction Hall as [|p l Hp Hl IH]; [reflexivity|].
    destruct p as [|s p']; [discriminate|]. cbn [firstSteps flat_map app length].
    f_equal. exact IH.
Qed.

(** A water source with the floor open two cells east and two cells west,
    and three cells south: the paths to the east and the west are served. *)
Lemma two_holes_two_first_steps :
  let b := water 8 false in
  let st := stateOf twoHolesGrid in
  let paths := [[(-1, 0, 0); (-2, 0, 0)]; [(1, 0, 0); (2, 0, 0)]] in
  let st1 := {| grid := twoHolesGrid; log := [];
                pool := [{| nodes := []; cap := 64; qi := 0; shortestPath := 127 |}] |} in
  poolReset st
  /\ source b || sourceAround sampleEnv b (0, 0, 0) (grid st) = true
  /\ flowDown sampleEnv b (0, 0, 0) (as_LiquidDisplacer (blockAt (grid st) (0, 0, 0)))
       (canFlowInto b (grid st) (SideDown (0, 0, 0)) false) st = Ok b st
  /\ SpreadDecay b < LiquidDepth b
  /\ source b || negb (canFlowInto b (grid st) (SideDown (0, 0, 0)) false) = true
  /\ calculateLiquidPaths sampleEnv 100 b (0, 0, 0)
       (as_LiquidDisplacer (blockAt (grid st) (0, 0, 0))) st = Ok paths st1
  /\ paths <> []
  /\ firstSteps (minimalPaths paths) = [(-1, 0, 0); (1, 0, 0)]
  /\ tickLiquid sampleEnv 100 b (0, 0, 0) st
     = flowSteps sampleEnv b (0, 0, 0) (firstSteps (minimalPaths paths)) st1.
Proof.
  cbv zeta.
  assert (H1 : poolReset (stateOf twoHolesGrid)) by constructor.
  assert (H2 : source (water 8 false)
               || sourceAround sampleEnv (water 8 false) (0, 0, 0) (grid (stateOf twoHolesGrid))
               = true) by reflexivity.
  assert (H3 : flowDown sampleEnv (water 8 false) (0, 0, 0)
                 (as_LiquidDisplacer (blockAt (grid (stateOf twoHolesGrid)) (0, 0, 0)))
                 (canFlowInto (water 8 false) (grid (stateOf twoHolesGrid))
                    (SideDown (0, 0, 0)) false) (stateOf twoHolesGrid)
               = Ok (water 8 false) (stateOf twoHolesGrid)) by reflexivity.
  assert (H4 : SpreadDecay (water 8 false) < LiquidDepth (water 8 false)) by reflexivity.
  assert (H5 : source (water 8 false)
               || negb (canFlowInto (water 8 false) (grid (stateOf twoHolesGrid))
                          (SideDown (0, 0, 0)) false) = true) by reflexivity.
  assert (H6 : calculateLiquidPaths sampleEnv 100 (water 8 false) (0, 0, 0)
                 (as_LiquidDisplacer (blockAt (grid (stateOf twoHolesGrid)) (0, 0, 0)))
                 (stateOf twoHolesGrid)
               = Ok [[(-1, 0, 0); (-2, 0, 0)]; [(1, 0, 0); (2, 0, 0)]]
                   {| grid := twoHolesGrid; log := [];
                      pool := [{| nodes := []; cap := 64; qi := 0; shortestPath := 127 |}] |})
    by (vm_compute; reflexivity).
  assert (H7 : [[(-1, 0, 0); (-2, 0, 0)]; [(1, 0, 0); (2, 0, 0)]] <> ([] : list liquidPath))
    by discriminate.
  split; [exact H1|]. split; [exact H2|]. split; [exact H3|]. split; [exact H4|].
  split; [exact H5|]. split; [exact H6|]. split; [exact H7|]. split; [reflexivity|].
  exact (proj1 (tick_flows_into_first_step_of_every_minimal_path sampleEnv 100
                  (water 8 false) (0, 0, 0) (stateOf twoHolesGrid) (water 8 false)
                  (stateOf twoHolesGrid) _ _ H1 H2 H3 H4 H5 H6 H7)).
Defined.

(** C5: when the tick reaches the horizontal spread and the search returns
    no path, the tick is one flow step into each of the four horizontal
    neighbours, in order, except those whose side the displacer at the cell
    of the liquid reports closed; whatever such a step writes is the liquid
    with depth - spreadDecay, not falling.  The liquid that spreads is the
    liquid of the tick, or its full-depth falling form when it is a falling
    liquid that can no longer flow below.  On the flat open plane a source
    floods exactly its four neighbours with depth 8 - spreadDecay, not
    falling. *)
Theorem tick_without_paths_spreads_into_four_neighbours (env : Env) (fuel : nat)
    (b : Liquid) (pos : Pos) (st : State) (b' : Liquid) (st0 st1 : State) :
  fst (Range env) <= py pos <= snd (Range env) ->
  source b || sourceAround env b pos (grid st) = true ->
  let displacer := as_LiquidDisplacer (blockAt (grid st) pos) in
  let canFlowBelow := canFlowInto b (grid st) (SideDown pos) false in
  let targets := filter (sideOpen displacer pos) (horizontalNeighbours pos) in
  flowDown env b pos displacer canFlowBelow st = Ok b' st0 ->
  SpreadDecay b' < LiquidDepth b' ->
  source b' || negb canFlowBelow = true ->
  calculateLiquidPaths env fuel b' pos displacer st0 = Ok [] st1 ->
  tickLiquid env fuel b pos st = flowSteps env b' pos targets st1
  /\ (forall p l,
         In (ESetLiquid p l) (written st1 (flowSteps env b' pos targets st1)) ->
         In p (horizontalNeighbours pos) /\ sideOpen displacer pos p = true
         /\ l = Some (WithDepth b' (int (LiquidDepth b' - SpreadDecay b')) false))
  /\ (b' = b \/ (LiquidFalling b = true /\ canFlowBelow = false /\ b' = WithDepth b 8 true))
  /\ (forall l, l = water 8 false \/ l = lava 8 false ->
      exists st',
        tickLiquid sampleEnv 2000 l (0, 0, 0) (stateOf (planeWith l)) = Ok tt st'
        /\ log st'
           = [ESetLiquid (1, 0, 0) (Some (WithDepth l (8 - SpreadDecay l) false));
              ESetLiquid (-1, 0, 0) (Some (WithDepth l (8 - SpreadDecay l) false));
              ESetLiquid (0, 0, 1) (Some (WithDepth l (8 - SpreadDecay l) false));
              ESetLiquid (0, 0, -1) (Some (WithDepth l (8 - SpreadDecay l) false))]
        /\ (forall p, In p (horizontalNeighbours (0, 0, 0)) ->
                      liquidAt (grid st') p = Some (WithDepth l (8 - SpreadDecay l) false))).
Proof.
  intros Hr Hs displacer canFlowBelow targets Hdown Hd Hg Hc.
  split; [|split; [|split]].
  - rewrite (tickLiquid_sustained env fuel b pos st Hs).
    fold displacer canFlowBelow. unfold bind at 1. rewrite Hdown.
    apply spread_no_paths; assumption.
  - intros p l Hin.
    pose proof (produces_written _ _ st1 (flowSteps_produces env b' pos targets)) as Hw.
    rewrite Forall_forall in Hw. specialize (Hw _ Hin). cbn beta iota in Hw.
    destruct Hw as (Ht & Hl & _). unfold targets in Ht. apply filter_In in Ht.
    destruct Ht as [Hh Ho]. auto.
  - exact (flowDown_value env b pos displacer canFlowBelow st b' st0 Hdown).
  - exact flat_plane_floods_four_neighbours.
Qed.

(** A water source on the flat plane: no path, four flow steps. *)
Lemma water_source_on_plane_spreads :
  let b := water 8 false in
  let st := stateOf (planeWith b) in
  let st1 := {| grid := planeWith b; log := [];
                pool := [{| nodes := []; cap := 1024; qi := 0; shortestPath := 127 |}] |} in
  fst (Range sampleEnv) <= py (0, 0, 0) <= snd (Range sampleEnv)
  /\ source b || sourceAround sampleEnv b (0, 0, 0) (grid st) = true
  /\ flowDown sampleEnv b (0, 0, 0) (as_LiquidDisplacer (blockAt (grid st) (0, 0, 0)))
       (canFlowInto b (grid st) (SideDown (0, 0, 0)) false) st = Ok b st
  /\ SpreadDecay b < LiquidDepth b
  /\ source b || negb (canFlowInto b (grid st) (SideDown (0, 0, 0)) false) = true
  /\ calculateLiquidPaths sampleEnv 2000 b (0, 0, 0)
       (as_LiquidDisplacer (blockAt (grid st) (0, 0, 0))) st = Ok [] st1
  /\ tickLiquid sampleEnv 2000 b (0, 0, 0) st
     = flowSteps sampleEnv b (0, 0, 0)
         (filter (sideOpen (as_LiquidDisplacer (blockAt (grid st) (0, 0, 0))) (0, 0, 0))
            (horizontalNeighbours (0, 0, 0))) st1.
Proof.
  cbv zeta.
  assert (H1 : fst (Range sampleEnv) <= py (0, 0, 0) <= snd (Range sampleEnv))
    by (cbn; lia).
  assert (H2 : source (water 8 false)
               || sourceAround sampleEnv (water 8 false) (0, 0, 0)
                    (grid (stateOf (planeWith (water 8 false)))) = true) by reflexivity.
  assert (H3 : flowDown sampleEnv (water 8 false) (0, 0, 0)
                 (as_LiquidDisplacer
                    (blockAt (grid (stateOf (planeWith (water 8 false)))) (0, 0, 0)))
                 (canFlowInto (water 8 false) (grid (stateOf (planeWith (water 8 false))))
                    (SideDown (0, 0, 0)) false) (stateOf (planeWith (water 8 false)))
               = Ok (water 8 false) (stateOf (planeWith (water 8 false)))) by reflexivity.
  assert (H4 : SpreadDecay (water 8 false) < LiquidDepth (water 8 false)) by reflexivity.
  assert (H5 : source (water 8 false)
               || negb (canFlowInto (water 8 false)
                          (grid (stateOf (planeWith (water 8 false))))
                          (SideDown (0, 0, 0)) false) = true) by reflexivity.
  assert (H6 : calculateLiquidPaths sampleEnv 2000 (water 8 false) (0, 0, 0)
                 (as_LiquidDisplacer
                    (blockAt (grid (stateOf (planeWith (water 8 false)))) (0, 0, 0)))
                 (stateOf (planeWith (water 8 false)))
               = Ok [] {| grid := planeWith (water 8 false); log := [];
                          pool := [{| nodes := []; cap := 1024; qi := 0;
                                      shortestPath := 127 |}] |})
    by (vm_compute; reflexivity).
  split; [exact H1|]. split; [exact H2|]. split; [exact H3|]. split; [exact H4|].
  split; [exact H5|]. split; [exact H6|].
  exact (proj1 (tick_without_paths_spreads_into_four_neighbours sampleEnv 2000
                  (water 8 false) (0, 0, 0) (stateOf (planeWith (water 8 false)))
                  (water 8 false) (stateOf (planeWith (water 8 false))) _
                  H1 H2 H3 H4 H5 H6)).
Defined.

(** C7: when flowInto removes a block that declares liquid drops and is not
    breakable, it panics, after the removal of the block.  That is the only
    panic: of flowInto, and of the whole tick, which never stops on an index
    out of range.  Every other way flowInto can end is a plain return: the
    state untouched (rejected, blocked, satisfied already, cancelled), the
    hardening of a liquid of another type, or the write of the liquid.  A
    cancelled interaction leaves the state as it was. *)
Theorem liquid_drops_without_breakable_is_the_only_panic (env : Env) :
  (forall b src pos falling st,
      let cand := WithDepth b (newDepthOf b falling) falling in
      let existing := blockAt (grid st) pos in
      falling = true \/ 0 < newDepthOf b falling ->
      as_Liquid existing = None ->
      isSome (as_LiquidDisplacer existing) && isSome (liquidAt (grid st) pos) = false ->
      HandleLiquidFlow env src pos cand existing = false ->
      as_LiquidRemovable existing = Some true ->
      as_Breakable existing = None ->
      flowInto env b src pos falling st
      = Panic LiquidDropsNotBreakable
          (if negb (is_Air existing)
           then {| grid := gridSetBlock (grid st) pos None;
                   log := log st ++ [ESetBlock pos None];
                   pool := pool st |}
           else st))
  /\ (forall b src pos falling st f st',
         flowInto env b src pos falling st = Panic f st' ->
         f = LiquidDropsNotBreakable
         /\ as_LiquidRemovable (blockAt (grid st) pos) = Some true
         /\ as_Breakable (blockAt (grid st) pos) = None)
  /\ (forall fuel b pos st f st',
         poolReset st ->
         tickLiquid env fuel b pos st = Panic f st' -> f = LiquidDropsNotBreakable)
  /\ (forall b src pos falling st r st',
         flowInto env b src pos falling st = Ok r st' ->
         st' = st
         \/ (r = false
             /\ exists t,
                  as_Liquid (blockAt (grid st) pos) = Some t
                  /\ LiquidType t <> LiquidType b
                  /\ log st' = log st ++ [EHarden t pos src])
         \/ (r = true
             /\ exists es,
                  log st'
                  = log st ++ es
                      ++ [ESetLiquid pos (Some (WithDepth b (newDepthOf b falling) falling))]))
  /\ (forall b src pos falling st,
         HandleLiquidFlow env src pos (WithDepth b (newDepthOf b falling) falling)
           (blockAt (grid st) pos) = true ->
         (forall t, as_Liquid (blockAt (grid st) pos) = Some t ->
                    LiquidType t = LiquidType b) ->
         exists r, flowInto env b src pos falling st = Ok r st)
  /\ (forall fuel b pos st,
         source b = false -> sourceAround env b pos (grid st) = false ->
         (forall res, HandleLiquidDecay env pos b res = true) ->
         tickLiquid env fuel b pos st = Ok tt st).
Proof.
  split; [|split; [|split; [|split; [|split]]]].
  - intros b src pos falling st. apply flowInto_panics.
  - intros b src pos falling st f st' H.
    pose proof (flowInto_cases env b src pos falling st) as Hc. cbv zeta in Hc.
    rewrite H in Hc.
    destruct Hc as [Hc|[[Hc _]|[(t & _ & _ & Hc)|[(_ & s & es & Hc & _)|Hc]]]];
      try discriminate.
    destruct Hc as (_ & HR & HB & s & Hc). inversion Hc; subst. auto.
  - intros fuel b pos st f st'. apply tickLiquid_panic.
  - intros b src pos falling st r st' H.
    pose proof (flowInto_cases env b src pos falling st) as Hc. cbv zeta in Hc.
    rewrite H in Hc.
    destruct Hc as [Hc|[[Hc _]|[(t & HL & Ht & Hc)|[(_ & s & es & Hc & Hlog)|Hc]]]].
    + inversion Hc; subst. now left.
    + inversion Hc; subst. now left.
    + inversion Hc; subst. right; left. split; [reflexivity|]. exists t. auto.
    + inversion Hc; subst. right; right. split; [reflexivity|]. exists es. exact Hlog.
    + destruct Hc as (_ & _ & _ & s & Hc). discriminate.
  - intros b src pos falling st Hh Hty.
    pose proof (flowInto_cases env b src pos falling st) as Hc. cbv zeta in Hc.
    destruct Hc as [Hc|[[Hc _]|[(t & HL & Ht & Hc)|[(Hf & _)|(Hf & _)]]]];
      try congruence; eauto.
    exfalso. apply Ht. apply Hty. exact HL.
  - intros fuel b pos st Hs Ha Hh.
    rewrite (tickLiquid_decay env fuel b pos st Hs Ha). unfold decay.
    rewrite Hh. reflexivity.
Qed.

(** A water source next to a block with liquid drops that is not breakable. *)
Lemma misconfigured_block_panics :
  let b := water 8 false in
  let st := stateOf (planeWithBlock b misconfigured) in
  (false = true \/ 0 < newDepthOf b false)
  /\ as_Liquid (blockAt (grid st) (1, 0, 0)) = None
  /\ isSome (as_LiquidDisplacer (blockAt (grid st) (1, 0, 0)))
     && isSome (liquidAt (grid st) (1, 0, 0)) = false
  /\ HandleLiquidFlow sampleEnv (0, 0, 0) (1, 0, 0) (WithDepth b (newDepthOf b false) false)
       (blockAt (grid st) (1, 0, 0)) = false
  /\ as_LiquidRemovable (blockAt (grid st) (1, 0, 0)) = Some true
  /\ as_Breakable (blockAt (grid st) (1, 0, 0)) = None
  /\ flowInto sampleEnv b (0, 0, 0) (1, 0, 0) false st
     = Panic LiquidDropsNotBreakable
         {| grid := gridSetBlock (grid st) (1, 0, 0) None;
            log := [ESetBlock (1, 0, 0) None];
            pool := [] |}.
Proof.
  cbv zeta.
  assert (H1 : false = true \/ 0 < newDepthOf (water 8 false) false) by (right; reflexivity).
  split; [exact H1|]. do 5 (split; [reflexivity|]).
  exact (proj1 (liquid_drops_without_breakable_is_the_only_panic sampleEnv)
           (water 8 false) (0, 0, 0) (1, 0, 0) false
           (stateOf (planeWithBlock (water 8 false) misconfigured))
           H1 eq_refl eq_refl eq_refl eq_refl eq_refl).
Defined.

(** C8: a queue of the pool was reset when it was put back; it has the
    nodes, the cursor and the bound of a new queue, and differs from one in
    the capacity of its backing array at most.  A search that takes it from
    the pool ends as the same search with a new queue ends: with the same
    paths, the same grid and the same log.  The queue it puts back is reset
    again. *)
Theorem search_with_pooled_queue_as_with_new_queue (env : Env) (fuel : nat) (b : Liquid)
    (pos : Pos) (displacer : option LiquidDisplacer) (st : State) (used : liquidQueue)
    (rest : list liquidQueue) :
  pool st = Reset used :: rest ->
  (nodes (Reset used) = nodes newQueue
   /\ qi (Reset used) = qi newQueue
   /\ shortestPath (Reset used) = shortestPath newQueue)
  /\ sameOutcome rest
       (calculateLiquidPaths env fuel b pos displacer st)
       (calculateLiquidPaths env fuel b pos displacer
          {| grid := grid st; log := log st; pool := [] |}).
Proof.
  intros Hpool. split; [repeat split|].
  unfold sameOutcome, calculateLiquidPaths. rewrite Hpool. cbn [pool poolGet grid log].
  assert (Hq : sameQueue (Reset used) newQueue) by (repeat split).
  pose proof (searchFrom_same env fuel b pos (grid st) displacer _ _ Hq) as Hr.
  destruct (searchFrom env fuel b pos (grid st) displacer (Reset used)) as [[q1 p1|f1 q1]|],
           (searchFrom env fuel b pos (grid st) displacer newQueue) as [[q2 p2|f2 q2]|];
    cbn in Hr; try contradiction; auto.
  - destruct Hr as [_ ->]. cbn [grid log pool poolPut]. repeat split; eauto.
  - destruct Hr as [-> _]. reflexivity.
Qed.

(** A search with a queue that held two nodes, a moved cursor and a bound of
    3 before it was reset. *)
Lemma used_queue_finds_the_two_holes :
  let used := {| nodes := [mkNode 5 5 2 None; mkNode 4 5 0 None]; cap := 1024; qi := 2;
                 shortestPath := 3 |} in
  let st := {| grid := twoHolesGrid; log := []; pool := [Reset used] |} in
  pool st = [Reset used]
  /\ sameOutcome []
       (calculateLiquidPaths sampleEnv 100 (water 8 false) (0, 0, 0) None st)
       (calculateLiquidPaths sampleEnv 100 (water 8 false) (0, 0, 0) None
          {| grid := grid st; log := log st; pool := [] |}).
Proof.
  cbv zeta. split; [reflexivity|].
  exact (proj2 (search_with_pooled_queue_as_with_new_queue sampleEnv 100 (water 8 false)
                  (0, 0, 0) None
                  {| grid := twoHolesGrid; log := [];
                     pool := [Reset {| nodes := [mkNode 5 5 2 None; mkNode 4 5 0 None];
                                       cap := 1024; qi := 2; shortestPath := 3 |}] |}
                  {| nodes := [mkNode 5 5 2 None; mkNode 4 5 0 None];
                     cap := 1024; qi := 2; shortestPath := 3 |} [] eq_refl)).
Defined.

(** C9: the search of calculateLiquidPaths ends for every liquid and every
    grid: there is an amount of fuel, one unit for each node taken from the
    queue, from which on the call returns its paths.  A node whose depth plus
    3 is zero or less is never put in the queue, and, as long as twice the
    spread decay fits an int8, every neighbour of a node that was put in the
    queue has the depth of the node less twice the spread decay. *)
Theorem path_search_terminates (env : Env) (b : Liquid) (pos : Pos)
    (displacer : option LiquidDisplacer) (st : State) :
  1 <= SpreadDecay b ->
  poolReset st ->
  (exists fuel, forall fuel', (fuel <= fuel')%nat ->
      exists paths st', calculateLiquidPaths env fuel' b pos displacer st = Ok paths st')
  /\ (forall node g queue,
         int8 (node_depth node + 3) <= 0 ->
         spreadNeighbour env b pos g node queue = (false, queue))
  /\ (SpreadDecay b <= 63 ->
      forall node,
        -128 <= node_depth node <= 127 -> 0 < int8 (node_depth node + 3) ->
        let '(nA, nB, nC, nD) := neighbours node (int8 (int8 (SpreadDecay b) * 2)) in
        node_depth nA = node_depth node - 2 * SpreadDecay b
        /\ node_depth nB = node_depth node - 2 * SpreadDecay b
        /\ node_depth nC = node_depth node - 2 * SpreadDecay b
        /\ node_depth nD = node_depth node - 2 * SpreadDecay b
        /\ node_depth nA < node_depth node).
Proof.
  intros Hdecay Hpool. split; [|split].
  - exists (budget 127). intros fuel' Hfuel.
    apply calculateLiquidPaths_terminates; assumption.
  - intros node g queue Hd. unfold spreadNeighbour.
    replace (int8 (node_depth node + 3) <=? 0) with true by (symmetry; apply Z.leb_le; exact Hd).
    reflexivity.
  - intros Hsmall node Hint8 Hnode. unfold neighbours. cbn [node_depth].
    rewrite (int8_small (SpreadDecay b)) by lia.
    rewrite (int8_small (SpreadDecay b * 2)) by lia.
    assert (Hrange : -2 <= node_depth node).
    { destruct (Z_lt_le_dec (node_depth node + 3) 128) as [Hlt|Hge].
      - rewrite int8_small in Hnode by lia. lia.
      - exfalso. unfold int8, wrap in Hnode. change (2 ^ (8 - 1)) with 128 in Hnode.
        change (2 ^ 8) with 256 in Hnode.
        replace (node_depth node + 3 + 128) with (node_depth node + 3 - 128 + 1 * 256)
          in Hnode by lia.
        rewrite Z.mod_add in Hnode by lia. rewrite Z.mod_small in Hnode by lia. lia. }
    rewrite int8_small by lia. lia.
Qed.

(** The search of a water source on the flat plane ends. *)
Lemma water_source_search_ends :
  let b := water 8 false in
  let st := stateOf (planeWith b) in
  1 <= SpreadDecay b
  /\ poolReset st
  /\ exists fuel, forall fuel', (fuel <= fuel')%nat ->
       exists paths st', calculateLiquidPaths sampleEnv fuel' b (0, 0, 0) None st = Ok paths st'.
Proof.
  cbv zeta.
  assert (H1 : 1 <= SpreadDecay (water 8 false)) by (cbn; lia).
  assert (H2 : poolReset (stateOf (planeWith (water 8 false)))) by constructor.
  split; [exact H1|]. split; [exact H2|].
  exact (proj1 (path_search_terminates sampleEnv (water 8 false) (0, 0, 0) None
                  (stateOf (planeWith (water 8 false))) H1 H2)).
Defined.

(** * Further properties of the code *)

(** ** Len and Path *)

Lemma setIndex_spec {A : Type} (l : list A) :
  forall i v, (i < length l)%nat ->
  setIndex l i v = Some (firstn i l ++ v :: skipn (S i) l).
Proof.
  induction l as [|h t IH]; intros i v Hi; simpl in Hi; [lia|].
  destruct i as [|i]; cbn [setIndex firstn skipn app]; [reflexivity|].
  rewrite IH by lia. reflexivity.
Qed.

Lemma skipn_firstn_app {A : Type} (l rest : list A) (i : nat) :
  (i <= length l)%nat -> skipn i (firstn i l ++ rest) = rest.
Proof.
  intros H. rewrite skipn_app, firstn_length_le by exact H.
  rewrite Nat.sub_diag. cbn [skipn].
  rewrite (skipn_all2 (firstn i l)) by (rewrite firstn_length_le; lia). reflexivity.
Qed.

Lemma Path_loop_spec (src : Pos) (n : liquidNode) :
  forall path i,
    Z.of_nat (links n) = i + 1 -> i < Z.of_nat (length path) -> i < 2 ^ 62 ->
    Path_loop n src path i
    = Some (chainPositions n src ++ skipn (Z.to_nat (i + 1)) path).
Proof.
  induction n as [x z d|x z d p IH] using liquidNode_induction; intros path i Hl Hi Hb.
  - cbn [Path_loop chainPositions links app] in *.
    replace (i + 1) with 0 by lia. reflexivity.
  - cbn [Path_loop chainPositions links] in *. unfold storeAt.
    destruct (i <? 0) eqn:Hneg; [apply Z.ltb_lt in Hneg; lia|].
    rewrite setIndex_spec by lia.
    rewrite int_small by lia.
    rewrite IH; try lia.
    2:{ rewrite length_app, firstn_length_le by lia. cbn [length]. lia. }
    f_equal. rewrite <- app_assoc. f_equal.
    replace (Z.to_nat (i - 1 + 1)) with (Z.to_nat i) by lia.
    rewrite skipn_firstn_app by lia.
    replace (Z.to_nat (i + 1)) with (S (Z.to_nat i)) by lia. reflexivity.
Qed.

Lemma Len_links_general (n : liquidNode) :
  Z.of_nat (links n) < 2 ^ 62 -> Len n = Z.of_nat (links n).
Proof. intros H. unfold Len. rewrite Len_loop_links; lia. Qed.

Lemma Path_chainPositions (src : Pos) (n : liquidNode) :
  Z.of_nat (links n) < 2 ^ 62 -> Path n src = Some (chainPositions n src).
Proof.
  intros H. unfold Path. rewrite Len_links_general by exact H.
  rewrite int_small by lia.
  rewrite Path_loop_spec; try lia.
  2:{ rewrite repeat_length. lia. }
  f_equal. rewrite skipn_all2; [apply app_nil_r|]. rewrite repeat_length. lia.
Qed.

Lemma chainPositions_length (src : Pos) (n : liquidNode) :
  length (chainPositions n src) = links n.
Proof.
  induction n as [x z d|x z d p IH] using liquidNode_induction; cbn [chainPositions links].
  - reflexivity.
  - rewrite length_app, IH. cbn. lia.
Qed.

(** X1: for a node with fewer than 2^62 links behind it, Len is the number
    of links and Path is the list of the cells of the chain, from the cell
    next to the root to the cell of the node, at the height of the source:
    the root is left out, the path has Len entries and, when there is a link,
    it ends with the cell of the node. *)
Theorem Path_lists_the_chain_behind_a_node (n : liquidNode) (src : Pos) :
  Z.of_nat (links n) < 2 ^ 62 ->
  Len n = Z.of_nat (links n)
  /\ Path n src = Some (chainPositions n src)
  /\ Z.of_nat (length (chainPositions n src)) = Len n
  /\ (node_previous n <> None ->
      last (chainPositions n src) src = (node_x n, py src, node_z n)).
Proof.
  intros H. split; [apply Len_links_general; exact H|].
  split; [apply Path_chainPositions; exact H|].
  split; [rewrite chainPositions_length, Len_links_general by exact H; reflexivity|].
  destruct n as [x z d [p|]]; cbn; [|congruence].
  intros _. apply last_last.
Qed.

(** A chain of two links. *)
Lemma Path_of_two_links :
  let n := mkNode 2 1 4 (Some (mkNode 1 1 6 (Some (mkNode 1 0 8 None)))) in
  Z.of_nat (links n) < 2 ^ 62
  /\ Len n = 2
  /\ Path n (0, 5, 0) = Some [(1, 5, 1); (2, 5, 1)].
Proof.
  cbv zeta.
  assert (H : Z.of_nat (links (mkNode 2 1 4 (Some (mkNode 1 1 6 (Some (mkNode 1 0 8 None))))))
              < 2 ^ 62) by (cbn; lia).
  split; [exact H|].
  pose proof (Path_lists_the_chain_behind_a_node
                (mkNode 2 1 4 (Some (mkNode 1 1 6 (Some (mkNode 1 0 8 None))))) (0, 5, 0) H)
    as (HLen & HPath & _).
  split; [exact HLen|exact HPath].
Defined.

(** X2: each of the four nodes that neighbours returns is one link longer
    than the node, and its path is the path of the node followed by its own
    cell. *)
Theorem neighbour_path_extends_the_path_of_the_node (node : liquidNode) (decay : Z)
    (src : Pos) (neigh : liquidNode) :
  Z.of_nat (links node) < 2 ^ 62 - 1 ->
  In neigh (neighbourList node decay) ->
  Len neigh = Len node + 1
  /\ Path neigh src
     = option_map (fun path => path ++ [(node_x neigh, py src, node_z neigh)])
         (Path node src)
  /\ node_depth neigh = int8 (node_depth node - decay)
  /\ In (node_x neigh, py src, node_z neigh)
        (horizontalNeighbours (node_x node, py src, node_z node)).
Proof.
  intros H Hin.
  assert (Hprev : exists x z, neigh = mkNode x z (int8 (node_depth node - decay)) (Some node)
                              /\ In (x, py src, z)
                                    (horizontalNeighbours (node_x node, py src, node_z node))).
  { unfold neighbourList, neighbours in Hin. cbn [In] in Hin.
    unfold horizontalNeighbours. cbn [px py pz fst snd In].
    destruct Hin as [<-|[<-|[<-|[<-|[]]]]]; eexists _, _; split; try reflexivity; auto. }
  destruct Hprev as (x & z & -> & Hadj).
  assert (Hl : Z.of_nat (links (mkNode x z (int8 (node_depth node - decay)) (Some node)))
               < 2 ^ 62) by (cbn [links]; lia).
  rewrite (Len_links_general _ Hl), (Path_chainPositions src _ Hl).
  rewrite Len_links_general, Path_chainPositions by lia.
  cbn [links chainPositions option_map node_x node_z node_depth].
  split; [lia|]. split; [reflexivity|]. split; [reflexivity|exact Hadj].
Qed.

Lemma neighbour_of_a_seed_node :
  let node := mkNode 0 0 8 None in
  let neigh := mkNode (int (0 + 1)) 0 (int8 (8 - 2)) (Some node) in
  Z.of_nat (links node) < 2 ^ 62 - 1
  /\ In neigh (neighbourList node 2)
  /\ Len neigh = Len node + 1.
Proof.
  cbv zeta.
  assert (H1 : Z.of_nat (links (mkNode 0 0 8 None)) < 2 ^ 62 - 1) by (cbn; lia).
  assert (H2 : In (mkNode (int (0 + 1)) 0 (int8 (8 - 2)) (Some (mkNode 0 0 8 None)))
                  (neighbourList (mkNode 0 0 8 None) 2)) by (right; left; reflexivity).
  split; [exact H1|]. split; [exact H2|].
  exact (proj1 (neighbour_path_extends_the_path_of_the_node (mkNode 0 0 8 None) 2 (0, 0, 0)
                  _ H1 H2)).
Defined.

(** ** The node queue as a queue *)

Section QueueOrder.

Variable env : Env.

Lemma QLen_pending (q : liquidQueue) :
  0 <= qi q <= Z.of_nat (length (nodes q)) -> QLen q = Z.of_nat (length (pending q)).
Proof.
  intros H. unfold QLen, pending. rewrite length_skipn. lia.
Qed.

Lemma PushBack_cursor (q : liquidQueue) (n : liquidNode) :
  0 <= qi q <= Z.of_nat (length (nodes q)) ->
  0 <= qi (PushBack env q n) <= Z.of_nat (length (nodes (PushBack env q n))).
Proof.
  intros H. cbn [PushBack nodes qi]. rewrite length_app. cbn [length]. lia.
Qed.

Lemma pending_pushAll (l : list liquidNode) :
  forall q,
    0 <= qi q <= Z.of_nat (length (nodes q)) ->
    pending (fold_left (PushBack env) l q) = pending q ++ l
    /\ 0 <= qi (fold_left (PushBack env) l q)
       <= Z.of_nat (length (nodes (fold_left (PushBack env) l q))).
Proof.
  induction l as [|n l IH]; intros q H; cbn [fold_left].
  - rewrite app_nil_r. auto.
  - destruct (IH (PushBack env q n) (PushBack_cursor q n H)) as [Hp Hc].
    rewrite Hp, pending_PushBack by exact H. rewrite <- app_assoc. auto.
Qed.

Lemma Front_empty (q : liquidQueue) :
  0 <= qi q <= Z.of_nat (length (nodes q)) -> pending q = [] -> Front q = None.
Proof.
  intros H Hp. unfold Front.
  destruct (qi q <? 0); [reflexivity|].
  destruct (nth_error (nodes q) (Z.to_nat (qi q))) as [v|] eqn:E; [|reflexivity].
  unfold pending in Hp. rewrite (skipn_nth_error _ _ _ E) in Hp. discriminate.
Qed.

Lemma drain_pending (k : nat) :
  forall q,
    0 <= qi q <= Z.of_nat (length (nodes q)) ->
    (k <= length (pending q))%nat ->
    exists q',
      drain k q = Some (firstn k (pending q), q')
      /\ pending q' = skipn k (pending q)
      /\ 0 <= qi q' <= Z.of_nat (length (nodes q')).
Proof.
  induction k as [|k IH]; intros q H Hk.
  - exists q. cbn. auto.
  - assert (Hne : QLen q <> 0) by (rewrite QLen_pending by exact H; lia).
    destruct (Front_pending q H Hne) as (n & q1 & HF & Hp & Hn & Hi & _).
    assert (H1 : 0 <= qi q1 <= Z.of_nat (length (nodes q1))).
    { rewrite Hn, Hi. unfold QLen in Hne.
      rewrite Hp in Hk. cbn [length] in Hk.
      assert (Hlen : Z.of_nat (length (pending q)) = Z.of_nat (length (nodes q)) - qi q)
        by (rewrite <- QLen_pending by exact H; reflexivity).
      rewrite Hp in Hlen. cbn [length] in Hlen. lia. }
    rewrite Hp in Hk. cbn [length] in Hk.
    destruct (IH q1 H1) as (q' & Hd & Hp' & Hc'); [lia|].
    exists q'. cbn [drain]. rewrite HF, Hd, Hp. cbn [firstn skipn]. auto.
Qed.

(** X3: the queue gives its nodes back in the order they were pushed.  On a
    queue whose cursor is inside its slice, after some nodes are pushed, as
    many calls of Front as there are nodes waiting return the nodes that
    waited before, then the pushed ones, in order; Len is then 0 and one more
    Front is the panic of an index out of range.  Len counts the nodes
    waiting. *)
Theorem queue_is_first_in_first_out (q : liquidQueue) (l : list liquidNode) :
  0 <= qi q <= Z.of_nat (length (nodes q)) ->
  let q1 := fold_left (PushBack env) l q in
  QLen q1 = QLen q + Z.of_nat (length l)
  /\ exists q2,
       drain (length (pending q) + length l) q1 = Some (pending q ++ l, q2)
       /\ QLen q2 = 0
       /\ Front q2 = None.
Proof.
  intros H q1. destruct (pending_pushAll l q H) as [Hp Hc]. fold q1 in Hp, Hc.
  split.
  - rewrite !QLen_pending by assumption. rewrite Hp, length_app. lia.
  - destruct (drain_pending (length (pending q) + length l) q1 Hc) as (q2 & Hd & Hp2 & Hc2).
    { rewrite Hp, length_app. lia. }
    exists q2. rewrite Hp in Hd, Hp2.
    rewrite firstn_all2 in Hd by (rewrite length_app; lia).
    rewrite skipn_all2 in Hp2 by (rewrite length_app; lia).
    split; [exact Hd|]. split.
    + rewrite QLen_pending by exact Hc2. rewrite Hp2. reflexivity.
    + apply Front_empty; assumption.
Qed.

End QueueOrder.

(** Three nodes pushed on a new queue. *)
Lemma three_nodes_come_back_in_order :
  let l := [mkNode 1 0 6 None; mkNode 2 0 4 None; mkNode 3 0 2 None] in
  0 <= qi newQueue <= Z.of_nat (length (nodes newQueue))
  /\ exists q2,
       drain 3 (fold_left (PushBack sampleEnv) l newQueue) = Some (l, q2)
       /\ QLen q2 = 0 /\ Front q2 = None.
Proof.
  cbv zeta.
  assert (H : 0 <= qi newQueue <= Z.of_nat (length (nodes newQueue))) by (cbn; lia).
  split; [exact H|].
  exact (proj2 (queue_is_first_in_first_out sampleEnv newQueue
                  [mkNode 1 0 6 None; mkNode 2 0 4 None; mkNode 3 0 2 None] H)).
Defined.

(** ** The paths of the search *)

Section SearchPaths.

Variable env : Env.

Lemma spreadNeighbour_detail b src g node q :
  let r := spreadNeighbour env b src g node q in
  r = (false, q)
  \/ (0 < int8 (node_depth node + 3)
      /\ Len node <= shortestPath q
      /\ canFlowInto b g (node_x node, py src, node_z node) true = true
      /\ ((r = (true, q)
           /\ canFlowInto b g (node_x node, int (py src - 1), node_z node) false = true)
          \/ r = (false, PushBack env q node))).
Proof.
  unfold spreadNeighbour.
  destruct (int8 (node_depth node + 3) <=? 0) eqn:Hd; [now left|].
  destruct (Len node >? shortestPath q) eqn:Hl; [now left|].
  apply Z.leb_gt in Hd. rewrite Z.gtb_ltb in Hl. apply Z.ltb_ge in Hl.
  destruct (canFlowInto b g (node_x node, py src, node_z node) true) eqn:Hs;
    cbn [negb]; [|now left].
  cbn [px py pz fst snd].
  destruct (canFlowInto b g (node_x node, int (py src - 1), node_z node) false) eqn:Hb;
    right; repeat split; auto.
Qed.

Lemma neighbourList_shape node decay neigh :
  In neigh (neighbourList node decay) ->
  forall y,
  exists x z,
    neigh = mkNode x z (int8 (node_depth node - decay)) (Some node)
    /\ In (x, y, z) (horizontalNeighbours (node_x node, y, node_z node)).
Proof.
  intros Hin y. unfold neighbourList, neighbours in Hin. cbn [In] in Hin.
  unfold horizontalNeighbours. cbn [px py pz fst snd In].
  destruct Hin as [<-|[<-|[<-|[<-|[]]]]]; eexists _, _; split; try reflexivity; auto.
Qed.

Lemma visit_ok b pos g displacer first node neigh lvl q paths :
  SearchInv lvl q paths -> links node = lvl -> (lvl <= 127)%nat ->
  chainOK b pos g displacer node ->
  (first = false -> (1 <= links node)%nat) ->
  In neigh (neighbourList node (int8 (int8 (SpreadDecay b) * 2))) ->
  Forall (chainOK b pos g displacer) (pending q) ->
  Forall (fun n => (1 <= links n)%nat) (pending q) ->
  Forall (terminalOK b pos g displacer) paths ->
  exists q' paths',
    visit env b pos g displacer first neigh (Going q paths) = Going q' paths'
    /\ SearchInv lvl q' paths'
    /\ Forall (chainOK b pos g displacer) (pending q')
    /\ Forall (fun n => (1 <= links n)%nat) (pending q')
    /\ Forall (terminalOK b pos g displacer) paths'.
Proof.
  intros Hinv Hl Hlvl Hnode Hfirst Hin Hpend Hpos Hpaths.
  destruct (neighbourList_shape _ _ _ Hin (py pos)) as (x & z & -> & Hadj).
  set (neigh := mkNode x z (int8 (node_depth node - int8 (int8 (SpreadDecay b) * 2)))
                  (Some node)) in *.
  assert (Hln : links neigh = S lvl) by (cbn; congruence).
  destruct (visit_inv env b pos g displacer first neigh lvl q paths Hinv Hln Hlvl)
    as (q' & paths' & Hv & Hinv' & _ & _).
  exists q', paths'. split; [exact Hv|]. split; [exact Hinv'|].
  unfold visit in Hv.
  destruct (negb first || sideOpen displacer pos (node_x neigh, py pos, node_z neigh)) eqn:Hopen.
  2:{ inversion Hv; subst. auto. }
  pose proof (spreadNeighbour_detail b pos g neigh q) as Hd. cbv zeta in Hd.
  destruct Hd as [Hd|(Hdepth & Hlen & Hside & Hd)].
  { rewrite Hd in Hv. inversion Hv; subst. auto. }
  assert (Hok : chainOK b pos g displacer neigh).
  { cbn [chainOK neigh]. repeat split; auto.
    intros H0. destruct first.
    - cbn [negb orb] in Hopen. exact Hopen.
    - specialize (Hfirst eq_refl). lia. }
  destruct Hd as [[Hd Hbelow]|Hd]; rewrite Hd in Hv.
  - destruct (Path neigh pos) as [path|] eqn:HP; inversion Hv; subst.
    split; [exact Hpend|]. split; [exact Hpos|].
    apply Forall_app. split; [exact Hpaths|]. constructor; [|constructor].
    exists neigh. split; [exact Hok|]. rewrite Hln.
    split; [lia|]. split; [lia|]. split; [exact HP|exact Hbelow].
  - inversion Hv; subst.
    rewrite pending_PushBack by (apply Hinv).
    split; [|split; [|exact Hpaths]].
    + apply Forall_app. split; [exact Hpend|]. constructor; [exact Hok|constructor].
    + apply Forall_app. split; [exact Hpos|]. constructor; [lia|constructor].
Qed.

Lemma expand_ok b pos g displacer first node lvl q paths :
  SearchInv lvl q paths -> links node = lvl -> (lvl <= 127)%nat ->
  chainOK b pos g displacer node ->
  (first = false -> (1 <= links node)%nat) ->
  Forall (chainOK b pos g displacer) (pending q) ->
  Forall (fun n => (1 <= links n)%nat) (pending q) ->
  Forall (terminalOK b pos g displacer) paths ->
  exists q' paths',
    expand env b pos g displacer (int8 (SpreadDecay b)) first node (Going q paths)
    = Going q' paths'
    /\ SearchInv lvl q' paths'
    /\ Forall (chainOK b pos g displacer) (pending q')
    /\ Forall (fun n => (1 <= links n)%nat) (pending q')
    /\ Forall (terminalOK b pos g displacer) paths'.
Proof.
  intros Hinv Hl Hlvl Hnode Hfirst Hpend Hpos Hpaths.
  unfold expand.
  assert (Hall : forall neigh,
             In neigh (let '(a, b0, c, d) :=
                         neighbours node (int8 (int8 (SpreadDecay b) * 2)) in [a; b0; c; d]) ->
             In neigh (neighbourList node (int8 (int8 (SpreadDecay b) * 2)))) by auto.
  destruct (neighbours node (int8 (int8 (SpreadDecay b) * 2))) as [[[nA nB] nC] nD] eqn:En.
  unfold neighbourList in Hall. rewrite En in Hall.
  destruct (visit_ok b pos g displacer first node nA lvl q paths Hinv Hl Hlvl Hnode Hfirst)
    as (qa & pa & -> & Ha & Hca & Hpa & Hta); auto.
  { unfold neighbourList. rewrite En. cbn. auto. }
  destruct (visit_ok b pos g displacer first node nB lvl qa pa Ha Hl Hlvl Hnode Hfirst)
    as (qb & pb & -> & Hb & Hcb & Hpb & Htb); auto.
  { unfold neighbourList. rewrite En. cbn. auto. }
  destruct (visit_ok b pos g displacer first node nC lvl qb pb Hb Hl Hlvl Hnode Hfirst)
    as (qc & pc & -> & Hc & Hcc & Hpc & Htc); auto.
  { unfold neighbourList. rewrite En. cbn. auto. }
  destruct (visit_ok b pos g displacer first node nD lvl qc pc Hc Hl Hlvl Hnode Hfirst)
    as (qd & pd & -> & Hd & Hcd & Hpd & Htd); auto.
  { unfold neighbourList. rewrite En. cbn. auto. }
  exists qd, pd. auto.
Qed.

Lemma searchLoop_ok b pos g displacer (fuel : nat) :
  forall first lvl q paths r,
    SearchInv lvl q paths ->
    Forall (chainOK b pos g displacer) (pending q) ->
    (first = true -> length (pending q) = 1%nat) ->
    (first = false -> Forall (fun n => (1 <= links n)%nat) (pending q)) ->
    Forall (terminalOK b pos g displacer) paths ->
    searchLoop env fuel b pos g displacer (int8 (SpreadDecay b)) first q paths = Some r ->
    exists q' paths',
      r = Going q' paths' /\ Forall (terminalOK b pos g displacer) paths'.
Proof.
  induction fuel as [|fuel IH]; intros first lvl q paths r Hinv Hpend H1 Hpos Hpaths Hr.
  - cbn [searchLoop] in Hr. destruct (QLen q =? 0); [|discriminate].
    inversion Hr; subst. eauto.
  - cbn [searchLoop] in Hr. destruct (QLen q =? 0) eqn:Hq.
    { inversion Hr; subst. eauto. }
    apply Z.eqb_neq in Hq.
    destruct (Front_pending q (inv_cursor _ _ _ Hinv) Hq) as (n0 & q0 & HF0 & Hpq & _).
    destruct (Front_inv lvl q paths Hinv Hq) as (n & q1 & lvl' & HF & Hl & Hle & Hinv1 & _).
    rewrite HF0 in HF. inversion HF; subst n0 q0. clear HF.
    rewrite HF0 in Hr. rewrite Hpq in Hpend.
    inversion Hpend as [|? ? Hn Hrest]; subst.
    assert (Hfirst : first = false -> (1 <= links n)%nat).
    { intros Hf. specialize (Hpos Hf). rewrite Hpq in Hpos. now inversion Hpos. }
    assert (Hpos1 : Forall (fun m => (1 <= links m)%nat) (pending q1)).
    { destruct first.
      - specialize (H1 eq_refl). rewrite Hpq in H1. cbn [length] in H1.
        destruct (pending q1); [constructor|discriminate].
      - specialize (Hpos eq_refl). rewrite Hpq in Hpos. now inversion Hpos. }
    destruct (expand_ok b pos g displacer first n (links n) q1 paths Hinv1 eq_refl Hle Hn
                Hfirst Hrest Hpos1 Hpaths)
      as (q2 & paths2 & He & Hinv2 & Hc2 & Hp2 & Ht2).
    rewrite He in Hr.
    apply (IH false (links n) q2 paths2 r Hinv2 Hc2); auto. discriminate.
Qed.

(** The paths of calculateLiquidPaths come from chains of the search. *)
Lemma calculateLiquidPaths_terminals fuel b pos displacer st paths st' :
  poolReset st ->
  calculateLiquidPaths env fuel b pos displacer st = Ok paths st' ->
  Forall (terminalOK b pos (grid st) displacer) paths.
Proof.
  intros Hpool Hc. unfold calculateLiquidPaths in Hc.
  destruct (poolGet_isReset (pool st) Hpool) as [Hq _].
  destruct (poolGet (pool st)) as [q0 rest]. cbn [fst] in Hq.
  destruct (searchFrom env fuel b pos (grid st) displacer q0) as [r|] eqn:Hr; [|discriminate].
  unfold searchFrom in Hr.
  set (seed := mkNode (px pos) (pz pos) (int8 (LiquidDepth b)) None) in *.
  destruct (SearchInv_start env q0 seed Hq eq_refl) as [Hinv _].
  assert (Hp : pending (PushBack env q0 seed) = [seed]).
  { destruct Hq as (Hn & Hi & _). unfold pending. cbn [PushBack nodes qi].
    rewrite Hn, Hi. reflexivity. }
  destruct (searchLoop_ok b pos (grid st) displacer fuel true 0%nat _ [] r Hinv)
    as (q' & paths' & -> & Hall); auto.
  - rewrite Hp. constructor; [|constructor]. cbn. auto.
  - intros _. rewrite Hp. reflexivity.
  - discriminate.
  - inversion Hc; subst. exact Hall.
Qed.

End SearchPaths.

Section SearchPathsShape.

Variable env : Env.

Lemma last_cons_default {A : Type} (l : list A) (a d : A) :
  last (a :: l) d = last l a.
Proof.
  revert a d. induction l as [|x l IH]; intros a d; [reflexivity|].
  change (last (a :: x :: l) d) with (last (x :: l) d).
  rewrite (IH x d), (IH x a). reflexivity.
Qed.

Lemma linkedFrom_app (l : list Pos) (prev c : Pos) :
  linkedFrom prev l -> In c (horizontalNeighbours (last l prev)) ->
  linkedFrom prev (l ++ [c]).
Proof.
  revert prev. induction l as [|a l IH]; intros prev Hl Hc.
  - cbn in *. auto.
  - cbn [app linkedFrom] in *. destruct Hl as [Ha Hl]. split; [exact Ha|].
    apply IH; [exact Hl|]. rewrite last_cons_default in Hc. exact Hc.
Qed.

Lemma chainOK_last b pos g displacer n :
  chainOK b pos g displacer n ->
  last (chainPositions n pos) pos = (node_x n, py pos, node_z n).
Proof.
  destruct n as [x z d [p|]]; cbn [chainOK chainPositions node_x node_z].
  - intros _. apply last_last.
  - intros (-> & -> & _). destruct pos as [[px0 py0] pz0]. reflexivity.
Qed.

Lemma chainOK_linked b pos g displacer n :
  chainOK b pos g displacer n -> linkedFrom pos (chainPositions n pos).
Proof.
  induction n as [x z d|x z d p IH] using liquidNode_induction;
    cbn [chainOK chainPositions].
  - intros _. exact I.
  - intros (Hp & Hadj & _). apply linkedFrom_app; [apply IH; exact Hp|].
    rewrite (chainOK_last b pos g displacer p Hp). exact Hadj.
Qed.

Lemma chainOK_cells b pos g displacer n :
  chainOK b pos g displacer n ->
  Forall (fun c => canFlowInto b g c true = true) (chainPositions n pos).
Proof.
  induction n as [x z d|x z d p IH] using liquidNode_induction;
    cbn [chainOK chainPositions].
  - intros _. constructor.
  - intros (Hp & _ & _ & _ & Hc & _). apply Forall_app. split; [apply IH; exact Hp|].
    constructor; [exact Hc|constructor].
Qed.

Lemma chainOK_first_side b pos g displacer n :
  chainOK b pos g displacer n -> (1 <= links n)%nat ->
  sideOpen displacer pos (hd pos (chainPositions n pos)) = true.
Proof.
  induction n as [x z d|x z d p IH] using liquidNode_induction;
    cbn [chainOK chainPositions links].
  - intros _ H. lia.
  - intros (Hp & _ & _ & _ & _ & Hside) _.
    destruct (chainPositions p pos) as [|c rest] eqn:Hcp.
    + apply Hside. rewrite <- (chainPositions_length pos p), Hcp. reflexivity.
    + cbn [app hd]. change c with (hd pos (c :: rest)). apply IH; [exact Hp|].
      rewrite <- (chainPositions_length pos p), Hcp. cbn. lia.
Qed.

Lemma chainOK_depth b pos g displacer n :
  1 <= SpreadDecay b <= 63 -> 0 <= LiquidDepth b <= 124 ->
  chainOK b pos g displacer n ->
  node_depth n = LiquidDepth b - 2 * SpreadDecay b * Z.of_nat (links n)
  /\ -3 < node_depth n <= 124.
Proof.
  intros Hdecay Hdepth.
  assert (Hk : int8 (int8 (SpreadDecay b) * 2) = 2 * SpreadDecay b).
  { rewrite (int8_small (SpreadDecay b)) by (unfold MaxInt8 in *; lia).
    rewrite int8_small by lia. lia. }
  induction n as [x z d|x z d p IH] using liquidNode_induction;
    cbn [chainOK links node_depth].
  - intros (_ & _ & ->). rewrite int8_small by lia. lia.
  - intros (Hp & _ & Hd & Hpos & _). destruct (IH Hp) as [Hdp Hrange].
    rewrite Hk in Hd. rewrite int8_small in Hd by lia.
    subst d. rewrite int8_small in Hpos by lia. lia.
Qed.

Lemma terminalOK_path b pos g displacer path :
  terminalOK b pos g displacer path ->
  exists n, chainOK b pos g displacer n /\ (1 <= links n)%nat
            /\ path = chainPositions n pos
            /\ canFlowInto b g (node_x n, int (py pos - 1), node_z n) false = true.
Proof.
  intros (n & Hn & H1 & H128 & HP & Hb). exists n.
  rewrite Path_chainPositions in HP by lia. inversion HP; subst. auto.
Qed.

(** X4: every path that calculateLiquidPaths returns leaves the cell of the
    liquid through a side that the displacer of that cell leaves open, goes
    from each cell to one of its four horizontal neighbours, passes only over
    cells that the liquid can flow into sideways, and ends on a cell with a
    cell below that the liquid can flow into. *)
Theorem search_paths_lead_over_open_cells_to_a_drop fuel b pos displacer st paths st' path :
  poolReset st ->
  calculateLiquidPaths env fuel b pos displacer st = Ok paths st' ->
  In path paths ->
  path <> []
  /\ sideOpen displacer pos (hd pos path) = true
  /\ linkedFrom pos path
  /\ Forall (fun c => canFlowInto b (grid st) c true = true) path
  /\ canFlowInto b (grid st) (SideDown (last path pos)) false = true.
Proof.
  intros Hpool Hc Hin.
  pose proof (calculateLiquidPaths_terminals env fuel b pos displacer st paths st' Hpool Hc)
    as Hall.
  rewrite Forall_forall in Hall.
  destruct (terminalOK_path _ _ _ _ _ (Hall path Hin)) as (n & Hn & H1 & -> & Hb).
  split.
  { intros He. apply (f_equal (@length Pos)) in He.
    rewrite chainPositions_length in He. cbn in He. lia. }
  split; [apply (chainOK_first_side b pos (grid st) displacer); assumption|].
  split; [apply (chainOK_linked b pos (grid st) displacer); assumption|].
  split; [apply (chainOK_cells b pos (grid st) displacer); assumption|].
  rewrite (chainOK_last b pos (grid st) displacer n Hn). exact Hb.
Qed.

(** X5: the paths of calculateLiquidPaths stay within the reach of the
    liquid: for a spread decay from 1 to 63 and a depth from 0 to 124, twice
    the spread decay times the length of a returned path is less than the
    depth of the liquid plus 3. *)
Theorem search_paths_stay_within_reach fuel b pos displacer st paths st' path :
  poolReset st ->
  1 <= SpreadDecay b <= 63 -> 0 <= LiquidDepth b <= 124 ->
  calculateLiquidPaths env fuel b pos displacer st = Ok paths st' ->
  In path paths ->
  2 * SpreadDecay b * Z.of_nat (length path) < LiquidDepth b + 3.
Proof.
  intros Hpool Hdecay Hdepth Hc Hin.
  pose proof (calculateLiquidPaths_terminals env fuel b pos displacer st paths st' Hpool Hc)
    as Hall.
  rewrite Forall_forall in Hall.
  destruct (terminalOK_path _ _ _ _ _ (Hall path Hin)) as (n & Hn & H1 & -> & Hb).
  rewrite chainPositions_length.
  destruct (chainOK_depth b pos (grid st) displacer n Hdecay Hdepth Hn) as [Hd Hr]. lia.
Qed.

End SearchPathsShape.

Lemma two_holes_paths_lead_to_the_holes :
  let b := water 8 false in
  let st := stateOf twoHolesGrid in
  let paths := [[(-1, 0, 0); (-2, 0, 0)]; [(1, 0, 0); (2, 0, 0)]] in
  let st1 := {| grid := twoHolesGrid; log := [];
                pool := [{| nodes := []; cap := 64; qi := 0; shortestPath := 127 |}] |} in
  let path := [(1, 0, 0); (2, 0, 0)] in
  poolReset st
  /\ calculateLiquidPaths sampleEnv 100 b (0, 0, 0) None st = Ok paths st1
  /\ In path paths
  /\ path <> []
  /\ sideOpen None (0, 0, 0) (hd (0, 0, 0) path) = true
  /\ linkedFrom (0, 0, 0) path
  /\ Forall (fun c => canFlowInto b (grid st) c true = true) path
  /\ canFlowInto b (grid st) (SideDown (last path (0, 0, 0))) false = true.
Proof.
  cbv zeta.
  assert (H1 : poolReset (stateOf twoHolesGrid)) by constructor.
  assert (H2 : calculateLiquidPaths sampleEnv 100 (water 8 false) (0, 0, 0) None
                 (stateOf twoHolesGrid)
               = Ok [[(-1, 0, 0); (-2, 0, 0)]; [(1, 0, 0); (2, 0, 0)]]
                   {| grid := twoHolesGrid; log := [];
                      pool := [{| nodes := []; cap := 64; qi := 0; shortestPath := 127 |}] |})
    by (vm_compute; reflexivity).
  assert (H3 : In [(1, 0, 0); (2, 0, 0)]
                 [[(-1, 0, 0); (-2, 0, 0)]; [(1, 0, 0); (2, 0, 0)]])
    by (right; left; reflexivity).
  split; [exact H1|]. split; [exact H2|]. split; [exact H3|].
  exact (search_paths_lead_over_open_cells_to_a_drop sampleEnv 100 (water 8 false) (0, 0, 0)
           None (stateOf twoHolesGrid) _ _ _ H1 H2 H3).
Defined.

Lemma two_holes_paths_within_reach :
  let b := water 8 false in
  let st := stateOf twoHolesGrid in
  let paths := [[(-1, 0, 0); (-2, 0, 0)]; [(1, 0, 0); (2, 0, 0)]] in
  let st1 := {| grid := twoHolesGrid; log := [];
                pool := [{| nodes := []; cap := 64; qi := 0; shortestPath := 127 |}] |} in
  let path := [(-1, 0, 0); (-2, 0, 0)] in
  poolReset st
  /\ 1 <= SpreadDecay b <= 63
  /\ 0 <= LiquidDepth b <= 124
  /\ calculateLiquidPaths sampleEnv 100 b (0, 0, 0) None st = Ok paths st1
  /\ In path paths
  /\ 2 * SpreadDecay b * Z.of_nat (length path) < LiquidDepth b + 3.
Proof.
  cbv zeta.
  assert (H1 : poolReset (stateOf twoHolesGrid)) by constructor.
  assert (H2 : 1 <= SpreadDecay (water 8 false) <= 63) by (cbn; lia).
  assert (H3 : 0 <= LiquidDepth (water 8 false) <= 124) by (cbn; lia).
  assert (H4 : calculateLiquidPaths sampleEnv 100 (water 8 false) (0, 0, 0) None
                 (stateOf twoHolesGrid)
               = Ok [[(-1, 0, 0); (-2, 0, 0)]; [(1, 0, 0); (2, 0, 0)]]
                   {| grid := twoHolesGrid; log := [];
                      pool := [{| nodes := []; cap := 64; qi := 0; shortestPath := 127 |}] |})
    by (vm_compute; reflexivity).
  assert (H5 : In [(-1, 0, 0); (-2, 0, 0)]
                 [[(-1, 0, 0); (-2, 0, 0)]; [(1, 0, 0); (2, 0, 0)]])
    by (left; reflexivity).
  split; [exact H1|]. split; [exact H2|]. split; [exact H3|]. split; [exact H4|].
  split; [exact H5|].
  exact (search_paths_stay_within_reach sampleEnv 100 (water 8 false) (0, 0, 0)
           None (stateOf twoHolesGrid) _ _ _ H1 H2 H3 H4 H5).
Defined.

(** ** The effects of a tick *)

Section TickEffects.

Variable env : Env.

Lemma runsWith_written {A : Type} P F T (st : State) (o : Outcome A) :
  runsWith P F T st o -> Forall P (written st o).
Proof.
  unfold runsWith, written. destruct o as [a st1|f st1|].
  - intros (es & -> & H). now rewrite skipn_length_app.
  - intros (_ & es & -> & H). now rewrite skipn_length_app.
  - intros _. constructor.
Qed.

Lemma runsWith_ret {A : Type} P F T (a : A) (st : State) : runsWith P F T st (ret a st).
Proof. cbn. exists []. rewrite app_nil_r. split; [reflexivity|constructor]. Qed.

Lemma runsWith_bind {A B : Type} P F T (c : M A) (k : A -> M B) (st : State) :
  runsWith P F T st (c st) ->
  (forall a st1, c st = Ok a st1 -> runsWith P F T st1 (k a st1)) ->
  runsWith P F T st (bind c k st).
Proof.
  intros Hc Hk. unfold bind.
  destruct (c st) as [a st1|f st1|] eqn:E; [|exact Hc|exact Hc].
  destruct Hc as (es1 & Hl1 & Hf1). specialize (Hk a st1 eq_refl).
  destruct (k a st1) as [r st2|f st2|]; cbn in *.
  - destruct Hk as (es2 & Hl2 & Hf2). exists (es1 ++ es2).
    rewrite Hl2, Hl1, app_assoc. split; [reflexivity|]. apply Forall_app; auto.
  - destruct Hk as (HF & es2 & Hl2 & Hf2). split; [exact HF|]. exists (es1 ++ es2).
    rewrite Hl2, Hl1, app_assoc. split; [reflexivity|]. apply Forall_app; auto.
  - exact Hk.
Qed.

Lemma runsWith_forEach {A : Type} P F T (f : A -> M unit) (l : list A) :
  (forall a, In a l -> forall st, runsWith P F T st (f a st)) ->
  forall st, runsWith P F T st (forEach f l st).
Proof.
  induction l as [|a l IH]; intros H st; cbn [forEach].
  - apply runsWith_ret.
  - apply runsWith_bind.
    + apply H. now left.
    + intros _ st1 _. apply IH. intros a' Ha'. apply H. now right.
Qed.

Lemma flowInto_halts b src pos falling st : flowInto env b src pos falling st <> OutOfFuel.
Proof.
  pose proof (flowInto_cases env b src pos falling st) as H. cbv zeta in H.
  destruct H as [H|[[H _]|[(t & _ & _ & H)|[(_ & st' & es & H & _)|(_ & _ & _ & st' & H)]]]];
    rewrite H; discriminate.
Qed.

Lemma flowInto_runsWith P F (T : Prop) b src pos falling :
  produces P (flowInto env b src pos falling) ->
  panicsOnly F (flowInto env b src pos falling) ->
  forall st, runsWith P F T st (flowInto env b src pos falling st).
Proof.
  intros Hp Hf st. specialize (Hp st). pose proof (Hf st) as Hf'.
  pose proof (flowInto_halts b src pos falling st) as Hh.
  destruct (flowInto env b src pos falling st) as [r st1|f st1|]; cbn.
  - destruct Hp as (_ & es & Hl & HP). eauto.
  - destruct Hp as (_ & es & Hl & HP). split; [eapply Hf'; reflexivity|eauto].
  - congruence.
Qed.

(** flowInto acts on nothing but the position it flows into. *)
Lemma flowInto_at b src pos falling :
  produces (fun e => effectPos e = pos) (flowInto env b src pos falling).
Proof.
  unfold flowInto.
  destruct (_ && negb falling). { apply produces_ret. }
  assert (HS : forall l, produces (fun e => effectPos e = pos) (SetLiquid pos l)).
  { intros l. apply (produces_one _ (ESetLiquid pos l)); [reflexivity|].
    intros st. eexists. reflexivity. }
  apply produces_bind.
  { intros st. unfold getGrid. split; [reflexivity|].
    exists []. rewrite app_nil_r. split; [reflexivity|constructor]. }
  intros g.
  destruct (as_Liquid (blockAt g pos)) as [existingLiquid|].
  - destruct (String.eqb _ _).
    + destruct (_ || _); [apply produces_ret|].
      destruct (HandleLiquidFlow _ _ _ _ _); [apply produces_ret|].
      apply produces_bind; [apply HS|]. intros _. apply produces_ret.
    + apply produces_bind; [|intros _; apply produces_ret].
      apply (produces_one _ (EHarden existingLiquid pos src)); [reflexivity|].
      intros st. eexists. reflexivity.
  - destruct (isSome (as_LiquidDisplacer (blockAt g pos)) && isSome (liquidAt g pos));
      [apply produces_ret|].
    destruct (negb (isSome (as_LiquidRemovable (blockAt g pos))) && _);
      [apply produces_ret|].
    destruct (HandleLiquidFlow _ _ _ _ _); [apply produces_ret|].
    apply produces_bind;
      [|intros _; apply produces_bind; [apply HS|intros _; apply produces_ret]].
    destruct (as_LiquidRemovable (blockAt g pos)) as [hasDrops|]; [|apply produces_ret].
    apply produces_bind.
    + destruct (negb (is_Air (blockAt g pos))); [|apply produces_ret].
      apply (produces_one _ (ESetBlock pos None)); [reflexivity|].
      intros st. eexists. reflexivity.
    + intros _. destruct hasDrops; [|apply produces_ret].
      destruct (as_Breakable (blockAt g pos)); [|apply produces_panic].
      apply produces_dropItems. intros d. reflexivity.
Qed.

Lemma produces_and {A : Type} (P Q : Effect -> Prop) (c : M A) :
  produces P c -> produces Q c -> produces (fun e => P e /\ Q e) c.
Proof.
  intros HP HQ st. specialize (HP st). specialize (HQ st).
  destruct (c st) as [a st1|f st1|]; [| |exact I].
  - destruct HP as (Hp & es & Hl & H1). destruct HQ as (_ & es' & Hl' & H2).
    rewrite Hl in Hl'. apply app_inv_head in Hl'. subst es'.
    split; [exact Hp|]. exists es. split; [exact Hl|].
    rewrite Forall_forall in *. auto.
  - destruct HP as (Hp & es & Hl & H1). destruct HQ as (_ & es' & Hl' & H2).
    rewrite Hl in Hl'. apply app_inv_head in Hl'. subst es'.
    split; [exact Hp|]. exists es. split; [exact Hl|].
    rewrite Forall_forall in *. auto.
Qed.

Lemma Neighbours_level (pos n : Pos) (r : Z * Z) :
  In n (Neighbours pos r) -> py n = py pos -> In n (horizontalNeighbours pos).
Proof.
  unfold Neighbours, horizontalNeighbours. intros Hin Hy.
  destruct ((py pos <? fst r) || (py pos >? snd r)); [contradiction|].
  cbn [app In] in Hin. destruct Hin as [H|[H|H]]; [now left|right; now left|].
  apply in_app_or in H. destruct H as [H|H].
  { destruct (int (py pos + 1) <=? snd r); [|contradiction].
    destruct H as [H|[]]. subst n. cbn [py fst snd] in Hy.
    exfalso. exact (int_succ_neq _ Hy). }
  apply in_app_or in H. destruct H as [H|H].
  { destruct (int (py pos - 1) >=? fst r); [|contradiction].
    destruct H as [H|[]]. subst n. cbn [py fst snd] in Hy.
    exfalso. exact (int_pred_neq _ Hy). }
  cbn [In] in *. tauto.
Qed.

(** The first cell of a path of calculateLiquidPaths is a horizontal
    neighbour of the liquid, on a side that the displacer leaves open. *)
Lemma calculateLiquidPaths_first_step fuel b pos displacer st paths st' first rest :
  poolReset st ->
  calculateLiquidPaths env fuel b pos displacer st = Ok paths st' ->
  In (first :: rest) paths ->
  In first (horizontalNeighbours pos) /\ sideOpen displacer pos first = true.
Proof.
  intros Hpool Hc Hin.
  pose proof (calculateLiquidPaths_terminals env fuel b pos displacer st paths st' Hpool Hc)
    as Hall.
  rewrite Forall_forall in Hall.
  destruct (terminalOK_path _ _ _ _ _ (Hall _ Hin)) as (n & Hn & H1 & Hp & _).
  pose proof (chainOK_linked b pos (grid st) displacer n Hn) as Hl.
  pose proof (chainOK_first_side b pos (grid st) displacer n Hn H1) as Hs.
  rewrite <- Hp in Hl, Hs. cbn [linkedFrom hd] in Hl, Hs.
  destruct Hl as [Hl _]. split; assumption.
Qed.

Lemma spread_runsWith P F (T : Prop) fuel b pos displacer canFlowBelow st :
  poolReset st ->
  T \/ (budget 127 <= fuel)%nat ->
  (forall t, In t (horizontalNeighbours pos) -> sideOpen displacer pos t = true ->
             forall st1, runsWith P F T st1 (flowInto env b pos t false st1)) ->
  runsWith P F T st (spread env fuel b pos displacer canFlowBelow st).
Proof.
  intros Hpool Hfuel Hflow. unfold spread.
  destruct (LiquidDepth b <=? SpreadDecay b); [apply runsWith_ret|].
  destruct (source b || negb canFlowBelow); [|apply runsWith_ret].
  assert (Hstep : forall t, In t (horizontalNeighbours pos) ->
                            sideOpen displacer pos t = true ->
                            forall st1, runsWith P F T st1
                                          ((flowInto env b pos t false ;;; ret tt) st1)).
  { intros t Ht Hs st1. apply runsWith_bind; [apply Hflow; assumption|].
    intros _ st2 _. apply runsWith_ret. }
  pose proof (calculateLiquidPaths_ok env fuel b pos displacer st Hpool) as Hok.
  pose proof (calculateLiquidPaths_first_step fuel b pos displacer st) as Hfirst.
  unfold bind.
  destruct (calculateLiquidPaths env fuel b pos displacer st) as [paths st1|f st1|] eqn:Hc.
  - destruct Hok as (_ & Hlog & _ & _).
    assert (Hrun : runsWith P F T st1
                     (match paths with
                      | [] => spreadOutwards env b pos displacer
                      | path0 :: _ => flowPaths env b pos (length path0) paths
                      end st1)).
    { destruct paths as [|path0 rest].
      - unfold spreadOutwards. apply runsWith_forEach. intros n Hn st2.
        destruct (py n =? py pos) eqn:Hy; [|apply runsWith_ret].
        destruct (sideOpen displacer pos n) eqn:Hs; [|apply runsWith_ret].
        apply Hstep; [|exact Hs].
        apply (Neighbours_level pos n (Range env) Hn). apply Z.eqb_eq. exact Hy.
      - unfold flowPaths. apply runsWith_forEach. intros path Hp st2.
        destruct (length path <=? length path0)%nat; [|apply runsWith_ret].
        destruct path as [|first more].
        + pose proof (calculateLiquidPaths_terminals env fuel b pos displacer st _ st1
                        Hpool Hc) as Hall.
          rewrite Forall_forall in Hall.
          destruct (terminalOK_path _ _ _ _ _ (Hall _ Hp)) as (n & _ & H1 & Hnil & _).
          apply (f_equal (@length Pos)) in Hnil. rewrite chainPositions_length in Hnil.
          cbn in Hnil. lia.
        + destruct (Hfirst _ st1 first more Hpool eq_refl Hp) as [Hadj Hs].
          apply Hstep; assumption. }
    unfold runsWith in *. rewrite <- Hlog.
    destruct (match paths with
              | [] => spreadOutwards env b pos displacer
              | path0 :: _ => flowPaths env b pos (length path0) paths
              end st1); exact Hrun.
  - contradiction.
  - destruct Hfuel as [HT|Hfuel]; [exact HT|].
    destruct (calculateLiquidPaths_terminates env fuel b pos displacer st Hpool Hfuel)
      as (paths & st1 & Hc'). congruence.
Qed.

(** The tick of a sustained liquid: the flow into the cell below, if that
    cell can be flowed into through an open side, then the spread of the
    liquid as it landed. *)
Lemma tickLiquid_runsWith P F (T : Prop) fuel b pos st :
  poolReset st ->
  T \/ (budget 127 <= fuel)%nat ->
  source b || sourceAround env b pos (grid st) = true ->
  let displacer := as_LiquidDisplacer (blockAt (grid st) pos) in
  let canFlowBelow := canFlowInto b (grid st) (SideDown pos) false in
  (canFlowBelow = true -> sideOpen displacer pos (SideDown pos) = true ->
   forall st1, runsWith P F T st1
                 (flowInto env (WithDepth b 8 true) pos (SideDown pos) true st1)) ->
  (forall t, In t (horizontalNeighbours pos) -> sideOpen displacer pos t = true ->
             forall st1, runsWith P F T st1
                           (flowInto env (landed b canFlowBelow) pos t false st1)) ->
  runsWith P F T st (tickLiquid env fuel b pos st).
Proof.
  intros Hpool Hfuel Hs displacer canFlowBelow Hdown Hside.
  rewrite (tickLiquid_sustained env fuel b pos st Hs).
  fold displacer canFlowBelow.
  apply runsWith_bind.
  - unfold flowDown. destruct (LiquidFalling b && negb canFlowBelow); [apply runsWith_ret|].
    destruct canFlowBelow eqn:Hc; [|apply runsWith_ret].
    destruct (sideOpen displacer pos (SideDown pos)) eqn:Ho; [|apply runsWith_ret].
    apply runsWith_bind; [apply Hdown; reflexivity|].
    intros _ st1 _. apply runsWith_ret.
  - intros b' st1 Hfd.
    assert (Hb' : b' = landed b canFlowBelow).
    { revert Hfd. unfold flowDown, landed.
      destruct (LiquidFalling b && negb canFlowBelow).
      { unfold ret. intros H. now inversion H. }
      destruct canFlowBelow.
      - destruct (sideOpen displacer pos (SideDown pos)).
        + unfold bind, ret.
          destruct (flowInto env (WithDepth b 8 true) pos (SideDown pos) true st);
            intros H; now inversion H.
        + unfold ret. intros H. now inversion H.
      - unfold ret. intros H. now inversion H. }
    subst b'.
    apply spread_runsWith; [|exact Hfuel|exact Hside].
    unfold poolReset in *.
    rewrite (flowDown_pool env b pos displacer canFlowBelow st _ st1 Hfd). exact Hpool.
Qed.

(** X6: the paths that calculateLiquidPaths returns have one length, so
    that the test of tickLiquid on the length of the first path keeps every
    one of them; the search writes nothing to the world and leaves the
    queues of the pool reset. *)
Theorem search_returns_paths_of_one_length fuel b pos displacer st paths st' :
  poolReset st ->
  calculateLiquidPaths env fuel b pos displacer st = Ok paths st' ->
  (forall p q, In p paths -> In q paths -> length p = length q)
  /\ minimalPaths paths = paths
  /\ grid st' = grid st /\ log st' = log st /\ poolReset st'.
Proof.
  intros Hpool Hc.
  pose proof (calculateLiquidPaths_ok env fuel b pos displacer st Hpool) as Hok.
  rewrite Hc in Hok. destruct Hok as (Hg & Hl & Hp & L & Hall).
  split; [|split; [exact (minimalPaths_same L paths Hall)|auto]].
  rewrite Forall_forall in Hall. intros p q Hp' Hq'.
  rewrite (Hall p Hp'), (Hall q Hq'). reflexivity.
Qed.

(** X7: a tick acts on its own cell or on its neighbours, never further.
    The tick of a liquid that is neither a source nor fed by one sets the
    liquid of its own cell and does nothing else; the tick of a sustained
    liquid acts only on the cell below and on the four horizontal
    neighbours, and only on those towards which the displacer of its cell, if
    there is one, leaves the side open. *)
Theorem tick_acts_on_its_cell_or_through_open_sides fuel b pos st :
  poolReset st ->
  Forall (fun e =>
            if source b || sourceAround env b pos (grid st)
            then (effectPos e = SideDown pos \/ In (effectPos e) (horizontalNeighbours pos))
                 /\ sideOpen (as_LiquidDisplacer (blockAt (grid st) pos)) pos (effectPos e)
                    = true
            else exists res, e = ESetLiquid pos res)
         (written st (tickLiquid env fuel b pos st)).
Proof.
  intros Hpool. destruct (source b || sourceAround env b pos (grid st)) eqn:Hs.
  - apply (runsWith_written _ (fun _ => True) True).
    apply tickLiquid_runsWith; [exact Hpool|left; exact I|exact Hs| |].
    + intros _ Ho. apply flowInto_runsWith; [|intros s f s' _; exact I].
      eapply produces_weaken; [|apply flowInto_at].
      intros e ->. auto.
    + intros t Ht Ho. apply flowInto_runsWith; [|intros s f s' _; exact I].
      eapply produces_weaken; [|apply flowInto_at].
      intros e ->. auto.
  - apply orb_false_iff in Hs. destruct Hs as [H1 H2].
    rewrite (tickLiquid_decay env fuel b pos st H1 H2). unfold decay.
    destruct (HandleLiquidDecay env pos b _).
    { unfold written, ret. rewrite skipn_all. constructor. }
    unfold written, SetLiquid. cbn [log]. rewrite skipn_length_app.
    constructor; [eauto|constructor].
Qed.

(** X8: a falling liquid that is fed and cannot flow down spreads as a
    liquid of depth 8, whatever its own depth: every liquid that its tick
    sets is set in one of the four horizontal neighbours, is of the type of
    the liquid, not falling, and of depth 8 less the spread decay. *)
Theorem landed_falling_liquid_spreads_with_depth_8 fuel b pos st :
  poolReset st ->
  LiquidFalling b = true ->
  sourceAround env b pos (grid st) = true ->
  canFlowInto b (grid st) (SideDown pos) false = false ->
  Forall (fun e =>
            match e with
            | ESetLiquid p l =>
                In p (horizontalNeighbours pos)
                /\ l = Some (WithDepth b (int (8 - SpreadDecay b)) false)
            | _ => True
            end)
         (written st (tickLiquid env fuel b pos st)).
Proof.
  intros Hpool Hfall Hfed Hbelow.
  apply (runsWith_written _ (fun _ => True) True).
  apply tickLiquid_runsWith; [exact Hpool|left; exact I| | |].
  - rewrite Hfed. apply orb_true_r.
  - rewrite Hbelow. discriminate.
  - rewrite Hbelow. unfold landed. rewrite Hfall. cbn [negb andb].
    intros t Ht Ho. apply flowInto_runsWith; [|intros s f s' _; exact I].
    eapply produces_weaken;
      [|apply (produces_and _ _ _ (flowInto_at (WithDepth b 8 true) pos t false)
                 (flowInto_produces env (WithDepth b 8 true) pos t false))].
    intros [p l|p bl|l p s|d p]; cbn; try tauto.
    intros (-> & _ & -> & _). split; [exact Ht|reflexivity].
Qed.

End TickEffects.

Lemma the_two_holes_paths_have_one_length :
  let b := water 8 false in
  let st := stateOf twoHolesGrid in
  let paths := [[(-1, 0, 0); (-2, 0, 0)]; [(1, 0, 0); (2, 0, 0)]] in
  let st1 := {| grid := twoHolesGrid; log := [];
                pool := [{| nodes := []; cap := 64; qi := 0; shortestPath := 127 |}] |} in
  poolReset st
  /\ calculateLiquidPaths sampleEnv 100 b (0, 0, 0) None st = Ok paths st1
  /\ (forall p q, In p paths -> In q paths -> length p = length q)
  /\ minimalPaths paths = paths
  /\ grid st1 = grid st /\ log st1 = log st /\ poolReset st1.
Proof.
  cbv zeta.
  assert (H1 : poolReset (stateOf twoHolesGrid)) by constructor.
  assert (H2 : calculateLiquidPaths sampleEnv 100 (water 8 false) (0, 0, 0) None
                 (stateOf twoHolesGrid)
               = Ok [[(-1, 0, 0); (-2, 0, 0)]; [(1, 0, 0); (2, 0, 0)]]
                   {| grid := twoHolesGrid; log := [];
                      pool := [{| nodes := []; cap := 64; qi := 0; shortestPath := 127 |}] |})
    by (vm_compute; reflexivity).
  split; [exact H1|]. split; [exact H2|].
  exact (search_returns_paths_of_one_length sampleEnv 100 (water 8 false) (0, 0, 0)
           None (stateOf twoHolesGrid) _ _ H1 H2).
Defined.

Lemma tick_of_the_two_holes_source_acts_on_its_neighbours :
  let b := water 8 false in
  let st := stateOf twoHolesGrid in
  poolReset st
  /\ Forall (fun e =>
               if source b || sourceAround sampleEnv b (0, 0, 0) (grid st)
               then (effectPos e = SideDown (0, 0, 0)
                     \/ In (effectPos e) (horizontalNeighbours (0, 0, 0)))
                    /\ sideOpen (as_LiquidDisplacer (blockAt (grid st) (0, 0, 0))) (0, 0, 0)
                         (effectPos e) = true
               else exists res, e = ESetLiquid (0, 0, 0) res)
            (written st (tickLiquid sampleEnv 100 b (0, 0, 0) st)).
Proof.
  cbv zeta.
  assert (H1 : poolReset (stateOf twoHolesGrid)) by constructor.
  split; [exact H1|].
  exact (tick_acts_on_its_cell_or_through_open_sides sampleEnv 100 (water 8 false) (0, 0, 0)
           (stateOf twoHolesGrid) H1).
Defined.

Lemma falling_water_of_depth_3_lands_and_spreads_with_depth_7 :
  let b := water 3 true in
  let st := stateOf landedGrid in
  poolReset st
  /\ LiquidFalling b = true
  /\ sourceAround sampleEnv b (0, 0, 0) (grid st) = true
  /\ canFlowInto b (grid st) (SideDown (0, 0, 0)) false = false
  /\ Forall (fun e =>
               match e with
               | ESetLiquid p l =>
                   In p (horizontalNeighbours (0, 0, 0))
                   /\ l = Some (WithDepth b (int (8 - SpreadDecay b)) false)
               | _ => True
               end)
            (written st (tickLiquid sampleEnv 2000 b (0, 0, 0) st)).
Proof.
  cbv zeta.
  assert (H1 : poolReset (stateOf landedGrid)) by constructor.
  assert (H2 : LiquidFalling (water 3 true) = true) by reflexivity.
  assert (H3 : sourceAround sampleEnv (water 3 true) (0, 0, 0) (grid (stateOf landedGrid))
               = true) by reflexivity.
  assert (H4 : canFlowInto (water 3 true) (grid (stateOf landedGrid)) (SideDown (0, 0, 0))
                 false = false) by reflexivity.
  split; [exact H1|]. split; [exact H2|]. split; [exact H3|]. split; [exact H4|].
  exact (landed_falling_liquid_spreads_with_depth_8 sampleEnv 2000 (water 3 true) (0, 0, 0)
           (stateOf landedGrid) H1 H2 H3 H4).
Defined.

(** The tick of the falling water of [landedGrid] sets water of depth 7 in
    the four neighbours. *)
Example landed_water_tick :
  written (stateOf landedGrid) (tickLiquid sampleEnv 2000 (water 3 true) (0, 0, 0)
                                  (stateOf landedGrid))
  = [ESetLiquid (1, 0, 0) (Some (water 7 false));
     ESetLiquid (-1, 0, 0) (Some (water 7 false));
     ESetLiquid (0, 0, 1) (Some (water 7 false));
     ESetLiquid (0, 0, -1) (Some (water 7 false))].
Proof. vm_compute. reflexivity. Qed.

(** ** What flowInto does to the block it flows into *)

Section FlowIntoBlocks.

Variable env : Env.

Lemma passes_depth_check (b : Liquid) (falling : bool) :
  falling = true \/ 0 < newDepthOf b falling ->
  (newDepthOf b falling <=? 0) && negb falling = false.
Proof.
  intros [->|H]; [apply andb_false_r|].
  apply andb_false_iff. left. apply Z.leb_gt. exact H.
Qed.

Lemma Pos_eqb_eq (p q : Pos) : Pos_eqb p q = true -> p = q.
Proof.
  destruct p as [[x y] z], q as [[x' y'] z']. unfold Pos_eqb. cbn [px py pz fst snd].
  intros H. apply andb_true_iff in H. destruct H as [H Hz].
  apply andb_true_iff in H. destruct H as [Hx Hy].
  apply Z.eqb_eq in Hx, Hy, Hz. congruence.
Qed.

(** X9: sourceAround does not look at the cell below: on two grids that
    hold the same except in the cell below the position the answer is the
    same. *)
Theorem sourceAround_ignores_the_cell_below b pos (g g' : Grid) :
  (forall p, p <> SideDown pos -> g p = g' p) ->
  sourceAround env b pos g = sourceAround env b pos g'.
Proof.
  intros Hsame. rewrite !sourceAround_existsb.
  induction (Neighbours pos (Range env)) as [|n l IH]; [reflexivity|].
  cbn [existsb]. rewrite IH. f_equal.
  unfold feeds. destruct (Z.eqb_spec (py n) (int (py pos - 1))) as [Hy|Hy]; [reflexivity|].
  assert (Hn : g n = g' n).
  { apply Hsame. intros ->. apply Hy. reflexivity. }
  unfold liquidAt, blockAt. rewrite Hn. reflexivity.
Qed.

(** X10: flowInto into a liquid of the type of the flowing liquid never
    panics and never lowers it: the state stays as it was, or the target was
    not falling and strictly shallower than the liquid that is set, and
    nothing but that liquid is set. *)
Theorem flowInto_only_deepens_a_liquid_of_its_type b src pos falling st t :
  as_Liquid (blockAt (grid st) pos) = Some t ->
  LiquidType t = LiquidType b ->
  exists r st',
    flowInto env b src pos falling st = Ok r st'
    /\ (st' = st
        \/ (r = true
            /\ LiquidDepth t < newDepthOf b falling /\ LiquidFalling t = false
            /\ log st'
               = log st ++ [ESetLiquid pos (Some (WithDepth b (newDepthOf b falling) falling))])).
Proof.
  intros HL Ht. unfold flowInto. fold (newDepthOf b falling).
  destruct ((newDepthOf b falling <=? 0) && negb falling); [unfold ret; eauto|].
  unfold bind, getGrid, ret, SetLiquid. rewrite HL, Ht, String.eqb_refl.
  destruct ((LiquidDepth t >=? newDepthOf b falling) || LiquidFalling t) eqn:E; [eauto|].
  destruct (HandleLiquidFlow env src pos _ _); [eauto|].
  apply orb_false_iff in E. destruct E as [E1 E2].
  rewrite Z.geb_leb in E1. apply Z.leb_gt in E1.
  eexists _, _. split; [reflexivity|]. right. cbn [log]. auto.
Qed.

(** X11: a block that is removable with liquid drops and breakable is
    washed away in this order: the block is removed, unless it is air, its
    drops are dropped at the position in their order, and the liquid is set
    last; the call returns true. *)
Theorem flowInto_breaks_the_block_then_drops_then_sets_the_liquid
    b src pos falling st (drops : list Item) :
  falling = true \/ 0 < newDepthOf b falling ->
  as_Liquid (blockAt (grid st) pos) = None ->
  isSome (as_LiquidDisplacer (blockAt (grid st) pos)) && isSome (liquidAt (grid st) pos)
  = false ->
  HandleLiquidFlow env src pos (WithDepth b (newDepthOf b falling) falling)
    (blockAt (grid st) pos) = false ->
  as_LiquidRemovable (blockAt (grid st) pos) = Some true ->
  as_Breakable (blockAt (grid st) pos) = Some drops ->
  exists st',
    flowInto env b src pos falling st = Ok true st'
    /\ log st'
       = log st
           ++ (if is_Air (blockAt (grid st) pos) then [] else [ESetBlock pos None])
           ++ map (fun d => EDropItem d pos) drops
           ++ [ESetLiquid pos (Some (WithDepth b (newDepthOf b falling) falling))].
Proof.
  intros Hok HL Hdis Hh Hrem Hbr. unfold flowInto. fold (newDepthOf b falling).
  rewrite (passes_depth_check b falling Hok).
  unfold bind at 1. unfold getGrid. rewrite HL, Hdis, Hrem, Hh, Hbr. cbn [isSome negb andb].
  destruct (is_Air (blockAt (grid st) pos)); cbn [negb].
  - unfold bind, ret. rewrite forEach_dropItem. unfold SetLiquid. cbn [grid log pool].
    eexists. split; [reflexivity|]. cbn [log app]. rewrite <- app_assoc. reflexivity.
  - unfold bind, ret, SetBlock. rewrite forEach_dropItem. unfold SetLiquid.
    cbn [grid log pool]. eexists. split; [reflexivity|]. cbn [log].
    rewrite <- !app_assoc. reflexivity.
Qed.

(** X12: whenever a horizontal flow into a block that is not a liquid
    succeeds, canFlowInto says that the block can be flowed into sideways:
    the path search never rules out a cell that flowInto would fill. *)
Theorem horizontal_flow_succeeds_only_where_canFlowInto_holds b src pos st st' :
  as_Liquid (blockAt (grid st) pos) = None ->
  flowInto env b src pos false st = Ok true st' ->
  canFlowInto b (grid st) pos true = true.
Proof.
  intros HL H. unfold canFlowInto. rewrite HL.
  destruct (is_Air (blockAt (grid st) pos)); [reflexivity|].
  destruct (as_LiquidRemovable (blockAt (grid st) pos)) as [hasDrops|] eqn:Hrem;
    [reflexivity|].
  unfold flowInto in H. cbn [negb andb] in H.
  destruct (int (LiquidDepth b - SpreadDecay b) <=? 0); cbn [andb] in H; [discriminate|].
  unfold bind at 1 in H. unfold getGrid in H. rewrite HL, Hrem in H.
  destruct (isSome (as_LiquidDisplacer (blockAt (grid st) pos))
            && isSome (liquidAt (grid st) pos)); [discriminate|].
  cbn [isSome negb andb] in H.
  destruct (as_LiquidDisplacer (blockAt (grid st) pos)) as [d|]; [|discriminate].
  cbn [negb].
  destruct (CanDisplace d (WithDepth b (int (LiquidDepth b - SpreadDecay b)) false));
    [reflexivity|discriminate].
Qed.

(** X13: a block that displaces source water only, in the way of
    sourceWaterDisplacer, and is not removable is never filled by a flow: a
    liquid of depth 8 at most with a spread decay of 1 at least neither
    flows into it sideways nor, as the falling liquid of depth 8 that a tick
    sends down, from above, and canFlowInto rules the block out in both
    directions. *)
Theorem source_water_displacer_is_never_flowed_into b src pos st d :
  as_Liquid (blockAt (grid st) pos) = None ->
  is_Air (blockAt (grid st) pos) = false ->
  as_LiquidRemovable (blockAt (grid st) pos) = None ->
  as_LiquidDisplacer (blockAt (grid st) pos) = Some d ->
  (forall l, CanDisplace d l = sourceWaterDisplacer_CanDisplace l) ->
  0 <= LiquidDepth b <= 8 -> 1 <= SpreadDecay b <= 127 ->
  flowInto env b src pos false st = Ok false st
  /\ flowInto env (WithDepth b 8 true) src pos true st = Ok false st
  /\ canFlowInto b (grid st) pos true = false
  /\ canFlowInto b (grid st) pos false = false.
Proof.
  intros HL Hair Hrem Hdis Hcan Hdepth Hdecay.
  assert (Hi : int (LiquidDepth b - SpreadDecay b) = LiquidDepth b - SpreadDecay b)
    by (apply int_small; lia).
  assert (Hside : forall f, CanDisplace d (WithDepth b (int (LiquidDepth b - SpreadDecay b)) f)
                            = false).
  { intros f. rewrite Hcan. unfold sourceWaterDisplacer_CanDisplace.
    cbn [WithDepth LiquidDepth]. rewrite Hi.
    replace (LiquidDepth b - SpreadDecay b =? 8) with false by (symmetry; apply Z.eqb_neq; lia).
    apply andb_false_r. }
  assert (Hdown : CanDisplace d (WithDepth (WithDepth b 8 true) 8 true) = false).
  { rewrite Hcan. unfold sourceWaterDisplacer_CanDisplace.
    cbn [WithDepth LiquidFalling negb]. rewrite andb_false_r. reflexivity. }
  split; [|split; [|split]].
  - unfold flowInto. cbn [negb]. destruct (_ && true); [reflexivity|].
    unfold bind, getGrid. rewrite HL, Hrem, Hdis. cbn [isSome negb andb].
    destruct (isSome (liquidAt (grid st) pos)); [reflexivity|].
    rewrite Hside. reflexivity.
  - unfold flowInto. cbn [negb]. rewrite andb_false_r.
    unfold bind, getGrid. rewrite HL, Hrem, Hdis. cbn [isSome negb andb].
    destruct (isSome (liquidAt (grid st) pos)); [reflexivity|].
    cbn [WithDepth LiquidDepth] in *. rewrite Hdown. reflexivity.
  - unfold canFlowInto. rewrite Hair, Hrem, Hdis, Hside. reflexivity.
  - unfold canFlowInto. rewrite Hair, Hrem, Hdis, Hside. reflexivity.
Qed.

(** X14: a block that displaces flowing water, in the way of
    flowingWaterDisplacer, is not removable and holds no liquid takes in
    water and nothing else: when no handler cancels, a horizontal flow of
    water sets the liquid and leaves the block in place, a flow of another
    liquid does nothing, and canFlowInto answers accordingly. *)
Theorem flowing_water_displacer_takes_in_water_only b src pos st d :
  as_Liquid (blockAt (grid st) pos) = None ->
  is_Air (blockAt (grid st) pos) = false ->
  as_LiquidRemovable (blockAt (grid st) pos) = None ->
  as_LiquidDisplacer (blockAt (grid st) pos) = Some d ->
  (forall l, CanDisplace d l = flowingWaterDisplacer_CanDisplace l) ->
  liquidAt (grid st) pos = None ->
  0 < int (LiquidDepth b - SpreadDecay b) ->
  HandleLiquidFlow env src pos (WithDepth b (int (LiquidDepth b - SpreadDecay b)) false)
    (blockAt (grid st) pos) = false ->
  canFlowInto b (grid st) pos true = String.eqb (LiquidType b) "water"
  /\ written st (flowInto env b src pos false st)
     = (if String.eqb (LiquidType b) "water"
        then [ESetLiquid pos (Some (WithDepth b (int (LiquidDepth b - SpreadDecay b)) false))]
        else [])
  /\ exists st', flowInto env b src pos false st
                 = Ok (String.eqb (LiquidType b) "water") st'.
Proof.
  intros HL Hair Hrem Hdis Hcan Hempty Hpos Hh.
  assert (Hc : CanDisplace d (WithDepth b (int (LiquidDepth b - SpreadDecay b)) false)
               = String.eqb (LiquidType b) "water").
  { rewrite Hcan. reflexivity. }
  split.
  { unfold canFlowInto. rewrite Hair, Hrem, Hdis. cbn [negb]. rewrite Hc.
    destruct (String.eqb (LiquidType b) "water"); reflexivity. }
  assert (Hf : flowInto env b src pos false st
               = if String.eqb (LiquidType b) "water"
                 then Ok true
                        {| grid := gridSetLiquid (grid st) pos
                                     (Some (WithDepth b (int (LiquidDepth b - SpreadDecay b))
                                              false));
                           log := log st
                                    ++ [ESetLiquid pos
                                          (Some (WithDepth b
                                                   (int (LiquidDepth b - SpreadDecay b))
                                                   false))];
                           pool := pool st |}
                 else Ok false st).
  { unfold flowInto. cbn [negb].
    replace (int (LiquidDepth b - SpreadDecay b) <=? 0) with false
      by (symmetry; apply Z.leb_gt; exact Hpos).
    cbn [andb]. unfold bind, getGrid, ret, SetLiquid.
    rewrite HL, Hrem, Hdis, Hempty. cbn [isSome negb andb]. rewrite Hc.
    destruct (String.eqb (LiquidType b) "water"); cbn [negb]; [rewrite Hh|]; reflexivity. }
  rewrite Hf. destruct (String.eqb (LiquidType b) "water").
  - unfold written. cbn [log]. rewrite skipn_length_app. split; [reflexivity|eauto].
  - unfold written. rewrite skipn_all. split; [reflexivity|eauto].
Qed.

End FlowIntoBlocks.

Lemma sourceAround_with_and_without_a_drop :
  let b := water 4 false in
  let g := planeWithNeighbour b (water 8 false) in
  let g' := updateCell g (0, -1, 0) (cellOf Air) in
  (forall p, p <> SideDown (0, 0, 0) -> g p = g' p)
  /\ sourceAround sampleEnv b (0, 0, 0) g = sourceAround sampleEnv b (0, 0, 0) g'.
Proof.
  cbv zeta.
  assert (H : forall p : Pos,
             p <> SideDown (0, 0, 0) ->
             planeWithNeighbour (water 4 false) (water 8 false) p
             = updateCell (planeWithNeighbour (water 4 false) (water 8 false))
                 (0, -1, 0) (cellOf Air) p).
  { intros p Hp. unfold updateCell at 1.
    destruct (Pos_eqb p (0, -1, 0)) eqn:E; [|reflexivity].
    apply Pos_eqb_eq in E. contradiction. }
  split; [exact H|].
  exact (sourceAround_ignores_the_cell_below sampleEnv (water 4 false) (0, 0, 0) _ _ H).
Defined.

Lemma water_of_depth_7_deepens_water_of_depth_2 :
  let b := water 8 false in
  let st := stateOf (planeWithNeighbour b (water 2 false)) in
  as_Liquid (blockAt (grid st) (1, 0, 0)) = Some (water 2 false)
  /\ LiquidType (water 2 false) = LiquidType b
  /\ exists r st',
       flowInto sampleEnv b (0, 0, 0) (1, 0, 0) false st = Ok r st'
       /\ (st' = st
           \/ (r = true
               /\ LiquidDepth (water 2 false) < newDepthOf b false
               /\ LiquidFalling (water 2 false) = false
               /\ log st'
                  = log st ++ [ESetLiquid (1, 0, 0)
                                 (Some (WithDepth b (newDepthOf b false) false))])).
Proof.
  cbv zeta.
  assert (H1 : as_Liquid (blockAt (grid (stateOf (planeWithNeighbour (water 8 false)
                                                    (water 2 false)))) (1, 0, 0))
               = Some (water 2 false)) by reflexivity.
  assert (H2 : LiquidType (water 2 false) = LiquidType (water 8 false)) by reflexivity.
  split; [exact H1|]. split; [exact H2|].
  exact (flowInto_only_deepens_a_liquid_of_its_type sampleEnv (water 8 false) (0, 0, 0)
           (1, 0, 0) false _ (water 2 false) H1 H2).
Defined.

Lemma water_breaks_a_flower_then_drops_it :
  let b := water 8 false in
  let st := stateOf (planeWithBlock b flower) in
  (false = true \/ 0 < newDepthOf b false)
  /\ as_Liquid (blockAt (grid st) (1, 0, 0)) = None
  /\ isSome (as_LiquidDisplacer (blockAt (grid st) (1, 0, 0)))
     && isSome (liquidAt (grid st) (1, 0, 0)) = false
  /\ HandleLiquidFlow sampleEnv (0, 0, 0) (1, 0, 0) (WithDepth b (newDepthOf b false) false)
       (blockAt (grid st) (1, 0, 0)) = false
  /\ as_LiquidRemovable (blockAt (grid st) (1, 0, 0)) = Some true
  /\ as_Breakable (blockAt (grid st) (1, 0, 0)) = Some ["flower"%string]
  /\ exists st',
       flowInto sampleEnv b (0, 0, 0) (1, 0, 0) false st = Ok true st'
       /\ log st'
          = log st
              ++ (if is_Air (blockAt (grid st) (1, 0, 0)) then []
                  else [ESetBlock (1, 0, 0) None])
              ++ map (fun d => EDropItem d (1, 0, 0)) ["flower"%string]
              ++ [ESetLiquid (1, 0, 0) (Some (WithDepth b (newDepthOf b false) false))].
Proof.
  cbv zeta.
  assert (H1 : false = true \/ 0 < newDepthOf (water 8 false) false)
    by (right; reflexivity).
  split; [exact H1|].
  split; [reflexivity|]. split; [reflexivity|]. split; [reflexivity|].
  split; [reflexivity|]. split; [reflexivity|].
  exact (flowInto_breaks_the_block_then_drops_then_sets_the_liquid sampleEnv (water 8 false)
           (0, 0, 0) (1, 0, 0) false (stateOf (planeWithBlock (water 8 false) flower))
           ["flower"%string] H1 eq_refl eq_refl eq_refl eq_refl eq_refl).
Defined.

Lemma water_flows_into_air_where_canFlowInto_holds :
  let b := water 8 false in
  let st := stateOf (planeWith b) in
  let st' := {| grid := gridSetLiquid (planeWith b) (1, 0, 0) (Some (water 7 false));
                log := [ESetLiquid (1, 0, 0) (Some (water 7 false))];
                pool := [] |} in
  as_Liquid (blockAt (grid st) (1, 0, 0)) = None
  /\ flowInto sampleEnv b (0, 0, 0) (1, 0, 0) false st = Ok true st'
  /\ canFlowInto b (grid st) (1, 0, 0) true = true.
Proof.
  cbv zeta.
  assert (H1 : as_Liquid (blockAt (grid (stateOf (planeWith (water 8 false)))) (1, 0, 0))
               = None) by reflexivity.
  assert (H2 : flowInto sampleEnv (water 8 false) (0, 0, 0) (1, 0, 0) false
                 (stateOf (planeWith (water 8 false)))
               = Ok true
                   {| grid := gridSetLiquid (planeWith (water 8 false)) (1, 0, 0)
                                (Some (water 7 false));
                      log := [ESetLiquid (1, 0, 0) (Some (water 7 false))];
                      pool := [] |}) by reflexivity.
  split; [exact H1|]. split; [exact H2|].
  exact (horizontal_flow_succeeds_only_where_canFlowInto_holds sampleEnv (water 8 false)
           (0, 0, 0) (1, 0, 0) (stateOf (planeWith (water 8 false))) _ H1 H2).
Defined.

Lemma water_source_stays_out_of_a_source_only_displacer :
  let b := water 8 false in
  let st := stateOf (planeWithBlock b sourceOnlyDisplacer) in
  let d := {| CanDisplace := sourceWaterDisplacer_CanDisplace;
              SideClosed := fun _ _ => false |} in
  as_Liquid (blockAt (grid st) (1, 0, 0)) = None
  /\ is_Air (blockAt (grid st) (1, 0, 0)) = false
  /\ as_LiquidRemovable (blockAt (grid st) (1, 0, 0)) = None
  /\ as_LiquidDisplacer (blockAt (grid st) (1, 0, 0)) = Some d
  /\ (forall l, CanDisplace d l = sourceWaterDisplacer_CanDisplace l)
  /\ 0 <= LiquidDepth b <= 8
  /\ 1 <= SpreadDecay b <= 127
  /\ flowInto sampleEnv b (0, 0, 0) (1, 0, 0) false st = Ok false st
  /\ flowInto sampleEnv (WithDepth b 8 true) (0, 0, 0) (1, 0, 0) true st = Ok false st
  /\ canFlowInto b (grid st) (1, 0, 0) true = false
  /\ canFlowInto b (grid st) (1, 0, 0) false = false.
Proof.
  cbv zeta.
  assert (H5 : forall l,
             CanDisplace {| CanDisplace := sourceWaterDisplacer_CanDisplace;
                            SideClosed := fun _ _ => false |} l
             = sourceWaterDisplacer_CanDisplace l) by (intros l; reflexivity).
  assert (H6 : 0 <= LiquidDepth (water 8 false) <= 8) by (cbn; lia).
  assert (H7 : 1 <= SpreadDecay (water 8 false) <= 127) by (cbn; lia).
  split; [reflexivity|]. split; [reflexivity|]. split; [reflexivity|].
  split; [reflexivity|]. split; [exact H5|]. split; [exact H6|]. split; [exact H7|].
  exact (source_water_displacer_is_never_flowed_into sampleEnv (water 8 false) (0, 0, 0)
           (1, 0, 0) (stateOf (planeWithBlock (water 8 false) sourceOnlyDisplacer)) _
           eq_refl eq_refl eq_refl eq_refl H5 H6 H7).
Defined.

Lemma water_source_flows_into_an_open_displacer :
  let b := water 8 false in
  let st := stateOf (planeWithBlock b openDisplacer) in
  let d := {| CanDisplace := flowingWaterDisplacer_CanDisplace;
              SideClosed := fun _ _ => false |} in
  as_Liquid (blockAt (grid st) (1, 0, 0)) = None
  /\ is_Air (blockAt (grid st) (1, 0, 0)) = false
  /\ as_LiquidRemovable (blockAt (grid st) (1, 0, 0)) = None
  /\ as_LiquidDisplacer (blockAt (grid st) (1, 0, 0)) = Some d
  /\ (forall l, CanDisplace d l = flowingWaterDisplacer_CanDisplace l)
  /\ liquidAt (grid st) (1, 0, 0) = None
  /\ 0 < int (LiquidDepth b - SpreadDecay b)
  /\ HandleLiquidFlow sampleEnv (0, 0, 0) (1, 0, 0)
       (WithDepth b (int (LiquidDepth b - SpreadDecay b)) false)
       (blockAt (grid st) (1, 0, 0)) = false
  /\ canFlowInto b (grid st) (1, 0, 0) true = String.eqb (LiquidType b) "water"
  /\ written st (flowInto sampleEnv b (0, 0, 0) (1, 0, 0) false st)
     = (if String.eqb (LiquidType b) "water"
        then [ESetLiquid (1, 0, 0)
                (Some (WithDepth b (int (LiquidDepth b - SpreadDecay b)) false))]
        else [])
  /\ exists st', flowInto sampleEnv b (0, 0, 0) (1, 0, 0) false st
                 = Ok (String.eqb (LiquidType b) "water") st'.
Proof.
  cbv zeta.
  assert (H5 : forall l,
             CanDisplace {| CanDisplace := flowingWaterDisplacer_CanDisplace;
                            SideClosed := fun _ _ => false |} l
             = flowingWaterDisplacer_CanDisplace l) by (intros l; reflexivity).
  assert (H7 : 0 < int (LiquidDepth (water 8 false) - SpreadDecay (water 8 false)))
    by reflexivity.
  split; [reflexivity|]. split; [reflexivity|]. split; [reflexivity|].
  split; [reflexivity|]. split; [exact H5|]. split; [reflexivity|]. split; [exact H7|].
  split; [reflexivity|].
  exact (flowing_water_displacer_takes_in_water_only sampleEnv (water 8 false) (0, 0, 0)
           (1, 0, 0) (stateOf (planeWithBlock (water 8 false) openDisplacer)) _
           eq_refl eq_refl eq_refl eq_refl H5 eq_refl H7 eq_refl).
Defined.

(** ** How a tick ends *)

Section TickEnds.

Variable env : Env.

(** X15: when the handler cancels every decay and every flow, a tick sets
    no liquid, removes no block and drops no item, and it does not panic: it
    returns, and all it has done is the hardening of liquids of another type
    that it flowed at. *)
Theorem cancelled_tick_only_hardens b pos st :
  poolReset st ->
  (forall p l r, HandleLiquidDecay env p l r = true) ->
  (forall s p l e, HandleLiquidFlow env s p l e = true) ->
  exists fuel0, forall fuel, (fuel0 <= fuel)%nat ->
    (exists st', tickLiquid env fuel b pos st = Ok tt st')
    /\ Forall (fun e => exists l p s, e = EHarden l p s)
              (written st (tickLiquid env fuel b pos st)).
Proof.
  intros Hpool Hdecay Hflow. exists (budget 127). intros fuel Hfuel.
  destruct (source b || sourceAround env b pos (grid st)) eqn:Hs.
  - assert (Hbase : forall b' t falling st1,
               runsWith (fun e => exists l p s, e = EHarden l p s) (fun _ => False) False st1
                 (flowInto env b' pos t falling st1)).
    { intros b' t falling st1.
      pose proof (flowInto_cases env b' pos t falling st1) as H. cbv zeta in H.
      destruct H as [H|[[H _]|[(l & _ & _ & H)|[(Hh & _)|(Hh & _)]]]].
      - rewrite H. apply (runsWith_ret _ _ _ false).
      - rewrite H. apply (runsWith_ret _ _ _ true).
      - rewrite H. cbn. exists [EHarden l t pos]. split; [reflexivity|].
        constructor; [eauto|constructor].
      - rewrite Hflow in Hh. discriminate.
      - rewrite Hflow in Hh. discriminate. }
    assert (Hrun : runsWith (fun e => exists l p s, e = EHarden l p s) (fun _ => False) False
                     st (tickLiquid env fuel b pos st)).
    { apply tickLiquid_runsWith; [exact Hpool|right; exact Hfuel|exact Hs| |].
      - intros _ _. apply Hbase.
      - intros t _ _. apply Hbase. }
    split; [|exact (runsWith_written _ _ _ _ _ Hrun)].
    destruct (tickLiquid env fuel b pos st) as [[] st'|f st'|]; cbn in Hrun.
    + eauto.
    + destruct Hrun as [[] _].
    + contradiction.
  - apply orb_false_iff in Hs. destruct Hs as [H1 H2].
    rewrite (tickLiquid_decay env fuel b pos st H1 H2). unfold decay.
    rewrite Hdecay. unfold ret, written. rewrite skipn_all.
    split; [eauto|constructor].
Qed.

(** X16: every tick ends.  From some amount of fuel on, one unit for each
    node that the path search takes from its queue, tickLiquid returns, or
    stops on the panic of a block with liquid drops that is not breakable;
    nothing else can happen. *)
Theorem tick_always_ends b pos st :
  poolReset st ->
  exists fuel0, forall fuel, (fuel0 <= fuel)%nat ->
    exists st',
      tickLiquid env fuel b pos st = Ok tt st'
      \/ tickLiquid env fuel b pos st = Panic LiquidDropsNotBreakable st'.
Proof.
  intros Hpool. exists (budget 127). intros fuel Hfuel.
  destruct (source b || sourceAround env b pos (grid st)) eqn:Hs.
  - assert (Hbase : forall b' t falling st1,
               runsWith (fun _ => True) (fun f => f = LiquidDropsNotBreakable) False st1
                 (flowInto env b' pos t falling st1)).
    { intros b' t falling. apply flowInto_runsWith; [|apply flowInto_panicsOnly].
      eapply produces_weaken; [|apply flowInto_at]. intros e _. exact I. }
    assert (Hrun : runsWith (fun _ => True) (fun f => f = LiquidDropsNotBreakable) False
                     st (tickLiquid env fuel b pos st)).
    { apply tickLiquid_runsWith; [exact Hpool|right; exact Hfuel|exact Hs| |].
      - intros _ _. apply Hbase.
      - intros t _ _. apply Hbase. }
    destruct (tickLiquid env fuel b pos st) as [[] st'|f st'|]; cbn in Hrun.
    + eauto.
    + destruct Hrun as [-> _]. eauto.
    + contradiction.
  - apply orb_false_iff in Hs. destruct Hs as [H1 H2].
    rewrite (tickLiquid_decay env fuel b pos st H1 H2). unfold decay.
    destruct (HandleLiquidDecay env pos b _); unfold ret, SetLiquid; eauto.
Qed.

End TickEnds.

Lemma cancelled_tick_of_water_beside_lava :
  let b := water 8 false in
  let st := stateOf (planeWithNeighbour b (lava 8 false)) in
  poolReset st
  /\ (forall p l r, HandleLiquidDecay cancellingEnv p l r = true)
  /\ (forall s p l e, HandleLiquidFlow cancellingEnv s p l e = true)
  /\ exists fuel0, forall fuel, (fuel0 <= fuel)%nat ->
       (exists st', tickLiquid cancellingEnv fuel b (0, 0, 0) st = Ok tt st')
       /\ Forall (fun e => exists l p s, e = EHarden l p s)
                 (written st (tickLiquid cancellingEnv fuel b (0, 0, 0) st)).
Proof.
  cbv zeta.
  assert (H1 : poolReset (stateOf (planeWithNeighbour (water 8 false) (lava 8 false))))
    by constructor.
  assert (H2 : forall p l r, HandleLiquidDecay cancellingEnv p l r = true)
    by (intros p l r; reflexivity).
  assert (H3 : forall s p l e, HandleLiquidFlow cancellingEnv s p l e = true)
    by (intros s p l e; reflexivity).
  split; [exact H1|]. split; [exact H2|]. split; [exact H3|].
  exact (cancelled_tick_only_hardens cancellingEnv (water 8 false) (0, 0, 0)
           (stateOf (planeWithNeighbour (water 8 false) (lava 8 false))) H1 H2 H3).
Defined.

(** With every interaction cancelled, the tick of a water source beside lava
    hardens the lava and does nothing else. *)
Example cancelled_tick_hardens_the_lava :
  written (stateOf (planeWithNeighbour (water 8 false) (lava 8 false)))
    (tickLiquid cancellingEnv 2000 (water 8 false) (0, 0, 0)
       (stateOf (planeWithNeighbour (water 8 false) (lava 8 false))))
  = [EHarden (lava 8 false) (1, 0, 0) (0, 0, 0)].
Proof. vm_compute. reflexivity. Qed.

Lemma tick_of_a_misconfigured_plane_ends :
  let b := water 8 false in
  let st := stateOf (planeWithBlock b misconfigured) in
  poolReset st
  /\ exists fuel0, forall fuel, (fuel0 <= fuel)%nat ->
       exists st',
         tickLiquid sampleEnv fuel b (0, 0, 0) st = Ok tt st'
         \/ tickLiquid sampleEnv fuel b (0, 0, 0) st = Panic LiquidDropsNotBreakable st'.
Proof.
  cbv zeta.
  assert (H1 : poolReset (stateOf (planeWithBlock (water 8 false) misconfigured)))
    by constructor.
  split; [exact H1|].
  exact (tick_always_ends sampleEnv (water 8 false) (0, 0, 0)
           (stateOf (planeWithBlock (water 8 false) misconfigured)) H1).
Defined.

(** ** The fence model *)

Section FenceFacts.

Variable Other : Type.
Variable FenceGate_FaceSolid : Pos -> model.Face -> model.BlockSource Other -> bool.
Variable Other_FaceSolid : Other -> Pos -> model.Face -> model.BlockSource Other -> bool.
Variable Side : Pos -> model.Face -> Pos.
Variable BBoxT : Type.
Variable Box : Q -> Q -> Q -> Q -> Q -> Q -> BBoxT.
Variable Stretch : BBoxT -> model.Axis -> Q -> BBoxT.
Variable ExtendTowards : BBoxT -> model.Face -> Q -> BBoxT.

Lemma checkFenceConnection_fence (f g : model.Fence) (p : Pos) (face : model.Face)
    (s : model.BlockSource Other) :
  face <> model.FaceDown -> face <> model.FaceUp ->
  s (Side p face) = model.ofFence g ->
  model.checkFenceConnection Other FenceGate_FaceSolid Other_FaceSolid Side f p face s
  = Bool.eqb (model.Wood g) (model.Wood f).
Proof.
  intros Hd Hu Hs. unfold model.checkFenceConnection. rewrite Hs.
  cbn [model.Model_FaceSolid]. unfold model.FaceSolid.
  destruct face; try contradiction; cbn [model.Face_eqb orb]; rewrite orb_false_r;
    destruct (Bool.eqb _ _); reflexivity.
Qed.

(** X17: two fences side by side agree on their connection.  On a
    horizontal face a fence is connected to a neighbouring fence exactly when
    the two are of the same material, Wood, and then the neighbour is
    connected to it as well. *)
Theorem neighbouring_fences_agree_on_their_connection (f g : model.Fence) (p q : Pos)
    (face back : model.Face) (s : model.BlockSource Other) :
  face <> model.FaceDown -> face <> model.FaceUp ->
  back <> model.FaceDown -> back <> model.FaceUp ->
  Side p face = q -> Side q back = p ->
  s p = model.ofFence f -> s q = model.ofFence g ->
  (model.checkFenceConnection Other FenceGate_FaceSolid Other_FaceSolid Side f p face s = true
   <-> model.Wood f = model.Wood g)
  /\ model.checkFenceConnection Other FenceGate_FaceSolid Other_FaceSolid Side g q back s
     = model.checkFenceConnection Other FenceGate_FaceSolid Other_FaceSolid Side f p face s.
Proof.
  intros Hf1 Hf2 Hb1 Hb2 Hq Hp Hsp Hsq.
  rewrite (checkFenceConnection_fence f g p face s Hf1 Hf2) by (rewrite Hq; exact Hsq).
  rewrite (checkFenceConnection_fence g f q back s Hb1 Hb2) by (rewrite Hp; exact Hsp).
  split.
  - rewrite Bool.eqb_true_iff. split; congruence.
  - destruct (model.Wood f), (model.Wood g); reflexivity.
Qed.

(** X18: the boxes of a fence.  BBox returns one box or two: the box
    along x, if the fence is connected to the west or to the east, then the
    box along z, if it is connected to the north or to the south, each
    extended towards the connected sides only; a fence with no connection at
    all has the centre post for its only box. *)
Theorem fence_has_its_side_boxes_or_the_centre_post (f : model.Fence) (p : Pos)
    (s : model.BlockSource Other) :
  let boxes := model.BBox Other FenceGate_FaceSolid Other_FaceSolid Side BBoxT Box Stretch
                 ExtendTowards f p s in
  let connection :=
    model.checkFenceConnection Other FenceGate_FaceSolid Other_FaceSolid Side f p in
  let west := connection model.FaceWest s in
  let east := connection model.FaceEast s in
  let north := connection model.FaceNorth s in
  let south := connection model.FaceSouth s in
  let extend (c : bool) (face : model.Face) (box : BBoxT) :=
    if c then ExtendTowards box face (- model.inset)%Q else box in
  let alongX := extend east model.FaceWest
                  (extend west model.FaceEast
                     (Stretch (Box 0 0 0 1 1.5 1) model.AxisZ (- model.inset)%Q)) in
  let alongZ := extend south model.FaceNorth
                  (extend north model.FaceSouth
                     (Stretch (Box 0 0 0 1 1.5 1) model.AxisX (- model.inset)%Q)) in
  (1 <= length boxes <= 2)%nat
  /\ boxes
     = match west || east, north || south with
       | true, true => [alongX; alongZ]
       | true, false => [alongX]
       | false, true => [alongZ]
       | false, false => [Box 0.375 0 0.375 0.625 1.5 0.625]
       end.
Proof.
  cbv zeta. unfold model.BBox.
  destruct (model.checkFenceConnection _ _ _ _ f p model.FaceWest s),
    (model.checkFenceConnection _ _ _ _ f p model.FaceEast s),
    (model.checkFenceConnection _ _ _ _ f p model.FaceNorth s),
    (model.checkFenceConnection _ _ _ _ f p model.FaceSouth s);
    cbn [orb app length Nat.eqb]; (split; [lia|reflexivity]).
Qed.

End FenceFacts.

Lemma fences_of_the_sample_row :
  let f := model.mkFence true in
  let g := model.mkFence true in
  let s := model.sampleRow in
  model.FaceWest <> model.FaceDown /\ model.FaceWest <> model.FaceUp
  /\ model.FaceEast <> model.FaceDown /\ model.FaceEast <> model.FaceUp
  /\ model.sampleSide (0, 0, 0) model.FaceWest = (-1, 0, 0)
  /\ model.sampleSide (-1, 0, 0) model.FaceEast = (0, 0, 0)
  /\ s (0, 0, 0) = model.ofFence f /\ s (-1, 0, 0) = model.ofFence g
  /\ (model.checkFenceConnection unit (fun _ _ _ => false) (fun _ _ _ _ => false)
        model.sampleSide f (0, 0, 0) model.FaceWest s = true
      <-> model.Wood f = model.Wood g)
  /\ model.checkFenceConnection unit (fun _ _ _ => false) (fun _ _ _ _ => false)
       model.sampleSide g (-1, 0, 0) model.FaceEast s
     = model.checkFenceConnection unit (fun _ _ _ => false) (fun _ _ _ _ => false)
         model.sampleSide f (0, 0, 0) model.FaceWest s.
Proof.
  cbv zeta.
  assert (H1 : model.FaceWest <> model.FaceDown) by discriminate.
  assert (H2 : model.FaceWest <> model.FaceUp) by discriminate.
  assert (H3 : model.FaceEast <> model.FaceDown) by discriminate.
  assert (H4 : model.FaceEast <> model.FaceUp) by discriminate.
  assert (H5 : model.sampleSide (0, 0, 0) model.FaceWest = (-1, 0, 0)) by reflexivity.
  assert (H6 : model.sampleSide (-1, 0, 0) model.FaceEast = (0, 0, 0)) by reflexivity.
  assert (H7 : model.sampleRow (0, 0, 0) = model.ofFence (model.mkFence true))
    by reflexivity.
  assert (H8 : model.sampleRow (-1, 0, 0) = model.ofFence (model.mkFence true))
    by reflexivity.
  split; [exact H1|]. split; [exact H2|]. split; [exact H3|]. split; [exact H4|].
  split; [exact H5|]. split; [exact H6|]. split; [exact H7|]. split; [exact H8|].
  exact (neighbouring_fences_agree_on_their_connection unit (fun _ _ _ => false)
           (fun _ _ _ _ => false) model.sampleSide (model.mkFence true) (model.mkFence true)
           (0, 0, 0) (-1, 0, 0) model.FaceWest model.FaceEast model.sampleRow
           H1 H2 H3 H4 H5 H6 H7 H8).
Defined.

(** The wooden fence at the origin of the sample row is connected to the
    wooden fence on its west and not to the fence of another material on its
    east; that fence is connected to the gate on its own east. *)
Example connections_of_the_sample_row :
  let connection := model.checkFenceConnection unit (fun _ _ _ => false)
                      (fun _ _ _ _ => false) model.sampleSide in
  connection (model.mkFence true) (0, 0, 0) model.FaceWest model.sampleRow = true
  /\ connection (model.mkFence true) (0, 0, 0) model.FaceEast model.sampleRow = false
  /\ connection (model.mkFence false) (1, 0, 0) model.FaceWest model.sampleRow = false
  /\ connection (model.mkFence false) (1, 0, 0) model.FaceEast model.sampleRow = true.
Proof. cbv zeta. repeat split; reflexivity. Qed.

(** ** The drops next to the liquid *)

Section NearestDrop.

Variable env : Env.

Lemma visit_first b pos g displacer sd x z d q paths :
  0 < int8 (d + 3) -> 1 <= shortestPath q ->
  0 <= qi q <= Z.of_nat (length (nodes q)) ->
  Forall (fun n => links n = 1%nat) (pending q) ->
  exists q',
    visit env b pos g displacer true
      (mkNode x z d (Some (mkNode (px pos) (pz pos) sd None))) (Going q paths)
    = Going q' (paths ++ if isDrop b g displacer pos (x, py pos, z)
                         then [[(x, py pos, z)]] else [])
    /\ 0 <= qi q' <= Z.of_nat (length (nodes q'))
    /\ Forall (fun n => links n = 1%nat) (pending q')
    /\ 1 <= shortestPath q'
    /\ (isDrop b g displacer pos (x, py pos, z) = true -> shortestPath q' = 1)
    /\ (shortestPath q = 1 -> shortestPath q' = 1)
    /\ (length (pending q') <= length (pending q) + 1)%nat.
Proof.
  intros Hd Hsp Hc Hp.
  set (neigh := mkNode x z d (Some (mkNode (px pos) (pz pos) sd None))).
  assert (HL : Len neigh = 1) by reflexivity.
  assert (HP : Path neigh pos = Some [(x, py pos, z)]).
  { rewrite Path_chainPositions; [reflexivity|]. cbn. lia. }
  unfold visit, isDrop. cbn [negb orb node_x node_z neigh].
  destruct (sideOpen displacer pos (x, py pos, z)); cbn [andb].
  2:{ exists q. rewrite app_nil_r. repeat split; auto; try lia; try discriminate. }
  unfold spreadNeighbour. fold neigh. rewrite HL. cbn [node_depth node_x node_z neigh].
  replace (int8 (d + 3) <=? 0) with false by (symmetry; apply Z.leb_gt; exact Hd).
  replace (1 >? shortestPath q) with false
    by (symmetry; rewrite Z.gtb_ltb; apply Z.ltb_ge; exact Hsp).
  destruct (canFlowInto b g (x, py pos, z) true); cbn [negb andb].
  2:{ exists q. rewrite app_nil_r. repeat split; auto; try lia; try discriminate. }
  unfold SideDown. cbn [px py pz fst snd].
  destruct (canFlowInto b g (x, int (py pos - 1), z) false).
  - fold neigh. rewrite HP. exists (setShortestPath q 1).
    split; [reflexivity|]. cbn [setShortestPath nodes qi shortestPath].
    change (pending (setShortestPath q 1)) with (pending q).
    split; [exact Hc|]. split; [exact Hp|]. repeat split; auto; lia.
  - exists (PushBack env q neigh). rewrite app_nil_r. split; [reflexivity|].
    split; [apply PushBack_cursor; exact Hc|].
    rewrite pending_PushBack by exact Hc.
    split; [apply Forall_app; split; [exact Hp|constructor; [reflexivity|constructor]]|].
    cbn [PushBack shortestPath]. rewrite length_app. cbn [length].
    repeat split; auto; try lia; try discriminate.
Qed.

Lemma visit_too_long b pos g displacer neigh q paths :
  shortestPath q = 1 -> links neigh = 2%nat ->
  visit env b pos g displacer false neigh (Going q paths) = Going q paths.
Proof.
  intros Hsp Hl. unfold visit. cbn [negb orb]. unfold spreadNeighbour.
  destruct (int8 (node_depth neigh + 3) <=? 0); [reflexivity|].
  rewrite Len_links by (rewrite Hl; cbn; lia). rewrite Hl, Hsp. reflexivity.
Qed.

Lemma drain_level1 b pos g displacer decay (fuel : nat) :
  forall q paths,
    shortestPath q = 1 ->
    0 <= qi q <= Z.of_nat (length (nodes q)) ->
    Forall (fun n => links n = 1%nat) (pending q) ->
    (length (pending q) <= fuel)%nat ->
    exists q', searchLoop env fuel b pos g displacer decay false q paths
               = Some (Going q' paths).
Proof.
  induction fuel as [|fuel IH]; intros q paths Hsp Hc Hp Hlen; cbn [searchLoop];
    destruct (QLen q =? 0) eqn:Hq; eauto; apply Z.eqb_neq in Hq.
  - rewrite (QLen_pending q Hc) in Hq. lia.
  - destruct (Front_pending q Hc Hq) as (n & q1 & HF & Hpq & Hn & Hi & Hs).
    rewrite HF. rewrite Hpq in Hp, Hlen. inversion Hp as [|? ? Hln Hrest]; subst.
    assert (Hsp1 : shortestPath q1 = 1) by congruence.
    unfold expand, neighbours.
    rewrite !visit_too_long by (try exact Hsp1; cbn [links]; rewrite Hln; reflexivity).
    apply IH; auto.
    + rewrite Hn, Hi. unfold QLen in Hq. lia.
    + cbn [length] in Hlen. lia.
Qed.

(** X19: the search takes the drops next to the liquid before any other
    path.  When one of the four horizontal neighbours of the liquid is a
    cell from which it can fall, calculateLiquidPaths returns one path for
    each such neighbour, of that cell alone, in the order x - 1, x + 1,
    z - 1, z + 1, and no longer path; five units of fuel are enough. *)
Theorem search_returns_the_drops_next_to_the_liquid fuel b pos displacer st :
  poolReset st ->
  (5 <= fuel)%nat ->
  0 < int8 (int8 (int8 (LiquidDepth b) - int8 (int8 (SpreadDecay b) * 2)) + 3) ->
  existsb (isDrop b (grid st) displacer pos) (searchOrder pos) = true ->
  exists st',
    calculateLiquidPaths env fuel b pos displacer st
    = Ok (map (fun c => [c]) (filter (isDrop b (grid st) displacer pos) (searchOrder pos)))
         st'.
Proof.
  intros Hpool Hfuel Hdepth Hex. unfold calculateLiquidPaths.
  destruct (poolGet_isReset (pool st) Hpool) as [Hq _].
  destruct (poolGet (pool st)) as [q0 rest]. cbn [fst] in Hq.
  destruct Hq as (Hn0 & Hi0 & Hs0).
  destruct fuel as [|fuel]; [lia|].
  unfold searchFrom. cbn [searchLoop].
  set (seed := mkNode (px pos) (pz pos) (int8 (LiquidDepth b)) None).
  assert (HQ : (QLen (PushBack env q0 seed) =? 0) = false).
  { unfold QLen, PushBack. cbn [nodes qi]. rewrite Hn0, Hi0. reflexivity. }
  assert (HF : exists q1,
             Front (PushBack env q0 seed) = Some (seed, q1)
             /\ nodes q1 = [seed] /\ qi q1 = 1 /\ shortestPath q1 = MaxInt8).
  { unfold Front, PushBack. cbn [nodes qi cap shortestPath]. rewrite Hn0, Hi0, Hs0.
    eexists. split; [reflexivity|]. cbn [nodes qi shortestPath]. auto. }
  destruct HF as (q1 & HF & Hn1 & Hi1 & Hsq1).
  rewrite HQ, HF.
  assert (Hpend1 : pending q1 = []).
  { unfold pending. rewrite Hn1, Hi1. reflexivity. }
  assert (Hc1 : 0 <= qi q1 <= Z.of_nat (length (nodes q1))).
  { rewrite Hn1, Hi1. cbn. lia. }
  assert (Hp1 : Forall (fun n => links n = 1%nat) (pending q1)).
  { rewrite Hpend1. constructor. }
  assert (Hs1 : 1 <= shortestPath q1) by (rewrite Hsq1; unfold MaxInt8; lia).
  subst seed. unfold expand, neighbours. cbn [node_x node_z node_depth].
  destruct (visit_first b pos (grid st) displacer (int8 (LiquidDepth b))
              (int (px pos - 1)) (pz pos) _ q1 [] Hdepth Hs1 Hc1 Hp1)
    as (qa & -> & Hca & Hpa & Hsa & Hda & _ & Hla).
  set (pa := [] ++ _).
  destruct (visit_first b pos (grid st) displacer (int8 (LiquidDepth b))
              (int (px pos + 1)) (pz pos) _ qa pa Hdepth Hsa Hca Hpa)
    as (qb & -> & Hcb & Hpb & Hsb & Hdb & Hkb & Hlb).
  set (pb := pa ++ _).
  destruct (visit_first b pos (grid st) displacer (int8 (LiquidDepth b))
              (px pos) (int (pz pos - 1)) _ qb pb Hdepth Hsb Hcb Hpb)
    as (qc & -> & Hcc & Hpc & Hsc & Hdc & Hkc & Hlc).
  set (pc := pb ++ _).
  destruct (visit_first b pos (grid st) displacer (int8 (LiquidDepth b))
              (px pos) (int (pz pos + 1)) _ qc pc Hdepth Hsc Hcc Hpc)
    as (qd & -> & Hcd & Hpd & Hsd & Hdd & Hkd & Hld).
  set (pd := pc ++ _).
  assert (Hone : shortestPath qd = 1).
  { unfold searchOrder in Hex. cbn [existsb] in Hex.
    destruct (isDrop b (grid st) displacer pos (int (px pos - 1), py pos, pz pos));
      [auto|].
    destruct (isDrop b (grid st) displacer pos (int (px pos + 1), py pos, pz pos));
      [auto|].
    destruct (isDrop b (grid st) displacer pos (px pos, py pos, int (pz pos - 1)));
      [auto|].
    destruct (isDrop b (grid st) displacer pos (px pos, py pos, int (pz pos + 1)));
      [auto|discriminate]. }
  assert (Hlen : (length (pending qd) <= fuel)%nat).
  { rewrite Hpend1 in Hla. cbn [length] in Hla. lia. }
  destruct (drain_level1 b pos (grid st) displacer (int8 (SpreadDecay b)) fuel qd pd
              Hone Hcd Hpd Hlen) as (q' & ->).
  eexists. f_equal. subst pa pb pc pd. unfold searchOrder. cbn [filter map].
  destruct (isDrop b (grid st) displacer pos (int (px pos - 1), py pos, pz pos)),
    (isDrop b (grid st) displacer pos (int (px pos + 1), py pos, pz pos)),
    (isDrop b (grid st) displacer pos (px pos, py pos, int (pz pos - 1))),
    (isDrop b (grid st) displacer pos (px pos, py pos, int (pz pos + 1)));
    reflexivity.
Qed.

End NearestDrop.

Lemma water_source_on_a_ledge_finds_the_drop :
  let b := water 8 false in
  let st := stateOf ledgeGrid in
  poolReset st
  /\ (5 <= 5)%nat
  /\ 0 < int8 (int8 (int8 (LiquidDepth b) - int8 (int8 (SpreadDecay b) * 2)) + 3)
  /\ existsb (isDrop b (grid st) None (0, 0, 0)) (searchOrder (0, 0, 0)) = true
  /\ exists st',
       calculateLiquidPaths sampleEnv 5 b (0, 0, 0) None st
       = Ok (map (fun c => [c])
               (filter (isDrop b (grid st) None (0, 0, 0)) (searchOrder (0, 0, 0))))
            st'.
Proof.
  cbv zeta.
  assert (H1 : poolReset (stateOf ledgeGrid)) by constructor.
  assert (H2 : (5 <= 5)%nat) by lia.
  assert (H3 : 0 < int8 (int8 (int8 (LiquidDepth (water 8 false))
                                 - int8 (int8 (SpreadDecay (water 8 false)) * 2)) + 3))
    by reflexivity.
  assert (H4 : existsb (isDrop (water 8 false) (grid (stateOf ledgeGrid)) None (0, 0, 0))
                 (searchOrder (0, 0, 0)) = true) by reflexivity.
  split; [exact H1|]. split; [exact H2|]. split; [exact H3|]. split; [exact H4|].
  exact (search_returns_the_drops_next_to_the_liquid sampleEnv 5 (water 8 false) (0, 0, 0)
           None (stateOf ledgeGrid) H1 H2 H3 H4).
Defined.

(** On the ledge the search returns the one path to the east. *)
Example ledge_search :
  calculateLiquidPaths sampleEnv 5 (water 8 false) (0, 0, 0) None (stateOf ledgeGrid)
  = Ok [[(1, 0, 0)]]
       {| grid := ledgeGrid; log := [];
          pool := [{| nodes := []; cap := 64; qi := 0; shortestPath := 127 |}] |}.
Proof. vm_compute. reflexivity. Qed.
